(** * Shallow embedding of the intranet REST API (src/backend/.tmp-db-inspect.cjs)

    The Express handlers are modelled as programs in a small state-and-error
    monad over a connection to a relational store.  The store keeps, per
    table, its rows (generic column/value association lists, as returned by
    [pg]), the column set reported by [information_schema.columns], the
    foreign keys reported by [information_schema], the [pg_enum] labels and
    the [SERIAL] counters.

    Modelling conventions:
    - request bodies are JSON objects whose fields are scalars ([jval]);
      numbers are IEEE 754 doubles, as in JavaScript; objects and
      arrays are not modelled;
    - [toLowerCase] and [trim] are modelled on ASCII;
    - timestamps are integers; [NOW()] is the store's clock [s_now];
    - foreign keys are enforced with PostgreSQL's default NO ACTION: a
      statement that leaves a referencing row without its target fails;
    - every query may fail for reasons outside the program (lost
      connection, ...): the connection carries a list of fault bits, one
      consumed per query, [true] meaning that this query throws. *)

From Stdlib Require Import String Ascii List ZArith Bool Lia Sorting.Sorted Permutation DecimalString.
From Stdlib Require Import Floats.SpecFloat.
Set Warnings "-register-all".
Import ListNotations.
Open Scope string_scope.
Open Scope Z_scope.

(** [Some k] is typed against the expected option type first, so that an
    integer [k] given for a JavaScript number is read as one. *)
Arguments Some {A} & a.

(** ** JavaScript values and strings *)

Module Js.

(** A JavaScript number other than [NaN]: [JInt k] is an integer below
    [10^21] in magnitude ([-0] is [JInt 0]), the numbers [String] prints as
    integer literals; [JOther x] is any other double: a fraction, an
    infinity, or an integer of [10^21] or more. *)
Inductive jnumber : Type :=
| JInt (k : Z)
| JOther (x : spec_float).

Coercion JInt : Z >-> jnumber.

(** The truthiness of a number: all but [0], [-0] and [NaN]. *)
Definition jn_truthy (x : jnumber) : bool :=
  match x with
  | JInt k => negb (k =? 0)
  | JOther _ => true
  end.

(** Scalar JSON values of a request body; [JUndef] is an absent field. *)
Inductive jval : Type :=
| JUndef
| JNull
| JBool (b : bool)
| JNum (n : jnumber)
| JStr (s : string).

(** JavaScript truthiness ([!x] is [negb (truthy x)]). *)
Definition truthy (v : jval) : bool :=
  match v with
  | JUndef | JNull => false
  | JBool b => b
  | JNum n => jn_truthy n
  | JStr s => negb (String.eqb s "")
  end.

Definition ascii_lower (c : ascii) : ascii :=
  let n := nat_of_ascii c in
  if (Nat.leb 65 n && Nat.leb n 90)%bool then ascii_of_nat (n + 32) else c.

(** [String.prototype.toLowerCase] (ASCII letters). *)
Definition lower (s : string) : string :=
  string_of_list_ascii (map ascii_lower (list_ascii_of_string s)).

Definition is_ws (c : ascii) : bool :=
  let n := nat_of_ascii c in
  (Nat.eqb n 32 || (Nat.leb 9 n && Nat.leb n 13))%bool.

Fixpoint drop_ws (l : list ascii) : list ascii :=
  match l with
  | [] => []
  | c :: l' => if is_ws c then drop_ws l' else l
  end.

(** [String.prototype.trim]. *)
Definition trim (s : string) : string :=
  string_of_list_ascii
    (rev (drop_ws (rev (drop_ws (list_ascii_of_string s))))).

Definition digit_val (c : ascii) : option Z :=
  let n := nat_of_ascii c in
  if (Nat.leb 48 n && Nat.leb n 57)%bool then Some (Z.of_nat n - 48) else None.

Fixpoint digits_acc (acc : Z) (l : list ascii) : option Z :=
  match l with
  | [] => Some acc
  | c :: l' =>
      match digit_val c with
      | Some d => digits_acc (10 * acc + d) l'
      | None => None
      end
  end.

(** An optionally signed decimal integer literal (at least one digit). *)
Definition parse_int (l : list ascii) : option Z :=
  match l with
  | [] => None
  | c :: l' =>
      if Ascii.eqb c "-"%char then
        match l' with [] => None | _ => option_map Z.opp (digits_acc 0 l') end
      else if Ascii.eqb c "+"%char then
        match l' with [] => None | _ => digits_acc 0 l' end
      else digits_acc 0 l
  end.

(** ** [Number(s)] for a string: ECMAScript's StringToNumber *)

(** IEEE 754 binary64, the type of every JavaScript number. *)
Definition prec : Z := 53.
Definition emax : Z := 1024.

(** The double nearest to [m * 10^e] (ties to even), negated when [neg];
    [m >= 0].  Beyond [10^309] the result is an infinity, below
    [10^-324] a zero. *)
Definition round_dec (neg : bool) (m e : Z) : spec_float :=
  if Z.eqb m 0 then S754_zero neg
  else if Z.leb 0 e then
    if Z.leb 309 e then S754_infinity neg
    else binary_normalize prec emax ((if neg then -1 else 1) * (m * 10 ^ e)) 0 neg
  else if Z.ltb (Z.of_nat (String.length (NilZero.string_of_int (Z.to_int m))) + e) (-324)
  then S754_zero neg
  else let '(q, e', l) := SFdiv_core_binary prec emax m 0 (10 ^ (- e)) 0 in
       binary_round_aux prec emax neg q e' l.

(** A digit of radix [base] (2, 8, 10 or 16). *)
Definition digit_of (base : Z) (c : ascii) : option Z :=
  let n := Z.of_nat (nat_of_ascii c) in
  let d := if (48 <=? n) && (n <=? 57) then n - 48
           else if (97 <=? n) && (n <=? 102) then n - 87
           else if (65 <=? n) && (n <=? 70) then n - 55
           else base in
  if d <? base then Some d else None.

(** The longest prefix of digits of radix [base], and the rest. *)
Fixpoint span_digits (base : Z) (l : list ascii) : list Z * list ascii :=
  match l with
  | c :: l' =>
      match digit_of base c with
      | Some d => let '(ds, r) := span_digits base l' in (d :: ds, r)
      | None => ([], l)
      end
  | [] => ([], [])
  end.

Definition value_of_digits (base : Z) (ds : list Z) : Z :=
  fold_left (fun a d => base * a + d) ds 0.

(** [ExponentPart] after the [e]: an optional sign and at least one digit,
    ending the literal. *)
Definition exponent_part (l : list ascii) : option Z :=
  let '(neg, l') := match l with
                    | c :: r => if Ascii.eqb c "-" then (true, r)
                                else if Ascii.eqb c "+" then (false, r) else (false, l)
                    | [] => (false, l)
                    end in
  match span_digits 10 l' with
  | ((_ :: _) as ds, []) => Some (if neg then - value_of_digits 10 ds else value_of_digits 10 ds)
  | _ => None
  end.

(** [StrUnsignedDecimalLiteral] without [Infinity]: [digits [. digits?]],
    or [. digits], then an optional exponent; the value is [m * 10^e]. *)
Definition unsigned_decimal (l : list ascii) : option (Z * Z) :=
  let '(ip, r1) := span_digits 10 l in
  let '(fp, r2) := match r1 with
                   | c :: r => if Ascii.eqb c "." then span_digits 10 r else ([], r1)
                   | [] => ([], [])
                   end in
  match (ip ++ fp)%list with
  | [] => None
  | ds =>
      let m := value_of_digits 10 ds in
      let f := Z.of_nat (length fp) in
      match r2 with
      | [] => Some (m, - f)
      | c :: r3 =>
          if (Ascii.eqb c "e" || Ascii.eqb c "E")%bool then
            option_map (fun x => (m, x - f)) (exponent_part r3)
          else None
      end
  end.

(** [0b], [0o] and [0x] literals (no sign). *)
Definition radix_prefix (c : ascii) : option Z :=
  if (Ascii.eqb c "b" || Ascii.eqb c "B")%bool then Some 2
  else if (Ascii.eqb c "o" || Ascii.eqb c "O")%bool then Some 8
  else if (Ascii.eqb c "x" || Ascii.eqb c "X")%bool then Some 16
  else None.

(** [StrUnsignedDecimalLiteral] with its sign applied. *)
Definition unsigned_value (neg : bool) (l : list ascii) : option spec_float :=
  if String.eqb (string_of_list_ascii l) "Infinity" then Some (S754_infinity neg)
  else option_map (fun me => round_dec neg (fst me) (snd me)) (unsigned_decimal l).

(** StringToNumber, after trimming: [""] is 0; [None] is [NaN]. *)
Definition string_to_number (s : string) : option spec_float :=
  match list_ascii_of_string (trim s) with
  | [] => Some (S754_zero false)
  | c :: r =>
      if Ascii.eqb c "-" then unsigned_value true r
      else if Ascii.eqb c "+" then unsigned_value false r
      else
        match r with
        | p :: ds =>
            match (if Ascii.eqb c "0" then radix_prefix p else None) with
            | Some base =>
                match span_digits base ds with
                | ((_ :: _) as dv, []) => Some (round_dec false (value_of_digits base dv) 0)
                | _ => None
                end
            | None => unsigned_value false (c :: r)
            end
        | [] => unsigned_value false [c]
        end
  end.

(** A JavaScript number: [None] is [NaN]. *)
Definition jsnum := option jnumber.

(** ** [Number.prototype.toString()] *)

Definition dec_string (z : Z) : string := NilZero.string_of_int (Z.to_int z).

Definition dec_digits (z : Z) : Z := Z.of_nat (String.length (dec_string z)).

(** [num / den >= 10^j] *)
Definition ge_pow10 (num den j : Z) : bool :=
  if Z.leb 0 j then Z.leb (10 ^ j * den) num else Z.leb den (num * 10 ^ (- j)).

(** The integer nearest to [num / den], ties to even. *)
Definition round_div (num den : Z) : Z :=
  let '(q, r) := Z.div_eucl num den in
  match Z.compare (2 * r) den with
  | Lt => q
  | Gt => q + 1
  | Eq => if Z.even q then q else q + 1
  end.

Definition same_float (x y : spec_float) : bool :=
  match SFcompare x y with Some Eq => true | _ => false end.

(** The digits [s] ([k] of them) and the exponent [n] of ECMAScript's
    Number::toString for the positive double [m * 2^e]: the least [k] such
    that [s * 10^(n - k)] reads back as the same double. *)
Fixpoint shortest_from (fuel : nat) (k : Z) (m : positive) (e : Z) (num den n : Z) : Z * Z * Z :=
  let q := n - k in
  let s0 := if Z.leb 0 q then round_div num (den * 10 ^ q) else round_div (num * 10 ^ (- q)) den in
  let '(s, n') := if Z.eqb s0 (10 ^ k) then (10 ^ (k - 1), n + 1) else (s0, n) in
  match fuel with
  | O => (s, k, n')
  | S fuel' =>
      if same_float (round_dec false s (n' - k)) (S754_finite false m e) then (s, k, n')
      else shortest_from fuel' (k + 1) m e num den n
  end.

Definition shortest (m : positive) (e : Z) : Z * Z * Z :=
  let num := if Z.leb 0 e then Zpos m * 2 ^ e else Zpos m in
  let den := if Z.leb 0 e then 1 else 2 ^ (- e) in
  let n0 := dec_digits num - dec_digits den in
  let n := if ge_pow10 num den n0 then n0 + 1 else n0 in
  shortest_from 16 1 m e num den n.

Definition zeros (n : Z) : string := String.concat "" (repeat "0" (Z.to_nat n)).

Definition format_dec (s k n : Z) : string :=
  let ds := dec_string s in
  if (Z.leb k n && Z.leb n 21)%bool then ds ++ zeros (n - k)
  else if (Z.ltb 0 n && Z.leb n 21)%bool then
    substring 0 (Z.to_nat n) ds ++ "." ++ substring (Z.to_nat n) (Z.to_nat (k - n)) ds
  else if (Z.ltb (-6) n && Z.leb n 0)%bool then "0." ++ zeros (- n) ++ ds
  else
    let ex := (if Z.ltb (n - 1) 0 then "-" else "+") ++ dec_string (Z.abs (n - 1)) in
    if Z.eqb k 1 then ds ++ "e" ++ ex
    else substring 0 1 ds ++ "." ++ substring 1 (Z.to_nat (k - 1)) ds ++ "e" ++ ex.

(** [String(x)] for a double. *)
Definition float_to_string (x : spec_float) : string :=
  match x with
  | S754_nan => "NaN"
  | S754_zero _ => "0"
  | S754_infinity s => if s then "-Infinity" else "Infinity"
  | S754_finite s m e =>
      (if s then "-" else "") ++ let '(sd, k, n) := shortest m e in format_dec sd k n
  end.

(** The integer an integer column reads from the text [t]: an optionally
    signed decimal integer literal, surrounding white space ignored. *)
Definition int_text (t : string) : option Z := parse_int (list_ascii_of_string (trim t)).

(** The number a double is: [String(x)] is an integer literal exactly for
    the integers below [10^21] in magnitude. *)
Definition of_float (x : spec_float) : jsnum :=
  match x with
  | S754_nan => None
  | _ => match int_text (float_to_string x) with
         | Some k => Some (JInt k)
         | None => Some (JOther x)
         end
  end.

(** [String(n)] *)
Definition num_to_string (x : jnumber) : string :=
  match x with
  | JInt k => dec_string k
  | JOther f => float_to_string f
  end.

(** [Number(v)]; a string is trimmed, [""] is 0 and any other text that is
    not a numeric literal is [NaN]. *)
Definition Number (v : jval) : jsnum :=
  match v with
  | JUndef => None
  | JNull => Some (JInt 0)
  | JBool b => Some (JInt (if b then 1 else 0))
  | JNum n => Some n
  | JStr s => match string_to_number s with Some x => of_float x | None => None end
  end.

Definition num_truthy (n : jsnum) : bool :=
  match n with Some x => jn_truthy x | None => false end.

(** A request body: [JSON.parse] keeps the last of duplicated keys. *)
Definition body := list (string * jval).

Definition field (b : body) (k : string) : jval :=
  match find (fun kv => String.eqb (fst kv) k) (rev b) with
  | Some (_, v) => v
  | None => JUndef
  end.

(** [Object.prototype.hasOwnProperty.call(body, k)]. *)
Definition has_own (b : body) (k : string) : bool :=
  existsb (fun kv => String.eqb (fst kv) k) b.

End Js.
Import Js.

(** ** Relational store *)

Module Db.

Inductive value : Type :=
| VNull
| VInt (n : Z)
| VStr (s : string)
| VBool (b : bool).

Definition value_eqb (a b : value) : bool :=
  match a, b with
  | VNull, VNull => true
  | VInt x, VInt y => Z.eqb x y
  | VStr x, VStr y => String.eqb x y
  | VBool x, VBool y => Bool.eqb x y
  | _, _ => false
  end.

(** SQL [col = n] for an integer [n]: [NULL] compares to nothing. *)
Definition is_int (v : value) (n : Z) : bool :=
  match v with VInt k => Z.eqb k n | _ => false end.

Definition row := list (string * value).

Definition get (r : row) (c : string) : value :=
  match find (fun kv => String.eqb (fst kv) c) r with
  | Some (_, v) => v
  | None => VNull
  end.

Inductive tbl : Type := TUser | TCompany | TPost | TComment | TMessage.

Definition tbl_name (t : tbl) : string :=
  match t with
  | TUser => "User"
  | TCompany => "Company"
  | TPost => "Post"
  | TComment => "Comment"
  | TMessage => "Message"
  end.

Definition tbl_eqb (a b : tbl) : bool :=
  match a, b with
  | TUser, TUser | TCompany, TCompany | TPost, TPost
  | TComment, TComment | TMessage, TMessage => true
  | _, _ => false
  end.

Record store : Type := mkStore {
  s_rows : tbl -> list row;
  s_cols : tbl -> list string;
  (** foreign keys: (table, column, referenced table) *)
  s_fks : list (tbl * string * tbl);
  (** [pg_type] enum types with their labels in [enumsortorder] *)
  s_enums : list (string * list string);
  s_serial : tbl -> Z;
  s_now : Z
}.

Definition set_rows (st : store) (t : tbl) (rs : list row) : store :=
  {| s_rows := fun t' => if tbl_eqb t t' then rs else s_rows st t';
     s_cols := s_cols st; s_fks := s_fks st; s_enums := s_enums st;
     s_serial := s_serial st; s_now := s_now st |}.

Definition has_col (st : store) (t : tbl) (c : string) : bool :=
  existsb (String.eqb c) (s_cols st t).

Definition has_cols (st : store) (t : tbl) (cs : list string) : bool :=
  forallb (has_col st t) cs.

Definition project (cs : list string) (r : row) : row :=
  map (fun c => (c, get r c)) cs.

(** [SELECT cs FROM t WHERE p]; [refs] are the columns the statement names,
    a missing one is an SQL error. *)
Definition select (t : tbl) (refs cs : list string) (p : row -> bool)
  (st : store) : option (list row) :=
  if has_cols st t (refs ++ cs) then Some (map (project cs) (filter p (s_rows st t)))
  else None.

(** Rows of [t'] still pointing through [c] at a row removed from [t]. *)
Definition dangling (st : store) (t : tbl) (gone : list row) : bool :=
  existsb (fun fk =>
    let '(t', c, target) := fk in
    tbl_eqb target t &&
    existsb (fun r =>
      existsb (fun d => match get d "id" with
                        | VNull => false
                        | i => value_eqb (get r c) i end) gone)
      (s_rows st t'))%bool
    (s_fks st).

(** [DELETE FROM t WHERE p], with the foreign-key check at statement end. *)
Definition delete (t : tbl) (refs : list string) (p : row -> bool)
  (st : store) : option (store * list row) :=
  if has_cols st t refs then
    let gone := filter p (s_rows st t) in
    let st' := set_rows st t (filter (fun r => negb (p r)) (s_rows st t)) in
    if dangling st' t gone then None else Some (st', gone)
  else None.

Definition row_ids (st : store) (t : tbl) : list value :=
  map (fun r => get r "id") (s_rows st t).

(** Foreign keys of [t] are satisfied by a new row [r]. *)
Definition fk_ok (st : store) (t : tbl) (r : row) : bool :=
  forallb (fun fk =>
    let '(t0, c, target) := fk in
    negb (tbl_eqb t0 t) ||
    match get r c with
    | VNull => true
    | v => existsb (value_eqb v) (row_ids st target)
    end)%bool
    (s_fks st).

(** [INSERT INTO t (cols) VALUES (...) RETURNING *]: the [SERIAL] id and
    the columns with a [DEFAULT NOW()] ([defaults]) are filled in. *)
Definition insert (t : tbl) (r : row) (defaults : list string)
  (st : store) : option (store * row) :=
  let id := s_serial st t in
  let full := ("id", VInt id) :: r ++ map (fun c => (c, VInt (s_now st))) defaults in
  if has_cols st t (map fst r ++ defaults) && fk_ok st t full then
    let st1 := set_rows st t (s_rows st t ++ [full]) in
    Some ({| s_rows := s_rows st1; s_cols := s_cols st1; s_fks := s_fks st1;
             s_enums := s_enums st1;
             s_serial := fun t' => if tbl_eqb t t' then id + 1 else s_serial st t';
             s_now := s_now st1 |}, full)
  else None.

End Db.
Import Db.

(** ** Responses *)

Inductive json : Type :=
| JsNull
| JsInt (n : Z)
| JsStr (s : string)
| JsBool (b : bool)
| JsObj (kvs : list (string * json))
| JsArr (xs : list json).

Definition json_of_value (v : value) : json :=
  match v with
  | VNull => JsNull
  | VInt n => JsInt n
  | VStr s => JsStr s
  | VBool b => JsBool b
  end.

Definition json_of_row (r : row) : json :=
  JsObj (map (fun kv => (fst kv, json_of_value (snd kv))) r).

Record response : Type := mkResp { status : Z; payload : json }.

(** [res.status(code).json({ message })] *)
Definition fail_with (code : Z) (msg : string) : response :=
  mkResp code (JsObj [("message", JsStr msg)]).

(** [res.json(j)] *)
Definition ok (j : json) : response := mkResp 200 j.

(** ** The query monad

    [pool.query] runs in autocommit mode on the committed store;
    [client.query] runs inside the client's open transaction when there is
    one.  Every statement the client sends is logged. *)

Inductive stmt : Type :=
| StBegin | StCommit | StRollback
| StSelect (t : tbl) | StInsert (t : tbl) | StUpdate (t : tbl)
| StDelete (t : tbl) | StAlterType
| StCatalog.

Record conn : Type := mkConn {
  c_db : store;
  c_work : option store;
  c_faults : list bool;
  c_log : list stmt
}.

Definition conn_of (st : store) : conn := mkConn st None [] [].

Inductive result (A : Type) : Type :=
| Ret (a : A)
| Throw (msg : string).
Arguments Ret {A} a.
Arguments Throw {A} msg.

Definition M (A : Type) : Type := conn -> result A * conn.

Definition mret {A} (a : A) : M A := fun c => (Ret a, c).

Definition mbind {A B} (m : M A) (k : A -> M B) : M B :=
  fun c => match m c with
           | (Ret a, c') => k a c'
           | (Throw e, c') => (Throw e, c')
           end.

Notation "x <- m ;; k" := (mbind m (fun x => k))
  (at level 61, m at next level, right associativity).
Notation "m ;;; k" := (mbind m (fun _ => k))
  (at level 61, right associativity).

Definition mthrow {A} (e : string) : M A := fun c => (Throw e, c).

(** [try { m } catch (e) { h e }] *)
Definition mtry {A} (m : M A) (h : string -> M A) : M A :=
  fun c => match m c with
           | (Ret a, c') => (Ret a, c')
           | (Throw e, c') => h e c'
           end.

(** Consume one fault bit. *)
Definition next_fault (c : conn) : bool * conn :=
  match c_faults c with
  | [] => (false, c)
  | b :: rest => (b, mkConn (c_db c) (c_work c) rest (c_log c))
  end.

(** [await pool.query(...)]: autocommit on the committed store. *)
Definition pool_query {A} (f : store -> option (store * A)) : M A :=
  fun c =>
    let '(b, c1) := next_fault c in
    if b then (Throw "connection error", c1) else
    match f (c_db c1) with
    | Some (st', a) => (Ret a, mkConn st' (c_work c1) (c_faults c1) (c_log c1))
    | None => (Throw "SQL error", c1)
    end.

(** [await client.query(...)] *)
Definition client_query {A} (s : stmt) (f : store -> option (store * A)) : M A :=
  fun c0 =>
    let c := mkConn (c_db c0) (c_work c0) (c_faults c0) (c_log c0 ++ [s]) in
    let '(b, c1) := next_fault c in
    if b then (Throw "connection error", c1) else
    match c_work c1 with
    | Some w =>
        match f w with
        | Some (w', a) => (Ret a, mkConn (c_db c1) (Some w') (c_faults c1) (c_log c1))
        | None => (Throw "SQL error", c1)
        end
    | None =>
        match f (c_db c1) with
        | Some (st', a) => (Ret a, mkConn st' None (c_faults c1) (c_log c1))
        | None => (Throw "SQL error", c1)
        end
    end.

(** A [pool.query] that only reads. *)
Definition pool_read {A} (f : store -> option A) : M A :=
  fun c =>
    let '(b, c1) := next_fault c in
    if b then (Throw "connection error", c1) else
    match f (c_db c1) with
    | Some a => (Ret a, c1)
    | None => (Throw "SQL error", c1)
    end.

(** A [client.query] that only reads. *)
Definition client_read {A} (s : stmt) (f : store -> option A) : M A :=
  fun c0 =>
    let c := mkConn (c_db c0) (c_work c0) (c_faults c0) (c_log c0 ++ [s]) in
    let '(b, c1) := next_fault c in
    if b then (Throw "connection error", c1) else
    match f (match c_work c1 with Some w => w | None => c_db c1 end) with
    | Some a => (Ret a, c1)
    | None => (Throw "SQL error", c1)
    end.

(** [client.query('BEGIN')] *)
Definition q_begin : M unit :=
  fun c0 =>
    let c := mkConn (c_db c0) (c_work c0) (c_faults c0) (c_log c0 ++ [StBegin]) in
    let '(b, c1) := next_fault c in
    if b then (Throw "connection error", c1)
    else (Ret tt, mkConn (c_db c1) (Some (c_db c1)) (c_faults c1) (c_log c1)).

(** [client.query('COMMIT')]: a failing COMMIT aborts the transaction. *)
Definition q_commit : M unit :=
  fun c0 =>
    let c := mkConn (c_db c0) (c_work c0) (c_faults c0) (c_log c0 ++ [StCommit]) in
    let '(b, c1) := next_fault c in
    if b then (Throw "commit failed", mkConn (c_db c1) None (c_faults c1) (c_log c1))
    else match c_work c1 with
         | Some w => (Ret tt, mkConn w None (c_faults c1) (c_log c1))
         | None => (Ret tt, c1)
         end.

(** [client.query('ROLLBACK')] *)
Definition q_rollback : M unit :=
  fun c0 => (Ret tt, mkConn (c_db c0) None (c_faults c0) (c_log c0 ++ [StRollback])).

(** [getTableColumns(t)]: [pool.query] on [information_schema.columns]. *)
Definition getTableColumns (t : tbl) : M (list string) :=
  pool_read (fun st => Some (s_cols st t)).

(** [resolveColumn(columns, candidates)] *)
Definition resolveColumn (columns candidates : list string) : option string :=
  let lowerMap := map (fun c => (lower c, c)) columns in
  (* [Map.set] keeps the last column for a repeated lowercase key *)
  let lookup k := match find (fun kv => String.eqb (fst kv) k) (rev lowerMap) with
                  | Some (_, c) => Some c | None => None end in
  fold_left (fun acc cand => match acc with
                             | Some _ => acc
                             | None => match lookup (lower cand) with
                                       | Some c => if String.eqb c "" then None else Some c
                                       | None => None end
                             end) candidates None.

(** The table the first foreign key on [t.c] references. *)
Definition fk_target (st : store) (t : tbl) (c : string) : option string :=
  match find (fun fk => let '(t0, c0, _) := fk in
                        (tbl_eqb t0 t && String.eqb c0 c)%bool) (s_fks st) with
  | Some (_, _, target) => Some (tbl_name target)
  | None => None
  end.

(** [getForeignKeyTarget(table, column)] *)
Definition getForeignKeyTarget (t : tbl) (c : string) : M (option string) :=
  pool_read (fun st => Some (fk_target st t c)).

(** ** POST /api/auth/login *)

Module Auth.
Section Login.

(** [bcrypt.compare(password, hash)] on two strings. *)
Variable bcrypt_compare : string -> string -> bool.

Definition normalize_email (email : jval) : string :=
  match email with JStr s => lower (trim s) | _ => "" end.

(** [typeof role === 'string' ? role.toLowerCase() : null] *)
Definition requested_role (role : jval) : option string :=
  match role with JStr s => Some (lower s) | _ => None end.

(** [typeof user.role === 'string' ? user.role.toLowerCase() : user.role] *)
Definition user_role (v : value) : value :=
  match v with VStr s => VStr (lower s) | _ => v end.

(** [requestedRole && userRole !== requestedRole] *)
Definition role_rejected (rr : option string) (ur : value) : bool :=
  match rr with
  | Some r => (negb (String.eqb r "") && negb (value_eqb ur (VStr r)))%bool
  | None => false
  end.

(** [bcrypt.compare] rejects arguments that are not strings. *)
Definition compare_password (password : jval) (hash : value) : M bool :=
  match password, hash with
  | JStr p, VStr h => mret (bcrypt_compare p h)
  | _, _ => mthrow "Illegal arguments"
  end.

Definition login_token : string := "dev-session-token".

Definition login_handler (b : body) : M response :=
  let password := field b "password" in
  let normalizedEmail := normalize_email (field b "email") in
  if (String.eqb normalizedEmail "" || negb (truthy password))%bool then
    mret (fail_with 400 "Email and password are required.")
  else
    mtry
      (rows <- pool_read
                (select TUser ["email"] ["id"; "email"; "password"; "role"; "companyId"]
                   (fun r => match get r "email" with
                             | VStr e => String.eqb (lower e) normalizedEmail
                             | _ => false end));;
       match rows with
       | [] => mret (fail_with 401 "Invalid credentials.")
       | user :: _ =>
           let userRole := user_role (get user "role") in
           if role_rejected (requested_role (field b "role")) userRole then
             mret (fail_with 401 "Invalid role for this account.")
           else
             matches <- compare_password password (get user "password");;
             if negb matches then mret (fail_with 401 "Invalid credentials.")
             else
               mret (ok (JsObj
                 [("token", JsStr login_token);
                  ("user", JsObj [("id", json_of_value (get user "id"));
                                  ("email", json_of_value (get user "email"));
                                  ("role", json_of_value userRole);
                                  ("companyId", json_of_value (get user "companyId"))])]))
       end) (fun _ => mret (fail_with 500 "Server error.")).

End Login.
End Auth.

(** ** Fixtures and observations *)

Definition mk_store (rows : tbl -> list row) (cols : tbl -> list string)
  (fks : list (tbl * string * tbl)) : store :=
  mkStore rows cols fks [] (fun _ => 1) 0.

(** The user row the login query returns first. *)
Definition first_user (db : store) (normalizedEmail : string) : option row :=
  find (fun r => match get r "email" with
                 | VStr e => String.eqb (lower e) normalizedEmail
                 | _ => false end) (s_rows db TUser).

(** The reduced user record the login response carries. *)
Definition safe_user (u : row) : json :=
  JsObj [("id", json_of_value (get u "id"));
         ("email", json_of_value (get u "email"));
         ("role", json_of_value (Auth.user_role (get u "role")));
         ("companyId", json_of_value (get u "companyId"))].

Definition login_cols : list string := ["id"; "email"; "password"; "role"; "companyId"].


(** A [bcrypt] stand-in for concrete runs: the hash of [p] is ["h:" ++ p]. *)
Definition fx_compare (p h : string) : bool := String.eqb ("h:" ++ p) h.

Definition fx_ann : row :=
  [("id", VInt 1); ("email", VStr "Ann@x.io"); ("password", VStr "h:pw");
   ("role", VStr "admin"); ("companyId", VInt 3)].

Definition fx_login_db : store :=
  mk_store (fun t => match t with TUser => [fx_ann] | _ => [] end)
           (fun t => match t with TUser => login_cols | _ => [] end) [].

(** The [token] field of a JSON object. *)
Definition token_of (j : json) : option json :=
  match j with
  | JsObj kvs => match find (fun kv => String.eqb (fst kv) "token") kvs with
                 | Some (_, v) => Some v | None => None end
  | _ => None
  end.

(** ** Parameters as PostgreSQL reads them *)

Module Pg.

(** A JavaScript number held in a variable, as [pg] binds it: the text
    [String(n)], an integer literal exactly for [JInt k], which is kept as
    [VInt k].  [NaN] is kept as [VNull]: both are falsy, and every use of a
    number that may be [NaN] first tests its truthiness. *)
Definition num_value (n : jsnum) : value :=
  match n with
  | Some (JInt k) => VInt k
  | Some (JOther x) => VStr (float_to_string x)
  | None => VNull
  end.

(** The value [pg] binds for a body field. *)
Definition param_of (v : jval) : value :=
  match v with
  | JUndef | JNull => VNull
  | JBool b => VBool b
  | JNum n => num_value (Some n)
  | JStr s => VStr s
  end.

Definition value_truthy (v : value) : bool :=
  match v with
  | VNull => false
  | VInt n => negb (n =? 0)
  | VStr s => negb (String.eqb s "")
  | VBool b => b
  end.

(** A bound parameter compared with an integer column: [NULL] matches
    nothing; text that is not an integer literal is an SQL error. *)
Inductive pgint : Type := PgNull | PgInt (n : Z) | PgBad.

Definition pg_int (v : value) : pgint :=
  match v with
  | VNull => PgNull
  | VInt n => PgInt n
  | VBool _ => PgBad
  | VStr s => match parse_int (list_ascii_of_string (trim s)) with
              | Some n => PgInt n
              | None => PgBad
              end
  end.


(** A statement whose parameter is the truthy number [n], compared with
    integer columns: PostgreSQL reads the text [String(n)] as the integer
    [k] the statement runs with, and text that is not an integer literal
    ([1.5], [1e+21], [Infinity]) is an SQL error. *)
Definition with_int {A} (n : jsnum) (f : Z -> store -> option A) (st : store) : option A :=
  match pg_int (num_value n) with
  | PgInt k => f k st
  | _ => None
  end.

End Pg.
Import Pg.

(** ** Forum: POST /api/forum/posts, POST /api/forum/posts/:id/comments,
       GET /api/forum/posts *)

Module Forum.



(** Which column of Comment names the author, and with which value. *)
Inductive author_kind : Type := ByCompany | ByUser.

Definition author_column (companyIdColumn userIdColumn authorIdColumn : option string)
  : M (option (string * author_kind)) :=
  match companyIdColumn, userIdColumn, authorIdColumn with
  | Some c, _, _ => mret (Some (c, ByCompany))
  | None, Some c, _ => mret (Some (c, ByUser))
  | None, None, Some c =>
      target <- getForeignKeyTarget TComment c;;
      match target with
      | Some t => if String.eqb (lower t) "user" then mret (Some (c, ByUser))
                  else mret (Some (c, ByCompany))
      | None => mret (Some (c, ByCompany))
      end
  | None, None, None => mret None
  end.


End Forum.

Definition fx_company (id : Z) (name : string) : row := [("id", VInt id); ("name", VStr name)].

(** Two companies, a user of company 2, one post of company 1. *)
Definition fx_forum_rows (t : tbl) : list row :=
  match t with
  | TCompany => [fx_company 1 "Acme"; fx_company 2 "Globex"]
  | TUser => [[("id", VInt 5); ("email", VStr "u@g.io"); ("companyId", VInt 2)]]
  | TPost => [[("id", VInt 1); ("title", VStr "Hello"); ("authorId", VInt 1); ("createdAt", VInt 0)]]
  | _ => []
  end.

Definition fx_forum_cols (comment_cols : list string) (t : tbl) : list string :=
  match t with
  | TCompany => ["id"; "name"]
  | TUser => ["id"; "email"; "password"; "role"; "companyId"]
  | TPost => ["id"; "title"; "content"; "authorId"; "createdAt"]
  | TComment => comment_cols
  | TMessage => ["id"; "senderCompanyId"; "receiverCompanyId"; "content"; "createdAt"]
  end.

Definition fx_forum_db (comment_cols : list string) (fks : list (tbl * string * tbl)) : store :=
  mkStore fx_forum_rows (fx_forum_cols comment_cols) fks [] (fun _ => 10) 100.

(** The forum store whose Company table also has an [industry] column. *)
Definition fx_company_db : store :=
  mkStore fx_forum_rows
    (fun t => match t with
              | TCompany => ["id"; "name"; "industry"]
              | _ => fx_forum_cols [] t
              end) [] [] (fun _ => 10) 100.



(** Every row of [t] holds an integer or NULL in column [c]. *)
Definition int_valued (db : store) (t : tbl) (c : string) : bool :=
  forallb (fun r => match get r c with VNull | VInt _ => true | _ => false end) (s_rows db t).

(** ** Admin company handlers *)

Module Admin.

(** [String(v)] for the values a JSON body carries. *)
Definition js_string (v : jval) : string :=
  match v with
  | JUndef => "undefined"
  | JNull => "null"
  | JBool b => if b then "true" else "false"
  | JNum n => num_to_string n
  | JStr s => s
  end.

(** [companyColumns.has(k)] *)
Definition has (cols : list string) (k : string) : bool := existsb (String.eqb k) cols.

(** [value === '' ? null : value] *)
Definition normalize (v : jval) : value :=
  match v with
  | JStr s => if String.eqb s "" then VNull else VStr s
  | _ => param_of v
  end.

(** The keys of [fields] after [name], in [Object.entries] order. *)
Definition optional_fields : list string :=
  ["industry"; "location"; "website"; "email"; "phone"; "status"; "description"].

(** The [updatedAt] / [updated_at] column set to [new Date()], if any. *)
Definition updated_at_column (cols : list string) : list string :=
  if has cols "updatedAt" then ["updatedAt"]
  else if has cols "updated_at" then ["updated_at"] else [].

(** [UPDATE t SET sets, defaults = NOW() WHERE p RETURNING *] *)
Fixpoint set_field (r : row) (c : string) (v : value) : row :=
  match r with
  | [] => [(c, v)]
  | (c', v') :: r' => if String.eqb c' c then (c', v) :: r' else (c', v') :: set_field r' c v
  end.

Definition update (t : tbl) (sets : list (string * value)) (defaults : list string)
  (p : row -> bool) (st : store) : option (store * list row) :=
  let kvs := (sets ++ map (fun c => (c, VInt (s_now st))) defaults)%list in
  let upd r := fold_left (fun r kv => set_field r (fst kv) (snd kv)) kvs r in
  let rows' := map (fun r => if p r then upd r else r) (s_rows st t) in
  let changed := map upd (filter p (s_rows st t)) in
  if has_cols st t (map fst kvs) && forallb (fk_ok st t) changed then
    Some (set_rows st t rows', changed)
  else None.

(** The [Role] enum labels: [lower(t.typname) = lower($1)]. *)
Definition enum_labels (st : store) (name : string) : list string :=
  flat_map (fun e => if String.eqb (lower (fst e)) (lower name) then snd e else [])
           (s_enums st).

(** [SELECT typname FROM pg_type WHERE typname = 'Role' OR typname = 'role' LIMIT 1] *)
Definition role_type (st : store) : option string :=
  match find (fun e => (String.eqb (fst e) "Role" || String.eqb (fst e) "role")%bool)
             (s_enums st) with
  | Some (n, _) => Some n
  | None => None
  end.

(** [/^[A-Za-z0-9_]+$/.test(s)] *)
Definition ident_char (c : ascii) : bool :=
  let n := nat_of_ascii c in
  (Nat.leb 48 n && Nat.leb n 57 || Nat.leb 65 n && Nat.leb n 90 ||
   Nat.leb 97 n && Nat.leb n 122 || Nat.eqb n 95)%bool.

Definition ident_ok (s : string) : bool :=
  match list_ascii_of_string s with
  | [] => false
  | l => forallb ident_char l
  end.

(** [ALTER TYPE "n" ADD VALUE IF NOT EXISTS 'company'] *)
Definition add_enum_value (n v : string) (st : store) : option (store * unit) :=
  Some ({| s_rows := s_rows st; s_cols := s_cols st; s_fks := s_fks st;
           s_enums := map (fun e => if String.eqb (fst e) n && negb (existsb (String.eqb v) (snd e))
                                    then (fst e, (snd e ++ [v])%list) else e)%bool (s_enums st);
           s_serial := s_serial st; s_now := s_now st |}, tt).

(** [Role enum does not include "company" and could not be updated
    automatically.] *)
Definition role_enum_message : string :=
  "Role enum does not include " ++ String (ascii_of_nat 34) "company" ++
  String (ascii_of_nat 34) " and could not be updated automatically.".

(** The first label equal to ['company'] once lowercased. *)
Definition company_label (labels : list string) : option string :=
  find (fun l => String.eqb (lower l) "company") labels.

Section Handlers.
Variable bcrypt_hash : string -> string.

(** POST /api/admin/companies *)
Definition create_company (b : body) : M response :=
  match field b "name" with
  | JStr name0 =>
    if String.eqb name0 "" then mret (fail_with 400 "name is required.") else
    mtry
      (q_begin;;;
       companyColumns <- getTableColumns TCompany;;
       let values := (("name", VStr (trim name0))
                      :: flat_map (fun key =>
                           if has companyColumns key then
                             match field b key with
                             | JUndef => []
                             | v => [(key, normalize v)]
                             end
                           else []) optional_fields)%list in
       company <- client_query (StInsert TCompany)
                    (insert TCompany values (updated_at_column companyColumns));;
       if (truthy (field b "email") && truthy (field b "password"))%bool then
         userColumns <- getTableColumns TUser;;
         let canCreateUser := forallb (has userColumns) ["email"; "password"; "role"; "companyId"] in
         if canCreateUser then
           let email := js_string (field b "email") in
           (* the part after the role is settled *)
           let create_user (roleValue : string) : M response :=
             existingUser <- client_read (StSelect TUser)
                               (select TUser ["email"] ["id"]
                                  (fun r => match get r "email" with
                                            | VStr e => String.eqb (lower e) (lower email)
                                            | _ => false end));;
             match existingUser with
             | _ :: _ => q_rollback;;; mret (fail_with 400 "Email already exists.")
             | [] =>
               let hashedPassword := bcrypt_hash (js_string (field b "password")) in
               _ <- client_query (StInsert TUser)
                      (insert TUser [("email", VStr email); ("password", VStr hashedPassword);
                                     ("role", VStr roleValue); ("companyId", get company "id")]
                              (updated_at_column userColumns));;
               q_commit;;; mret (ok (json_of_row company))
             end in
           enumValues <- client_read StCatalog (fun st => Some (enum_labels st "Role"));;
           match enumValues with
           | [] => create_user "company"
           | _ :: _ =>
             match company_label enumValues with
             | Some l => create_user l
             | None =>
               typeName <- client_read StCatalog (fun st => Some (role_type st));;
               match typeName with
               | Some tn =>
                 if ident_ok tn then
                   client_query StAlterType (add_enum_value tn "company");;;
                   refreshed <- client_read StCatalog (fun st => Some (enum_labels st tn));;
                   create_user (match company_label refreshed with
                                | Some l => l | None => "company" end)
                 else q_rollback;;; mret (fail_with 400 role_enum_message)
               | None => q_rollback;;; mret (fail_with 400 role_enum_message)
               end
             end
           end
         else q_commit;;; mret (ok (json_of_row company))
       else q_commit;;; mret (ok (json_of_row company)))
      (fun e => q_rollback;;; mret (fail_with 500 e))
  | _ => mret (fail_with 400 "name is required.")
  end.

End Handlers.

(** PUT /api/admin/companies/:id; [companyId] is [Number(req.params.id)]. *)
Definition update_company (companyId : jsnum) (b : body) : M response :=
  if negb (num_truthy companyId) then mret (fail_with 400 "Invalid company id.") else
    mtry
      (companyColumns <- getTableColumns TCompany;;
       let setFragments :=
         flat_map (fun key =>
           if has companyColumns key && has_own b key then [(key, normalize (field b key))]
           else [])%bool ("name" :: optional_fields) in
       match setFragments with
       | [] => mret (fail_with 400 "No fields to update.")
       | _ :: _ =>
         updateResult <- pool_query (with_int companyId (fun k =>
                           update TCompany setFragments (updated_at_column companyColumns)
                                  (fun r => is_int (get r "id") k)));;
         match updateResult with
         | [] => mret (fail_with 404 "Company not found.")
         | r :: _ => mret (ok (json_of_row r))
         end
       end)
      (fun e => mret (fail_with 500 e)).

(** [DELETE FROM t WHERE col IN (SELECT id FROM t2 WHERE col2 = $1)] *)
Definition delete_in (t : tbl) (col : string) (t2 : tbl) (col2 : string) (k : Z)
  (st : store) : option (store * list row) :=
  if has_cols st t2 ["id"; col2] then
    delete t [col] (fun r => existsb (fun s => is_int (get s col2) k &&
                                               value_eqb (get r col) (get s "id") &&
                                               negb (value_eqb (get r col) VNull))%bool
                                     (s_rows st t2)) st
  else None.

(** DELETE /api/admin/companies/:id *)
Definition delete_company (companyId : jsnum) : M response :=
  if negb (num_truthy companyId) then mret (fail_with 400 "Invalid company id.") else
    mtry
      (q_begin;;;
       userColumns <- getTableColumns TUser;;
       postColumns <- getTableColumns TPost;;
       commentColumns <- getTableColumns TComment;;
       let userCompanyColumn := resolveColumn userColumns ["companyId"; "company_id"] in
       let postAuthorColumn := resolveColumn postColumns ["authorId"; "author_id"] in
       let commentPostColumn := resolveColumn commentColumns ["postId"; "post_id"] in
       let commentCompanyColumn := resolveColumn commentColumns ["companyId"; "company_id"] in
       let commentUserColumn := resolveColumn commentColumns ["userId"; "user_id"] in
       let commentAuthorColumn := resolveColumn commentColumns ["authorId"; "author_id"] in
       _ <- client_query (StDelete TMessage)
              (with_int companyId (fun k => delete TMessage ["senderCompanyId"; "receiverCompanyId"]
                 (fun r => is_int (get r "senderCompanyId") k || is_int (get r "receiverCompanyId") k)%bool));;
       _ <- match commentCompanyColumn with
            | Some cc => client_query (StDelete TComment) (with_int companyId (fun k => delete TComment [cc] (fun r => is_int (get r cc) k)))
            | None => mret []
            end;;
       _ <- match commentAuthorColumn with
            | Some ca => client_query (StDelete TComment) (with_int companyId (fun k => delete TComment [ca] (fun r => is_int (get r ca) k)))
            | None => mret []
            end;;
       _ <- match commentUserColumn, userCompanyColumn with
            | Some cu, Some uc => client_query (StDelete TComment) (with_int companyId (delete_in TComment cu TUser uc))
            | _, _ => mret []
            end;;
       _ <- match commentPostColumn, postAuthorColumn with
            | Some cp, Some pa => client_query (StDelete TComment) (with_int companyId (delete_in TComment cp TPost pa))
            | _, _ => mret []
            end;;
       _ <- match postAuthorColumn with
            | Some pa => client_query (StDelete TPost) (with_int companyId (fun k => delete TPost [pa] (fun r => is_int (get r pa) k)))
            | None => mret []
            end;;
       _ <- match userCompanyColumn with
            | Some uc => client_query (StDelete TUser) (with_int companyId (fun k => delete TUser [uc] (fun r => is_int (get r uc) k)))
            | None => mret []
            end;;
       deleteResult <- client_query (StDelete TCompany)
                         (with_int companyId (fun k => delete TCompany ["id"] (fun r => is_int (get r "id") k)));;
       match deleteResult with
       | [] => q_rollback;;; mret (fail_with 404 "Company not found.")
       | _ :: _ => q_commit;;; mret (ok (JsObj [("id", json_of_value (num_value companyId))]))
       end)
      (fun e => q_rollback;;; mret (fail_with 500 e)).

End Admin.

(** A statement inside the open transaction: the committed store is
    untouched and the transaction stays open, whatever the outcome. *)
Definition tx_step {A} (db : store) (m : M A) : Prop :=
  forall c, c_db c = db -> c_work c <> None ->
    c_db (snd (m c)) = db /\ c_work (snd (m c)) <> None.

(** The rest of a transactional handler: it ends with the transaction
    closed, and only a 200 answer may have changed the committed store; a
    thrown error leaves the committed store as it was. *)
Definition tx_end (db : store) (m : M response) : Prop :=
  forall c, c_db c = db -> c_work c <> None ->
    match m c with
    | (Ret r, c') => c_work c' = None /\ (status r <> 200 -> c_db c' = db)
    | (Throw _, c') => c_db c' = db
    end.

(** The third statement of the delete (the first comment cleanup) fails. *)
Definition fx_failing_conn : conn :=
  mkConn (fx_forum_db ["id"; "postId"; "companyId"; "content"] []) None
         [false; false; false; false; false; true] [].

(** A row deleted by [DELETE ... WHERE col = k] for a resolved column, if any. *)
Definition hit (o : option string) (k : Z) (x : row) : bool :=
  match o with Some c => is_int (get x c) k | None => false end.

(** A row deleted by [DELETE ... WHERE col IN (SELECT id FROM t2 WHERE col2 = k)]. *)
Definition hit_in (o1 o2 : option string) (rows2 : list row) (k : Z) (x : row) : bool :=
  match o1, o2 with
  | Some c, Some c2 => existsb (fun s => is_int (get s c2) k && value_eqb (get x c) (get s "id") &&
                                         negb (value_eqb (get x c) VNull))%bool rows2
  | _, _ => false
  end.

(** Dependency order of the cleanup: messages, comments, posts, users, company. *)
Definition del_rank (t : tbl) : Z :=
  match t with TMessage => 0 | TComment => 1 | TPost => 2 | TUser => 3 | TCompany => 4 end.

(** The tables of the [DELETE] statements of a statement log, in order. *)
Definition deleted_tables (l : list stmt) : list tbl :=
  flat_map (fun s => match s with StDelete t => [t] | _ => [] end) l.

Fixpoint rank_sorted (l : list tbl) : bool :=
  match l with
  | a :: ((b :: _) as l') => (del_rank a <=? del_rank b) && rank_sorted l'
  | _ => true
  end.

(** A user of company [k]: its company column holds [k]. *)
Definition user_of_company (db : store) (k : Z) (u : row) : bool :=
  hit (resolveColumn (s_cols db TUser) ["companyId"; "company_id"]) k u.

(** A post of company [k]: its author column holds [k]. *)
Definition post_of_company (db : store) (k : Z) (p : row) : bool :=
  hit (resolveColumn (s_cols db TPost) ["authorId"; "author_id"]) k p.

(** The author of a comment, as the comment handler resolves its column. *)
Definition comment_author (db : store) (x : row) : option (Forum.author_kind * value) :=
  match fst (Forum.author_column (resolveColumn (s_cols db TComment) ["companyId"; "company_id"])
                                 (resolveColumn (s_cols db TComment) ["userId"; "user_id"])
                                 (resolveColumn (s_cols db TComment) ["authorId"; "author_id"])
                                 (conn_of db)) with
  | Ret (Some (col, kind)) => Some (kind, get x col)
  | _ => None
  end.

(** The forum fixture with a user-linked Comment table. *)
Definition fx_delete_db : store :=
  fx_forum_db ["id"; "postId"; "userId"; "content"] [(TComment, "userId", TUser)].

(** Steps inside the transaction keep an invariant [P] of the working store. *)
Definition keeps {A} (P : store -> Prop) (m : M A) : Prop :=
  forall c w, c_work c = Some w -> P w ->
    match m c with
    | (Ret _, c') => exists w', c_work c' = Some w' /\ P w'
    | (Throw _, _) => True
    end.

(** The rest of a handler: a 200 answer satisfies [Q] and commits a store with [P]. *)
Definition ends_with (P : store -> Prop) (Q : response -> Prop) (m : M response) : Prop :=
  forall c w, c_work c = Some w -> P w ->
    match m c with
    | (Ret r, c') => status r = 200 -> Q r /\ P (c_db c')
    | (Throw _, _) => True
    end.

(** The company row [x] is among the working store's Company rows. *)
Definition company_in (x : row) (w : store) : Prop := In x (s_rows w TCompany).

(** ** Listings and messages *)

Module Listing.

(** [a = b] in SQL: [NULL] equals nothing. *)
Definition sql_eq (a b : value) : bool :=
  match a, b with
  | VNull, _ | _, VNull => false
  | _, _ => value_eqb a b
  end.

(** [ORDER BY ... ASC] puts [NULL] last. *)
Definition nulls_last_le {K} (leb : K -> K -> bool) (a b : option K) : bool :=
  match a, b with
  | Some x, Some y => leb x y
  | _, None => true
  | None, Some _ => false
  end.

Definition created_key (r : row) : option Z :=
  match get r "createdAt" with VInt n => Some n | _ => None end.

Definition name_key (r : row) : option string :=
  match get r "name" with VStr s => Some s | _ => None end.

(** [ORDER BY "createdAt" ASC]; [DESC] is the converse, [NULL] first. *)
Definition created_le (a b : row) : bool := nulls_last_le Z.leb (created_key a) (created_key b).

(** [ORDER BY name ASC], in byte order. *)
Definition name_le (a b : row) : bool := nulls_last_le String.leb (name_key a) (name_key b).

(** [ORDER BY]: a stable insertion sort, one of the orders PostgreSQL may
    return when keys tie. *)
Fixpoint insert_by (le : row -> row -> bool) (x : row) (l : list row) : list row :=
  match l with
  | [] => [x]
  | y :: l' => if le x y then x :: l else y :: insert_by le x l'
  end.

Definition sort_by (le : row -> row -> bool) (l : list row) : list row :=
  fold_right (insert_by le) [] l.

(** A [SERIAL], [INTEGER] or [TEXT] column bound to a body field: text
    that is not an integer literal is an SQL error for an integer column. *)
Definition int_param (v : value) : option value :=
  match pg_int v with
  | PgBad => None
  | PgNull => Some VNull
  | PgInt n => Some (VInt n)
  end.

(** [INSERT INTO "Message" ("senderCompanyId", "receiverCompanyId", content)
    VALUES ($1, $2, $3)]; ["createdAt"] has [DEFAULT NOW()]. *)
Definition insert_message (s r content : value) (st : store) : option (store * row) :=
  match int_param s, int_param r with
  | Some s', Some r' =>
      insert TMessage [("senderCompanyId", s'); ("receiverCompanyId", r'); ("content", content)]
             ["createdAt"] st
  | _, _ => None
  end.

(** POST /api/messages; [pg] sends a number or a boolean as its text. *)
Definition send_message (b : body) : M response :=
  let senderCompanyId := field b "senderCompanyId" in
  let receiverCompanyId := field b "receiverCompanyId" in
  let content := field b "content" in
  if (negb (truthy senderCompanyId) || negb (truthy receiverCompanyId) || negb (truthy content))%bool
  then mret (fail_with 400 "senderCompanyId, receiverCompanyId and content are required.")
  else
    mtry
      (messageResult <- pool_query (insert_message (param_of senderCompanyId)
                                                   (param_of receiverCompanyId)
                                                   (VStr (Admin.js_string content)));;
       mret (ok (json_of_row (project ["id"; "content"; "createdAt"; "senderCompanyId";
                                       "receiverCompanyId"] messageResult))))
      (fun _ => mret (fail_with 500 "Server error.")).

Definition message_row (m cs cr : row) : row :=
  [("id", get m "id"); ("content", get m "content"); ("createdAt", get m "createdAt");
   ("senderCompanyId", get m "senderCompanyId"); ("receiverCompanyId", get m "receiverCompanyId");
   ("senderName", get cs "name"); ("receiverName", get cr "name")].

(** The SELECT of GET /api/messages: [Message] joined with its sender and
    its receiver [Company], for company [k]. *)
Definition messages_of (k : Z) (st : store) : option (list row) :=
  if (has_cols st TMessage ["id"; "content"; "createdAt"; "senderCompanyId"; "receiverCompanyId"] &&
      has_cols st TCompany ["id"; "name"])%bool then
    Some (sort_by created_le
      (flat_map (fun m =>
         flat_map (fun cs =>
           flat_map (fun cr =>
             if (sql_eq (get cs "id") (get m "senderCompanyId") &&
                 sql_eq (get cr "id") (get m "receiverCompanyId") &&
                 (is_int (get m "senderCompanyId") k || is_int (get m "receiverCompanyId") k))%bool
             then [message_row m cs cr] else [])
           (s_rows st TCompany))
         (s_rows st TCompany))
       (s_rows st TMessage)))
  else None.

(** GET /api/messages; [companyId] is [Number(req.query.companyId)]. *)
Definition list_messages (companyId : jsnum) : M response :=
  if negb (num_truthy companyId) then mret (fail_with 400 "companyId is required.") else
    mtry
      (messagesResult <- pool_read (with_int companyId messages_of);;
       mret (ok (JsArr (map json_of_row messagesResult))))
      (fun _ => mret (fail_with 500 "Server error.")).

(** [COUNT(cm.id)] over [LEFT JOIN "Comment" cm ON cm."postId" = p.id]. *)
Definition comment_count (st : store) (p : row) : Z :=
  Z.of_nat (length (filter (fun cm => sql_eq (get cm "postId") (get p "id") &&
                                      negb (value_eqb (get cm "id") VNull))%bool
                           (s_rows st TComment))).

Definition post_row (hasContent hasCategory : bool) (p c : row) (comments : Z) : row :=
  [("id", get p "id"); ("title", get p "title");
   ("content", if hasContent then get p "content" else get p "title");
   ("category", if hasCategory then get p "category" else VNull);
   ("createdAt", get p "createdAt"); ("company", get c "name"); ("companyId", get c "id");
   ("comments", VInt comments)].

(** [p."createdAt" DESC]. *)
Definition created_ge (a b : row) : bool := created_le b a.

(** The SELECT of GET /api/forum/posts.  [p.id] is the primary key: each
    group of the [GROUP BY] is one post with its company. *)
Definition posts_of (postColumns : list string) (st : store) : option (list row) :=
  let hasContent := Admin.has postColumns "content" in
  let hasCategory := Admin.has postColumns "category" in
  if (has_cols st TPost (["id"; "title"; "createdAt"; "authorId"] ++
                         (if hasContent then ["content"] else []) ++
                         (if hasCategory then ["category"] else [])) &&
      has_cols st TCompany ["id"; "name"] && has_cols st TComment ["id"; "postId"])%bool then
    Some (firstn 100 (sort_by created_ge
      (flat_map (fun p =>
         flat_map (fun c =>
           if sql_eq (get c "id") (get p "authorId")
           then [post_row hasContent hasCategory p c (comment_count st p)] else [])
         (s_rows st TCompany))
       (s_rows st TPost))))
  else None.

(** GET /api/forum/posts *)
Definition list_posts : M response :=
  mtry
    (postColumns <- getTableColumns TPost;;
     postsResult <- pool_read (posts_of postColumns);;
     mret (ok (JsArr (map json_of_row postsResult))))
    (fun _ => mret (fail_with 500 "Server error.")).

(** [COUNT(u.id)] over [LEFT JOIN "User" u ON u."companyId" = c.id]. *)
Definition employee_count (st : store) (c : row) : Z :=
  Z.of_nat (length (filter (fun u => sql_eq (get u "companyId") (get c "id") &&
                                     negb (value_eqb (get u "id") VNull))%bool
                           (s_rows st TUser))).

(** An optional column, or [NULL::text] when the table lacks it. *)
Definition company_row (companyColumns : list string) (c : row) (employees : Z) : row :=
  ([("id", get c "id"); ("name", get c "name")] ++
   map (fun f => (f, if Admin.has companyColumns f then get c f else VNull)) Admin.optional_fields ++
   [("employees", VInt employees)])%list.

(** The SELECT of GET /api/companies.  [c.id] is the primary key: each
    group of the [GROUP BY] is one company. *)
Definition companies_of (companyColumns : list string) (st : store) : option (list row) :=
  if (has_cols st TCompany (["id"; "name"] ++ filter (Admin.has companyColumns) Admin.optional_fields) &&
      has_cols st TUser ["id"; "companyId"])%bool then
    Some (sort_by name_le (map (fun c => company_row companyColumns c (employee_count st c))
                               (s_rows st TCompany)))
  else None.

(** GET /api/companies *)
Definition list_companies : M response :=
  mtry
    (companyColumns <- getTableColumns TCompany;;
     companiesResult <- pool_read (companies_of companyColumns);;
     mret (ok (JsArr (map json_of_row companiesResult))))
    (fun _ => mret (fail_with 500 "Server error.")).

End Listing.

(** ** Messages, posts and companies: invariants and fixtures *)

(** Every row of [t] has an integer id below the table's SERIAL counter. *)
Definition serial_fresh (st : store) (t : tbl) : bool :=
  forallb (fun r => match get r "id" with VInt n => n <? s_serial st t | _ => false end) (s_rows st t).

(** The forum fixture with the two foreign keys of [Message]. *)
Definition fx_msg_db : store :=
  fx_forum_db [] [(TMessage, "senderCompanyId", TCompany); (TMessage, "receiverCompanyId", TCompany)].

(** A message from company 1 to company 2. *)
Definition fx_msg_body : body :=
  [("senderCompanyId", JNum 1); ("receiverCompanyId", JStr "2"); ("content", JStr "hi")].

(** The answer to [fx_msg_body] on [fx_msg_db]. *)
Definition fx_msg_sent : response :=
  ok (JsObj [("id", JsInt 10); ("content", JsStr "hi"); ("createdAt", JsInt 100);
             ("senderCompanyId", JsInt 1); ("receiverCompanyId", JsInt 2)]).

(** The forum fixture with a [Comment] table. *)
Definition fx_posts_db : store := fx_forum_db ["id"; "postId"] [].

(** ** Identifier quoting *)

(** The double quote character. *)
Definition dquote : ascii := ascii_of_nat 34.

(** [String(value).replace(...)]: each double quote is written twice. *)
Fixpoint double_quotes (l : list ascii) : list ascii :=
  match l with
  | [] => []
  | c :: l' => if Ascii.eqb c dquote then dquote :: dquote :: double_quotes l'
               else c :: double_quotes l'
  end.

(** [quoteIdentifier(value)] for a string [value]. *)
Definition quoteIdentifier (value : string) : string :=
  string_of_list_ascii (dquote :: double_quotes (list_ascii_of_string value) ++ [dquote]).

(** How PostgreSQL's lexer reads the body of a quoted identifier: a doubled
    quote stands for one quote, a single quote ends the identifier.  It
    returns the identifier and the rest of the statement text. *)
Fixpoint pg_ident_body (l : list ascii) : option (list ascii * list ascii) :=
  match l with
  | [] => None
  | c :: l' =>
      if Ascii.eqb c dquote then
        match l' with
        | d :: l'' => if Ascii.eqb d dquote
                      then option_map (fun p => (dquote :: fst p, snd p)) (pg_ident_body l'')
                      else Some ([], l')
        | [] => Some ([], [])
        end
      else option_map (fun p => (c :: fst p, snd p)) (pg_ident_body l')
  end.

Definition pg_quoted_ident (l : list ascii) : option (list ascii * list ascii) :=
  match l with
  | c :: l' => if Ascii.eqb c dquote then pg_ident_body l' else None
  | [] => None
  end.

(** ** Start-up: ensureAdminCompany *)

(** [SELECT id FROM "Company" WHERE LOWER(name) = LOWER('Admin')] *)
Definition is_admin_name (r : row) : bool :=
  match get r "name" with VStr s => String.eqb (lower s) (lower "Admin") | _ => false end.

(** [ensureAdminCompany()]; [new Date()] is the store's clock. *)
Definition ensureAdminCompany : M unit :=
  companyColumns <- getTableColumns TCompany;;
  if negb (Admin.has companyColumns "name") then mret tt else
  existing <- pool_read (select TCompany ["name"] ["id"] is_admin_name);;
  match existing with
  | _ :: _ => mret tt
  | [] =>
    let hasUpdatedAt := Admin.has companyColumns "updatedAt" in
    let hasUpdatedAtSnake := Admin.has companyColumns "updated_at" in
    _ <- pool_query (fun st =>
           insert TCompany
             (("name", VStr "Admin") ::
              (if hasUpdatedAt then [("updatedAt", VInt (s_now st))]
               else if hasUpdatedAtSnake then [("updated_at", VInt (s_now st))] else []))
             [] st);;
    mret tt
  end.


(** [LEFT JOIN t ON t.id = v]: the matching rows, or one NULL-extended row. *)
Definition left_join (rows : list row) (v : value) : list (option row) :=
  match filter (fun r => Listing.sql_eq (get r "id") v) rows with
  | [] => [None]
  | l => map Some l
  end.

(** [ORDER BY id ASC] and [ORDER BY id DESC] ([NULL] last, then first). *)
Definition id_key (r : row) : option Z :=
  match get r "id" with VInt n => Some n | _ => None end.

Definition id_le (a b : row) : bool := Listing.nulls_last_le Z.leb (id_key a) (id_key b).

Definition id_ge (a b : row) : bool := id_le b a.

(** A row of GET /api/forum/posts/:id/comments. *)
Definition comment_row (createdAtColumn : option string) (cm : row) (co : option row) : row :=
  [("id", get cm "id"); ("content", get cm "content");
   ("createdAt", match createdAtColumn with Some c => get cm c | None => VNull end);
   ("company", match co with Some c => get c "name" | None => VNull end);
   ("companyId", match co with Some c => get c "id" | None => VNull end)].

(** The SELECT of GET /api/forum/posts/:id/comments: [pc] is the post
    column, [createdAtColumn] the creation column, [author] the join. *)
Definition comments_of (k : Z) (pc : string) (createdAtColumn : option string)
  (author : option (string * Forum.author_kind)) (st : store) : option (list row) :=
  let refs := (["id"; "content"; pc] ++
               match createdAtColumn with Some c => [c] | None => [] end ++
               match author with Some (a, _) => [a] | None => [] end)%list in
  let joinOk := match author with
                | None => true
                | Some (_, Forum.ByCompany) => has_cols st TCompany ["id"; "name"]
                | Some (_, Forum.ByUser) =>
                    (has_cols st TUser ["id"; "companyId"] && has_cols st TCompany ["id"; "name"])%bool
                end in
  let joined (cm : row) : list (option row) :=
    match author with
    | None => [None]
    | Some (a, Forum.ByCompany) => left_join (s_rows st TCompany) (get cm a)
    | Some (a, Forum.ByUser) =>
        flat_map (fun u => match u with
                           | Some u => left_join (s_rows st TCompany) (get u "companyId")
                           | None => [None] end)
                 (left_join (s_rows st TUser) (get cm a))
    end in
  if (has_cols st TComment refs && joinOk)%bool then
    Some (Listing.sort_by (match createdAtColumn with Some _ => Listing.created_le | None => id_le end)
      (flat_map (fun cm => map (comment_row createdAtColumn cm) (joined cm))
                (filter (fun cm => is_int (get cm pc) k) (s_rows st TComment))))
  else None.


(** The user of GET /api/profile: optional columns read as [NULL::text]. *)
Definition profile_user_row (userColumns : list string) (u : row) : row :=
  [("id", get u "id"); ("email", get u "email"); ("companyId", get u "companyId");
   ("name", if Admin.has userColumns "name" then get u "name" else VNull);
   ("phone", if Admin.has userColumns "phone" then get u "phone" else VNull);
   ("avatar", if Admin.has userColumns "avatar" then get u "avatar" else VNull)].

(** [SELECT ... FROM "User" u WHERE u.id = $1] *)
Definition profile_user_of (userColumns : list string) (k : Z) (st : store) : option (list row) :=
  if has_cols st TUser (["id"; "email"; "companyId"] ++
                        filter (Admin.has userColumns) ["name"; "phone"; "avatar"])%list then
    Some (map (profile_user_row userColumns) (filter (fun u => is_int (get u "id") k) (s_rows st TUser)))
  else None.

Definition profile_company_fields : list string :=
  ["description"; "website"; "location"; "phone"; "email"; "industry"; "status"].

Definition profile_company_row (companyColumns : list string) (c : row) : row :=
  ([("id", get c "id"); ("name", get c "name")] ++
   map (fun f => (f, if Admin.has companyColumns f then get c f else VNull)) profile_company_fields)%list.

(** [SELECT ... FROM "Company" c WHERE c.id = $1] *)
Definition profile_company_of (companyColumns : list string) (v : value) (st : store)
  : option (list row) :=
  if has_cols st TCompany (["id"; "name"] ++ filter (Admin.has companyColumns) profile_company_fields)%list
  then match pg_int v with
       | PgBad => None
       | PgNull => Some []
       | PgInt n => Some (map (profile_company_row companyColumns)
                              (filter (fun c => is_int (get c "id") n) (s_rows st TCompany)))
       end
  else None.

(** A row of GET /api/admin/users. *)
Definition admin_user_row (userColumns : list string) (u : row) (c : option row) : row :=
  [("id", get u "id"); ("email", get u "email"); ("role", get u "role");
   ("name", if Admin.has userColumns "name" then get u "name" else VNull);
   ("status", if Admin.has userColumns "status" then get u "status" else VNull);
   ("lastActive", if Admin.has userColumns "lastActive" then get u "lastActive" else VNull);
   ("company", match c with Some c => get c "name" | None => VNull end)].

(** The SELECT of GET /api/admin/users.  [u.id] is the primary key: each
    group of the [GROUP BY] is one user with its company. *)
Definition admin_users_of (userColumns : list string) (st : store) : option (list row) :=
  if (has_cols st TUser (["id"; "email"; "role"; "companyId"] ++
                         filter (Admin.has userColumns) ["name"; "status"; "lastActive"]) &&
      has_cols st TCompany ["id"; "name"])%bool then
    Some (Listing.sort_by id_ge
      (flat_map (fun u => map (admin_user_row userColumns u) (left_join (s_rows st TCompany) (get u "companyId")))
                (s_rows st TUser)))
  else None.

(** A row of [Comment] joined with its author [Company] and its [Post];
    [cm.id] is selected by GET /api/admin/messages, not by the summary. *)
Definition admin_comment_row (withId : bool) (cm co p : row) : row :=
  ((if withId then [("id", get cm "id")] else []) ++
   [("content", get cm "content"); ("createdAt", get cm "createdAt");
    ("company", get co "name"); ("post_title", get p "title")])%list.

(** [Comment] joined with its author [Company] and its [Post], newest
    first, [LIMIT n]. *)
Definition recent_comments_of (withId : bool) (n : nat) (st : store) : option (list row) :=
  if (has_cols st TComment ((if withId then ["id"] else []) ++
                            ["content"; "createdAt"; "authorId"; "postId"])%list &&
      has_cols st TCompany ["id"; "name"] && has_cols st TPost ["id"; "title"])%bool then
    Some (firstn n (Listing.sort_by Listing.created_ge
      (flat_map (fun cm =>
         flat_map (fun co =>
           flat_map (fun p =>
             if (Listing.sql_eq (get co "id") (get cm "authorId") &&
                 Listing.sql_eq (get p "id") (get cm "postId"))%bool
             then [admin_comment_row withId cm co p] else [])
           (s_rows st TPost))
         (s_rows st TCompany))
       (s_rows st TComment))))
  else None.

(** [messagesResult.rows.map(...)] in GET /api/admin/messages. *)
Definition admin_message_json (r : row) : json :=
  JsObj [("id", json_of_value (get r "id")); ("from", json_of_value (get r "company"));
         ("subject", json_of_value (get r "post_title"));
         ("createdAt", json_of_value (get r "createdAt"));
         ("preview", json_of_value (get r "content"))].

(** The first query of GET /api/admin/summary. *)
Definition summary_counts (st : store) : row :=
  [("users", VInt (Z.of_nat (length (s_rows st TUser))));
   ("companies", VInt (Z.of_nat (length (s_rows st TCompany))));
   ("posts", VInt (Z.of_nat (length (s_rows st TPost))));
   ("comments", VInt (Z.of_nat (length (s_rows st TComment))))].

(** The recent posts of GET /api/admin/summary, [LIMIT 4]. *)
Definition summary_posts_of (st : store) : option (list row) :=
  if (has_cols st TPost ["id"; "title"; "createdAt"; "authorId"] &&
      has_cols st TCompany ["id"; "name"])%bool then
    Some (firstn 4 (Listing.sort_by Listing.created_ge
      (flat_map (fun p =>
         flat_map (fun c =>
           if Listing.sql_eq (get c "id") (get p "authorId")
           then [[("id", get p "id"); ("title", get p "title"); ("createdAt", get p "createdAt");
                  ("company", get c "name")]] else [])
         (s_rows st TCompany))
       (s_rows st TPost))))
  else None.

(** A row of GET /api/admin/posts: optional columns read as [NULL::text],
    a missing [views] column as [0::int]. *)
Definition admin_post_row (hasCategory hasStatus hasViews : bool) (p c : row) (comments : Z) : row :=
  [("id", get p "id"); ("title", get p "title"); ("createdAt", get p "createdAt");
   ("category", if hasCategory then get p "category" else VNull);
   ("status", if hasStatus then get p "status" else VNull);
   ("views", if hasViews then get p "views" else VInt 0);
   ("company", get c "name"); ("comments", VInt comments)].

(** The SELECT of GET /api/admin/posts.  [p.id] is the primary key: each
    group of the [GROUP BY] is one post with its company. *)
Definition admin_posts_of (postColumns : list string) (st : store) : option (list row) :=
  let hasCategory := Admin.has postColumns "category" in
  let hasStatus := Admin.has postColumns "status" in
  let hasViews := Admin.has postColumns "views" in
  if (has_cols st TPost (["id"; "title"; "createdAt"; "authorId"] ++
                         filter (Admin.has postColumns) ["category"; "status"; "views"]) &&
      has_cols st TCompany ["id"; "name"] && has_cols st TComment ["id"; "postId"])%bool then
    Some (firstn 12 (Listing.sort_by Listing.created_ge
      (flat_map (fun p =>
         flat_map (fun c =>
           if Listing.sql_eq (get c "id") (get p "authorId")
           then [admin_post_row hasCategory hasStatus hasViews p c (Listing.comment_count st p)] else [])
         (s_rows st TCompany))
       (s_rows st TPost))))
  else None.

(** [MIN(u.email)] over a text column, in byte order: [NULL]s are
    skipped, and no value gives [NULL]. *)
Fixpoint min_text (vs : list value) : value :=
  match vs with
  | [] => VNull
  | v :: vs' =>
    match v, min_text vs' with
    | VStr s, VStr m => if String.leb s m then VStr s else VStr m
    | VStr s, _ => VStr s
    | _, m => m
    end
  end.

(** [MIN(u.email)] over [LEFT JOIN "User" u ON u."companyId" = c.id]. *)
Definition admin_email (st : store) (c : row) : value :=
  min_text (map (fun u => get u "email")
                (filter (fun u => Listing.sql_eq (get u "companyId") (get c "id")) (s_rows st TUser))).

Definition admin_company_fields : list string :=
  ["industry"; "location"; "status"; "website"; "email"; "phone"; "description"].

(** A row of GET /api/admin/companies. *)
Definition admin_company_row (companyColumns : list string) (c : row) (employees : Z) (admin : value) : row :=
  ([("id", get c "id"); ("name", get c "name")] ++
   map (fun f => (f, if Admin.has companyColumns f then get c f else VNull)) admin_company_fields ++
   [("employees", VInt employees); ("admin", admin)])%list.

(** The SELECT of GET /api/admin/companies.  [c.id] is the primary key:
    each group of the [GROUP BY] is one company. *)
Definition admin_companies_of (companyColumns : list string) (st : store) : option (list row) :=
  if (has_cols st TCompany (["id"; "name"] ++ filter (Admin.has companyColumns) admin_company_fields) &&
      has_cols st TUser ["id"; "companyId"; "email"])%bool then
    Some (Listing.sort_by Listing.name_le
      (map (fun c => admin_company_row companyColumns c (Listing.employee_count st c) (admin_email st c))
           (s_rows st TCompany)))
  else None.

(** The [userFields] of PUT /api/profile, in [Object.entries] order. *)
Definition profile_user_fields : list string := ["name"; "email"; "phone"; "avatar"].

(** The [companyFields] of PUT /api/profile, in [Object.entries] order. *)
Definition profile_company_update_fields : list string :=
  ["name"; "description"; "website"; "location"; "phone"; "email"; "industry"; "status"].

(** The [SET] fragments of PUT /api/profile: a key that is a column and an
    own property of the payload.  A payload is [None] when it is falsy; a
    truthy value that is not an object has no own property among the keys
    and reads as [Some []]. *)
Definition set_fragments (cols : list string) (payload : option body) (keys : list string)
  : list (string * value) :=
  let b := match payload with Some b => b | None => [] end in
  flat_map (fun key => if (Admin.has cols key && has_own b key)%bool
                       then [(key, Admin.normalize (field b key))] else []) keys.

(** [UPDATE t SET ... WHERE id = $n RETURNING returning]. *)
Definition update_by_id (t : tbl) (sets : list (string * value)) (defaults returning : list string)
  (param : value) (st : store) : option (store * list row) :=
  if has_cols st t returning then
    match pg_int param with
    | PgBad => None
    | PgNull => Admin.update t sets defaults (fun _ => false) st
    | PgInt n =>
      match Admin.update t sets defaults (fun r => is_int (get r "id") n) st with
      | Some (st', rows) => Some (st', map (project returning) rows)
      | None => None
      end
    end
  else None.

(** Every table keeps its row ids, and only [t1] and [t2] change. *)
Definition frame (t1 t2 : tbl) (st st' : store) : Prop :=
  (forall t, row_ids st' t = row_ids st t) /\
  (forall t, t <> t1 -> t <> t2 -> s_rows st' t = s_rows st t).
(** ** Further routes *)

Module Routes.

(** DELETE /api/forum/posts/:id; [postId] is [Number(req.params.id)].  The
    two statements run on the pool, outside any transaction. *)
Definition delete_post (postId : jsnum) : M response :=
  if negb (num_truthy postId) then mret (fail_with 400 "Invalid post id.") else
    mtry
      (_ <- pool_query (with_int postId (fun k =>
              delete TComment ["postId"] (fun r => is_int (get r "postId") k)));;
       deleteResult <- pool_query (with_int postId (fun k =>
                         delete TPost ["id"] (fun r => is_int (get r "id") k)));;
       match deleteResult with
       | [] => mret (fail_with 404 "Post not found.")
       | _ :: _ => mret (ok (JsObj [("id", json_of_value (num_value postId))]))
       end)
      (fun e => mret (fail_with 500 e)).


(** GET /api/forum/posts/:id/comments; [postId] is [Number(req.params.id)]. *)
Definition list_comments (postId : jsnum) : M response :=
  if negb (num_truthy postId) then mret (fail_with 400 "Invalid post id.") else
    mtry
      (commentColumns <- getTableColumns TComment;;
       let postIdColumn := resolveColumn commentColumns ["postId"; "post_id"] in
       let createdAtColumn := resolveColumn commentColumns ["createdAt"; "created_at"] in
       let companyIdColumn := resolveColumn commentColumns ["companyId"; "company_id"] in
       let userIdColumn := resolveColumn commentColumns ["userId"; "user_id"] in
       let authorIdColumn := resolveColumn commentColumns ["authorId"; "author_id"] in
       match postIdColumn with
       | None => mret (fail_with 500 "Comment schema is missing post reference.")
       | Some pc =>
         author <- Forum.author_column companyIdColumn userIdColumn authorIdColumn;;
         commentsResult <- pool_read (with_int postId (fun k => comments_of k pc createdAtColumn author));;
         mret (ok (JsArr (map json_of_row commentsResult)))
       end)
      (fun e => mret (fail_with 500 e)).

(** GET /api/profile; [userId] and [companyIdParam] are [Number] of the
    query parameters. *)
Definition get_profile (userId companyIdParam : jsnum) : M response :=
  if negb (num_truthy userId) then mret (fail_with 400 "userId is required.") else
    mtry
      (userColumns <- getTableColumns TUser;;
       userResult <- pool_read (with_int userId (profile_user_of userColumns));;
       match userResult with
       | [] => mret (fail_with 404 "User not found.")
       | user :: _ =>
         let resolvedCompanyId :=
           if num_truthy companyIdParam then num_value companyIdParam else get user "companyId" in
         company <- (if value_truthy resolvedCompanyId then
                       companyColumns <- getTableColumns TCompany;;
                       companyResult <- pool_read (profile_company_of companyColumns resolvedCompanyId);;
                       mret (match companyResult with c :: _ => json_of_row c | [] => JsNull end)
                     else mret JsNull);;
         mret (ok (JsObj [("user", json_of_row user); ("company", company)]))
       end)
      (fun _ => mret (fail_with 500 "Server error.")).

(** GET /api/admin/users *)
Definition admin_users : M response :=
  mtry
    (userColumns <- getTableColumns TUser;;
     usersResult <- pool_read (admin_users_of userColumns);;
     mret (ok (JsArr (map json_of_row usersResult))))
    (fun _ => mret (fail_with 500 "Server error.")).

(** GET /api/admin/messages *)
Definition admin_messages : M response :=
  mtry
    (messagesResult <- pool_read (recent_comments_of true 20);;
     mret (ok (JsArr (map admin_message_json messagesResult))))
    (fun _ => mret (fail_with 500 "Server error.")).

(** GET /api/admin/posts *)
Definition admin_posts : M response :=
  mtry
    (postColumns <- getTableColumns TPost;;
     postsResult <- pool_read (admin_posts_of postColumns);;
     mret (ok (JsArr (map json_of_row postsResult))))
    (fun _ => mret (fail_with 500 "Server error.")).

(** GET /api/admin/companies *)
Definition admin_companies : M response :=
  mtry
    (companyColumns <- getTableColumns TCompany;;
     companiesResult <- pool_read (admin_companies_of companyColumns);;
     mret (ok (JsArr (map json_of_row companiesResult))))
    (fun _ => mret (fail_with 500 "Server error.")).

(** PUT /api/profile: [userId] and [companyId] are the body's fields,
    [userPayload] and [companyPayload] its [user] and [company] objects. *)
Definition put_profile (userId companyId : jval) (userPayload companyPayload : option body)
  : M response :=
  if negb (truthy userId) then mret (fail_with 400 "userId is required.") else
  mtry
    (userColumns <- getTableColumns TUser;;
     let userSets := set_fragments userColumns userPayload profile_user_fields in
     updUser <- (match userSets with
                 | [] => mret None
                 | _ :: _ =>
                   userResult <- pool_query (update_by_id TUser userSets [] ["id"; "email"; "companyId"]
                                                          (param_of userId));;
                   mret (Some (match userResult with r :: _ => Some r | [] => None end))
                 end);;
     let resolvedCompanyId :=
       if truthy companyId then param_of companyId
       else match updUser with Some (Some u) => get u "companyId" | _ => VNull end in
     updCompany <- (if (value_truthy resolvedCompanyId &&
                         match companyPayload with Some _ => true | None => false end)%bool then
                      companyColumns <- getTableColumns TCompany;;
                      let companySets :=
                        set_fragments companyColumns companyPayload profile_company_update_fields in
                      match companySets with
                      | [] => mret None
                      | _ :: _ =>
                        companyResult <- pool_query (update_by_id TCompany companySets
                                                       (Admin.updated_at_column companyColumns)
                                                       ["id"; "name"] resolvedCompanyId);;
                        mret (Some (match companyResult with r :: _ => Some r | [] => None end))
                      end
                    else mret None);;
     mret (ok (JsObj ([("ok", JsBool true)] ++
                      match updUser with
                      | Some u => [("user", match u with Some r => json_of_row r | None => JsNull end)]
                      | None => []
                      end ++
                      match updCompany with
                      | Some c => [("company", match c with Some r => json_of_row r | None => JsNull end)]
                      | None => []
                      end)%list)))
    (fun e => mret (fail_with 500 e)).

Section Summary.
(** [new Date(createdAt).toLocaleString('fr-FR', ...)] *)
Variable toLocaleString : value -> string.

(** GET /api/admin/summary *)
Definition admin_summary : M response :=
  mtry
    (countsResult <- pool_read (fun st => Some [summary_counts st]);;
     postsResult <- pool_read summary_posts_of;;
     activityResult <- pool_read (recent_comments_of false 5);;
     let stats := match countsResult with r :: _ => json_of_row r | [] => JsNull end in
     let activity := map (fun r => JsObj [("title", json_of_value (get r "company"));
                                          ("note", json_of_value (get r "content"));
                                          ("time", JsStr (toLocaleString (get r "createdAt")));
                                          ("tag", json_of_value (get r "post_title"))]) activityResult in
     let recentPosts := map (fun r => JsObj [("id", json_of_value (get r "id"));
                                             ("title", json_of_value (get r "title"));
                                             ("company", json_of_value (get r "company"));
                                             ("createdAt", json_of_value (get r "createdAt"))]) postsResult in
     mret (ok (JsObj [("stats", stats); ("activity", JsArr activity); ("recentPosts", JsArr recentPosts)])))
    (fun _ => mret (fail_with 500 "Server error.")).
End Summary.

End Routes.

(** * Properties *)

#[local] Arguments String.eqb : simpl never.
#[local] Arguments resolveColumn : simpl never.
#[local] Arguments fk_target : simpl never.

Lemma tbl_eqb_refl (t : tbl) : tbl_eqb t t = true.
Proof. destruct t; reflexivity. Qed.

Lemma tbl_eqb_eq (a b : tbl) : tbl_eqb a b = true -> a = b.
Proof. destruct a, b; simpl; congruence. Qed.

Lemma value_eqb_eq (a b : value) : value_eqb a b = true <-> a = b.
Proof.
  destruct a, b; simpl; split; intro H; try discriminate;
    try (inversion H; subst); try reflexivity.
  - apply Z.eqb_eq in H; now subst.
  - apply Z.eqb_refl.
  - apply String.eqb_eq in H; now subst.
  - apply String.eqb_refl.
  - apply Bool.eqb_prop in H; now subst.
  - apply Bool.eqb_reflx.
Qed.

Lemma get_project (cs : list string) (r : row) (c : string) :
  In c cs -> get (project cs r) c = get r c.
Proof.
  unfold get, project. induction cs as [|c0 cs IH]; simpl; [tauto|].
  intros [<-|Hin].
  - now rewrite String.eqb_refl.
  - destruct (String.eqb c0 c) eqn:E.
    + apply String.eqb_eq in E; subst. reflexivity.
    + now apply IH.
Qed.

Lemma find_filter_head {A} (p : A -> bool) (l : list A) :
  find p l = hd_error (filter p l).
Proof. induction l as [|x l IH]; simpl; [reflexivity|]. destruct (p x); auto. Qed.

Lemma login_lookup (cmp : string -> string -> bool) (db : store) (b : body) :
  has_cols db TUser login_cols = true ->
  Auth.normalize_email (field b "email") <> "" ->
  truthy (field b "password") = true ->
  fst (Auth.login_handler cmp b (conn_of db)) =
  match first_user db (Auth.normalize_email (field b "email")) with
  | None => Ret (fail_with 401 "Invalid credentials.")
  | Some u =>
      if Auth.role_rejected (Auth.requested_role (field b "role")) (Auth.user_role (get u "role"))
      then Ret (fail_with 401 "Invalid role for this account.")
      else match field b "password", get u "password" with
           | JStr p, VStr h =>
               if cmp p h then Ret (ok (JsObj [("token", JsStr Auth.login_token); ("user", safe_user u)]))
               else Ret (fail_with 401 "Invalid credentials.")
           | _, _ => Ret (fail_with 500 "Server error.")
           end
  end.
Proof.
  intros Hcols Hne Hpw.
  unfold Auth.login_handler.
  apply String.eqb_neq in Hne. rewrite Hne, Hpw. simpl.
  unfold mtry, mbind, pool_read, select. simpl.
  unfold has_cols, login_cols in Hcols; simpl in Hcols.
  repeat rewrite andb_true_iff in Hcols.
  destruct Hcols as (H1 & H2 & H3 & H4 & H5 & _).
  unfold has_cols; simpl. rewrite H1, H2, H3, H4, H5. simpl. unfold first_user. rewrite find_filter_head.
  destruct (filter _ (s_rows db TUser)) as [|u rest]; simpl; [reflexivity|].
  pose proof (fun c => get_project login_cols u c) as Hg.
  unfold project, login_cols in Hg; simpl in Hg.
  rewrite (Hg "role"), (Hg "password"), (Hg "id"), (Hg "email"), (Hg "companyId")
    by tauto.
  destruct (Auth.role_rejected _ _); [reflexivity|].
  unfold Auth.compare_password.
  destruct (field b "password"); try reflexivity;
  destruct (get u "password"); try reflexivity; simpl.
  destruct (cmp s s0); reflexivity.
Qed.

(** C1 (amended).  For a login request whose email is a string that is
    non-empty once trimmed and lowercased and whose password is a non-empty
    string, against a User table with the queried columns: the handler takes
    the first user whose lowercased email equals the normalized email; with
    none it answers 401; if the request's role is a string that is non-empty
    once lowercased and differs from the user's lowercased role it answers
    401; otherwise, the stored hash being a string, it answers 401 when
    bcrypt rejects the password and otherwise 200 with the constant token
    and the record {id, email, lowercased role, companyId} of that user.  A
    role that is not a non-empty string is not checked. *)
Theorem login_outcomes (cmp : string -> string -> bool) (db : store) (b : body) (p : string) :
  has_cols db TUser login_cols = true ->
  Auth.normalize_email (field b "email") <> "" ->
  field b "password" = JStr p -> p <> "" ->
  let resp := fst (Auth.login_handler cmp b (conn_of db)) in
  let ne := Auth.normalize_email (field b "email") in
  (first_user db ne = None -> resp = Ret (fail_with 401 "Invalid credentials.")) /\
  (forall u, first_user db ne = Some u ->
     (exists r, field b "role" = JStr r /\ lower r <> "" /\
                Auth.user_role (get u "role") <> VStr (lower r)) ->
     resp = Ret (fail_with 401 "Invalid role for this account.")) /\
  (forall u h, first_user db ne = Some u ->
     (forall r, field b "role" = JStr r ->
                lower r = "" \/ Auth.user_role (get u "role") = VStr (lower r)) ->
     get u "password" = VStr h ->
     (cmp p h = false -> resp = Ret (fail_with 401 "Invalid credentials.")) /\
     (cmp p h = true ->
      resp = Ret (ok (JsObj [("token", JsStr Auth.login_token); ("user", safe_user u)])))).
Proof.
  intros Hcols Hne Hpw Hp resp ne.
  assert (Ht : truthy (field b "password") = true)
    by (rewrite Hpw; simpl; apply negb_true_iff, String.eqb_neq; exact Hp).
  unfold resp, ne; rewrite (login_lookup cmp db b Hcols Hne Ht).
  split; [|split].
  - intros E; now rewrite E.
  - intros u E (r & Hr & Hne' & Hdiff). rewrite E.
    unfold Auth.role_rejected, Auth.requested_role. rewrite Hr.
    replace (String.eqb (lower r) "") with false by (symmetry; now apply String.eqb_neq).
    destruct (value_eqb (Auth.user_role (get u "role")) (VStr (lower r))) eqn:V.
    + apply value_eqb_eq in V. contradiction.
    + reflexivity.
  - intros u h E Hrole Hh. rewrite E.
    replace (Auth.role_rejected (Auth.requested_role (field b "role"))
               (Auth.user_role (get u "role"))) with false.
    2:{ unfold Auth.role_rejected, Auth.requested_role.
        destruct (field b "role") eqn:R; try reflexivity.
        destruct (Hrole s eq_refl) as [Z|Z].
        - now rewrite Z.
        - rewrite Z. simpl. rewrite String.eqb_refl. simpl. now rewrite andb_false_r. }
    rewrite Hpw, Hh. split; intros C; now rewrite C.
Qed.

Lemma login_outcomes_witness :
  fst (Auth.login_handler fx_compare [("email", JStr " ANN@x.io "); ("password", JStr "pw")]
         (conn_of fx_login_db)) =
  Ret (ok (JsObj [("token", JsStr Auth.login_token); ("user", safe_user fx_ann)])).
Proof.
  destruct (login_outcomes fx_compare fx_login_db
              [("email", JStr " ANN@x.io "); ("password", JStr "pw")] "pw"
              eq_refl ltac:(discriminate) eq_refl ltac:(discriminate))
    as (_ & _ & H).
  apply (H fx_ann "h:pw"); [reflexivity | intros r Hr; discriminate Hr | reflexivity | reflexivity].
Defined.

(** C1 fails as stated: a request carrying a role other than the user's,
    the number 7 or the empty string, with the right password, gets the
    token instead of a 401. *)
Lemma login_role_not_checked :
  fst (Auth.login_handler fx_compare
         [("email", JStr "ann@x.io"); ("password", JStr "pw"); ("role", JNum 7)]
         (conn_of fx_login_db)) =
  Ret (ok (JsObj [("token", JsStr Auth.login_token); ("user", safe_user fx_ann)])) /\
  fst (Auth.login_handler fx_compare
         [("email", JStr "ann@x.io"); ("password", JStr "pw"); ("role", JStr "")]
         (conn_of fx_login_db)) =
  Ret (ok (JsObj [("token", JsStr Auth.login_token); ("user", safe_user fx_ann)])).
Proof. split; vm_compute; reflexivity. Qed.

(** Case on the innermost [match] of a hypothesis, then simplify. *)
Ltac inner_destruct :=
  match goal with
  | H : context [match ?x with _ => _ end] |- _ =>
      match x with
      | context [match ?y with _ => _ end] => let _ := type of y in fail 1
      | _ => destruct x eqn:?
      end
  end.

Ltac split_handler := repeat (inner_destruct; simpl in *).


Lemma login_ok_token (cmp : string -> string -> bool) (b : body) (c c' : conn) (r : response) :
  Auth.login_handler cmp b c = (Ret r, c') -> status r = 200 ->
  token_of (payload r) = Some (JsStr "dev-session-token").
Proof.
  unfold Auth.login_handler, mtry, mbind, mret, pool_read,
    Auth.compare_password, mthrow.
  intros H Hs.
  simpl in H. split_handler; inversion H; subst; simpl in *; try discriminate; reflexivity.
Qed.

(** C9.  Any two successful logins, of any users against any stores, return
    the same constant token ["dev-session-token"]. *)
Theorem login_token_static (cmp1 cmp2 : string -> string -> bool) (b1 b2 : body)
  (c1 c2 c1' c2' : conn) (r1 r2 : response) :
  Auth.login_handler cmp1 b1 c1 = (Ret r1, c1') -> status r1 = 200 ->
  Auth.login_handler cmp2 b2 c2 = (Ret r2, c2') -> status r2 = 200 ->
  token_of (payload r1) = Some (JsStr "dev-session-token") /\
  token_of (payload r1) = token_of (payload r2).
Proof.
  intros H1 S1 H2 S2.
  rewrite (login_ok_token cmp1 b1 c1 c1' r1 H1 S1), (login_ok_token cmp2 b2 c2 c2' r2 H2 S2).
  split; reflexivity.
Qed.


Lemma has_cols_cons st t c cs :
  has_cols st t (c :: cs) = (has_col st t c && has_cols st t cs)%bool.
Proof. reflexivity. Qed.




(** A handler's guard on a nonzero integer id passes, and the statements
    it runs read that id as the integer itself. *)
Ltac int_id H Hk :=
  cbn [num_truthy jn_truthy with_int num_value pg_int] in H;
  rewrite (proj2 (Z.eqb_neq _ 0) Hk) in H; cbn [negb] in H.

Ltac int_id_goal Hk :=
  cbn [num_truthy jn_truthy with_int num_value pg_int];
  rewrite (proj2 (Z.eqb_neq _ 0) Hk); cbn [negb].





















Lemma login_token_static_witness :
  let r := ok (JsObj [("token", JsStr Auth.login_token); ("user", safe_user fx_ann)]) in
  token_of (payload r) = Some (JsStr "dev-session-token") /\ token_of (payload r) = token_of (payload r).
Proof.
  intros r.
  apply (login_token_static fx_compare fx_compare
           [("email", JStr " ANN@x.io "); ("password", JStr "pw")]
           [("email", JStr "ann@x.io"); ("password", JStr "pw"); ("role", JStr "Admin")]
           (conn_of fx_login_db) (conn_of fx_login_db) (conn_of fx_login_db) (conn_of fx_login_db) r r);
    vm_compute; reflexivity.
Defined.
Create HintDb tx.

Lemma tx_step_client_query {A} db s (f : store -> option (store * A)) :
  tx_step db (client_query s f).
Proof.
  intros c Hd Hw. unfold client_query, next_fault. simpl.
  destruct (c_work c) as [w|] eqn:Ew; [|congruence].
  destruct (c_faults c) as [|b0 rest]; simpl; [|destruct b0; simpl]; rewrite ?Ew;
  try (split; [assumption|congruence]);
  (destruct (f w) as [[w' a]|]; simpl; split; congruence).
Qed.

Lemma tx_step_client_read {A} db s (f : store -> option A) : tx_step db (client_read s f).
Proof.
  intros c Hd Hw. unfold client_read, next_fault. simpl.
  destruct (c_faults c) as [|b0 rest]; simpl; [|destruct b0; simpl];
  try (split; [assumption|congruence]);
  (destruct (f _); simpl; split; congruence).
Qed.

Lemma tx_step_pool_read {A} db (f : store -> option A) : tx_step db (pool_read f).
Proof.
  intros c Hd Hw. unfold pool_read, next_fault.
  destruct (c_faults c) as [|b0 rest]; simpl; [|destruct b0; simpl];
  try (split; [assumption|congruence]);
  (destruct (f _); simpl; split; congruence).
Qed.

Lemma tx_step_getTableColumns db t : tx_step db (getTableColumns t).
Proof. apply tx_step_pool_read. Qed.

Lemma tx_step_mret {A} db (a : A) : tx_step db (mret a).
Proof. intros c Hd Hw. split; assumption. Qed.

#[local] Hint Resolve tx_step_client_query tx_step_client_read tx_step_getTableColumns
  tx_step_mret tx_step_pool_read : tx.

Lemma tx_bind {A} db (m : M A) (k : A -> M response) :
  tx_step db m -> (forall a, tx_end db (k a)) -> tx_end db (mbind m k).
Proof.
  intros Hm Hk c Hd Hw. unfold mbind.
  specialize (Hm c Hd Hw).
  destruct (m c) as [[a|e] c1]; simpl in Hm; destruct Hm as [Hd1 Hw1].
  - exact (Hk a c1 Hd1 Hw1).
  - exact Hd1.
Qed.

Lemma tx_end_rollback db r : tx_end db (q_rollback;;; mret r).
Proof. intros c Hd Hw. simpl. split; [reflexivity|intros _; exact Hd]. Qed.

Lemma tx_end_commit db r : status r = 200 -> tx_end db (q_commit;;; mret r).
Proof.
  intros Hs c Hd Hw. unfold mbind, q_commit, mret, next_fault.
  destruct (c_faults c) as [|[|] rest]; simpl; [| exact Hd |];
    (destruct (c_work c); [split; [reflexivity|intros H; contradiction] | contradiction]).
Qed.

Lemma tx_end_throw db e : tx_end db (mthrow e).
Proof. intros c Hd Hw. exact Hd. Qed.

Ltac tx_solve :=
  repeat first
    [ progress cbv zeta
    | apply tx_end_rollback
    | apply tx_end_commit; reflexivity
    | apply tx_end_throw
    | apply tx_bind; [ repeat (match goal with |- tx_step _ (match ?x with _ => _ end) => destruct x end);
                       solve [auto with tx] | intros ? ]
    | match goal with |- tx_end _ (match ?x with _ => _ end) => destruct x end
    | match goal with |- tx_end _ (if ?x then _ else _) => destruct x end ].

(** Running [BEGIN] and then a [tx_end] body, with [ROLLBACK] on error. *)
Lemma q_begin_run (c c1 : conn) (u : result unit) :
  q_begin c = (u, c1) -> c_db c1 = c_db c /\ (u = Ret tt -> c_work c1 <> None).
Proof.
  unfold q_begin, next_fault. simpl.
  destruct (c_faults c) as [|[|] rest]; simpl; intros E; injection E as <- <-; simpl;
    split; try reflexivity; try discriminate.
Qed.

Lemma tx_handler db (m : M response) (c c' : conn) (r : response) :
  tx_end db m -> c_db c = db ->
  mtry (q_begin;;; m) (fun e => q_rollback;;; mret (fail_with 500 e)) c = (Ret r, c') ->
  status r <> 200 -> c_db c' = db /\ c_work c' = None.
Proof.
  intros Hb <-. unfold mtry, mbind at 1.
  destruct (q_begin c) as [[[]|e] c1] eqn:Hq;
    apply q_begin_run in Hq as [Hd1 Hw1].
  - specialize (Hb c1 Hd1 (Hw1 eq_refl)).
    destruct (m c1) as [[a|e] c2].
    + intros E Hs; injection E as <- <-. destruct Hb as [Hw2 Hd2]. split; [exact (Hd2 Hs)|exact Hw2].
    + intros E _; injection E as <- <-. simpl. split; [exact Hb|reflexivity].
  - intros E _; injection E as <- <-. simpl. split; [exact Hd1|reflexivity].
Qed.

Lemma create_company_atomic hash db b c c' r :
  Admin.create_company hash b c = (Ret r, c') -> c_db c = db -> c_work c = None ->
  status r <> 200 -> c_db c' = db /\ c_work c' = None.
Proof.
  intros H Hd Hw Hs. unfold Admin.create_company in H.
  destruct (field b "name") as [| | | |name0];
    try (injection H as <- <-; split; assumption).
  destruct (String.eqb name0 ""); [injection H as <- <-; split; assumption|].
  eapply tx_handler; [|exact Hd|exact H|exact Hs].
  tx_solve.
Qed.

Lemma delete_company_atomic db k c c' r :
  Admin.delete_company k c = (Ret r, c') -> c_db c = db -> c_work c = None ->
  status r <> 200 -> c_db c' = db /\ c_work c' = None.
Proof.
  intros H Hd Hw Hs. unfold Admin.delete_company in H.
  destruct (negb (num_truthy k)); [injection H as <- <-; split; assumption|].
  eapply tx_handler; [|exact Hd|exact H|exact Hs].
  tx_solve.
Qed.

(** C6.  Creating and deleting a company run their writes in one
    transaction: for any sequence of statement failures, a request answered
    with anything but 200 leaves the committed store exactly as it was, and
    leaves no transaction open. *)
Theorem company_writes_atomic (hash : string -> string) (db : store) (b : body) (k : jsnum)
  (c c' : conn) (r : response) :
  c_db c = db -> c_work c = None -> status r <> 200 ->
  (Admin.create_company hash b c = (Ret r, c') -> c_db c' = db /\ c_work c' = None) /\
  (Admin.delete_company k c = (Ret r, c') -> c_db c' = db /\ c_work c' = None).
Proof.
  intros Hd Hw Hs. split; intros H.
  - exact (create_company_atomic hash db b c c' r H Hd Hw Hs).
  - exact (delete_company_atomic db k c c' r H Hd Hw Hs).
Qed.

Lemma company_writes_atomic_witness :
  c_db (snd (Admin.delete_company (Some 1) fx_failing_conn)) = c_db fx_failing_conn /\
  c_work (snd (Admin.delete_company (Some 1) fx_failing_conn)) = None.
Proof.
  apply (company_writes_atomic (fun s => s) (c_db fx_failing_conn) [] (Some 1) fx_failing_conn
           (snd (Admin.delete_company (Some 1) fx_failing_conn))
           (fail_with 500 "connection error") eq_refl eq_refl ltac:(discriminate)).
  vm_compute. reflexivity.
Defined.

Lemma bind_ret {A B} (m : M A) (k : A -> M B) c r c' :
  mbind m k c = (Ret r, c') -> exists a c1, m c = (Ret a, c1) /\ k a c1 = (Ret r, c').
Proof.
  unfold mbind. destruct (m c) as [[a|e] c1]; intros H; [eauto|discriminate].
Qed.

Lemma mtry_200 {m : M response} c r c' :
  mtry m (fun e => q_rollback;;; mret (fail_with 500 e)) c = (Ret r, c') -> status r = 200 ->
  m c = (Ret r, c').
Proof.
  unfold mtry. destruct (m c) as [[a|e] c1]; intros H Hs; [exact H|].
  injection H as <- _. discriminate.
Qed.

Lemma q_begin_ret c u c1 :
  q_begin c = (Ret u, c1) ->
  c_db c1 = c_db c /\ c_work c1 = Some (c_db c) /\ c_log c1 = (c_log c ++ [StBegin])%list.
Proof.
  unfold q_begin, next_fault. simpl.
  destruct (c_faults c) as [|[|] rest]; simpl; intros E; inversion E; subst; simpl; auto.
Qed.

Lemma pool_read_ret {A} (f : store -> option A) c a c1 :
  pool_read f c = (Ret a, c1) ->
  f (c_db c) = Some a /\ c_db c1 = c_db c /\ c_work c1 = c_work c /\ c_log c1 = c_log c.
Proof.
  unfold pool_read, next_fault.
  destruct (c_faults c) as [|[|] rest]; simpl; [| discriminate |];
    destruct (f (c_db c)); intros E; inversion E; subst; simpl; auto.
Qed.

Lemma client_query_ret {A} s (f : store -> option (store * A)) c a c1 w :
  client_query s f c = (Ret a, c1) -> c_work c = Some w ->
  exists w', f w = Some (w', a) /\ c_db c1 = c_db c /\ c_work c1 = Some w' /\
             c_log c1 = (c_log c ++ [s])%list.
Proof.
  intros H Hw. unfold client_query, next_fault in H. simpl in H.
  destruct (c_faults c) as [|[|] rest]; simpl in H; [| discriminate |]; rewrite Hw in H;
    destruct (f w) as [[w' a']|]; inversion H; subst; eauto.
Qed.

Lemma mret_ret {A} (x : A) c a c1 : mret x c = (Ret a, c1) -> a = x /\ c1 = c.
Proof. unfold mret. intros E; inversion E; auto. Qed.

Lemma q_commit_ret c u c1 w :
  q_commit c = (Ret u, c1) -> c_work c = Some w -> c_db c1 = w /\ c_log c1 = (c_log c ++ [StCommit])%list.
Proof.
  intros H Hw. unfold q_commit, next_fault in H. simpl in H.
  destruct (c_faults c) as [|[|] rest]; simpl in H; [| discriminate |]; rewrite Hw in H;
    inversion H; subst; simpl; auto.
Qed.

Lemma delete_spec t refs p w w' g :
  delete t refs p w = Some (w', g) ->
  (forall t', s_rows w' t' = if tbl_eqb t t' then filter (fun r => negb (p r)) (s_rows w t')
                             else s_rows w t') /\
  s_cols w' = s_cols w /\ s_fks w' = s_fks w /\ g = filter p (s_rows w t) /\
  dangling w' t g = false.
Proof.
  unfold delete. destruct (has_cols w t refs); [|discriminate].
  destruct (dangling _ t _) eqn:D; [discriminate|]. intros E; inversion E; subst.
  repeat split; try reflexivity; [|exact D].
  intros t'. simpl. destruct (tbl_eqb t t') eqn:Et; [|reflexivity].
  apply tbl_eqb_eq in Et. subst. reflexivity.
Qed.

Lemma delete_in_spec t col t2 col2 k w w' g :
  Admin.delete_in t col t2 col2 k w = Some (w', g) ->
  delete t [col] (fun r => existsb (fun s => is_int (get s col2) k &&
                                             value_eqb (get r col) (get s "id") &&
                                             negb (value_eqb (get r col) VNull))%bool
                                   (s_rows w t2)) w = Some (w', g).
Proof. unfold Admin.delete_in. destruct (has_cols w t2 _); [exact id|discriminate]. Qed.

Lemma dangling_fk st t gone t' col :
  dangling st t gone = false -> In (t', col, t) (s_fks st) ->
  forall x d, In x (s_rows st t') -> In d gone -> get d "id" <> VNull ->
  value_eqb (get x col) (get d "id") = false.
Proof.
  unfold dangling. intros D Hin x d Hx Hd Hn.
  destruct (value_eqb (get x col) (get d "id")) eqn:E; [|reflexivity].
  exfalso. apply Bool.not_true_iff_false in D. apply D.
  apply existsb_exists. exists (t', col, t). split; [exact Hin|].
  rewrite tbl_eqb_refl. simpl. apply existsb_exists. exists x. split; [exact Hx|].
  apply existsb_exists. exists d. split; [exact Hd|].
  destruct (get d "id"); [contradiction| exact E..].
Qed.

Lemma filter_true {A} (l : list A) : filter (fun _ => true) l = l.
Proof. induction l; simpl; congruence. Qed.

Lemma opt_delete_ret (T : tbl) (o : option string) (k : Z) c a c1 w :
  (match o with
   | Some col => client_query (StDelete T) (delete T [col] (fun r => is_int (get r col) k))
   | None => mret []
   end) c = (Ret a, c1) ->
  c_work c = Some w ->
  exists w', c_work c1 = Some w' /\ c_db c1 = c_db c /\ s_fks w' = s_fks w /\
    (forall t', s_rows w' t' = if tbl_eqb T t' then filter (fun r => negb (hit o k r)) (s_rows w t')
                               else s_rows w t') /\
    c_log c1 = (c_log c ++ match o with Some _ => [StDelete T] | None => [] end)%list /\
    (forall t' col x d, In (t', col, T) (s_fks w') -> In x (s_rows w' t') -> In d (s_rows w T) ->
       hit o k d = true -> get d "id" <> VNull -> value_eqb (get x col) (get d "id") = false).
Proof.
  intros H Hw. destruct o as [col|]; simpl in H.
  - eapply client_query_ret in H as (w' & Hdel & Hd & Hw' & Hl); [|exact Hw].
    apply delete_spec in Hdel as (R & _ & F & G & D). subst a.
    exists w'. repeat split; auto.
    intros t' col' x d Hf Hx Hd' Hh Hn. eapply dangling_fk; eauto.
    apply filter_In. split; assumption.
  - apply mret_ret in H as [-> ->]. exists w. repeat split; auto.
    + intros t'. destruct (tbl_eqb T t') eqn:E; [|reflexivity].
      apply tbl_eqb_eq in E. subst. simpl. symmetry. apply filter_true.
    + rewrite app_nil_r. reflexivity.
    + intros t' col x d _ _ _ Hh. discriminate Hh.
Qed.

Lemma opt_delete_in_ret (T T2 : tbl) (o1 o2 : option string) (k : Z) c a c1 w :
  (match o1, o2 with
   | Some col, Some col2 => client_query (StDelete T) (Admin.delete_in T col T2 col2 k)
   | _, _ => mret []
   end) c = (Ret a, c1) ->
  c_work c = Some w ->
  exists w', c_work c1 = Some w' /\ c_db c1 = c_db c /\ s_fks w' = s_fks w /\
    (forall t', s_rows w' t' =
       if tbl_eqb T t' then filter (fun r => negb (hit_in o1 o2 (s_rows w T2) k r)) (s_rows w t')
       else s_rows w t') /\
    c_log c1 = (c_log c ++ match o1, o2 with Some _, Some _ => [StDelete T] | _, _ => [] end)%list.
Proof.
  intros H Hw.
  assert (Hnone : mret [] c = (Ret a, c1) ->
    exists w', c_work c1 = Some w' /\ c_db c1 = c_db c /\ s_fks w' = s_fks w /\
      (forall t', s_rows w' t' = if tbl_eqb T t' then filter (fun _ => true) (s_rows w t')
                                 else s_rows w t') /\ c_log c1 = (c_log c ++ [])%list).
  { intros E. apply mret_ret in E as [-> ->]. exists w. repeat split; auto.
    - intros t'. destruct (tbl_eqb T t') eqn:E; [|reflexivity].
      apply tbl_eqb_eq in E. subst. symmetry. apply filter_true.
    - rewrite app_nil_r. reflexivity. }
  destruct o1 as [col|], o2 as [col2|]; simpl in H; try exact (Hnone H).
  eapply client_query_ret in H as (w' & Hdel & Hd & Hw' & Hl); [|exact Hw].
  apply delete_in_spec, delete_spec in Hdel as (R & _ & F & _ & _).
  exists w'. repeat split; auto.
Qed.

Lemma delete_company_chase db k c c' r :
  c_db c = db -> k <> 0 -> Admin.delete_company (Some k) c = (Ret r, c') -> status r = 200 ->
  (forall x, In x (s_rows (c_db c') TMessage) ->
     is_int (get x "senderCompanyId") k = false /\ is_int (get x "receiverCompanyId") k = false) /\
  (forall x, In x (s_rows (c_db c') TComment) ->
     hit (resolveColumn (s_cols db TComment) ["companyId"; "company_id"]) k x = false /\
     hit (resolveColumn (s_cols db TComment) ["authorId"; "author_id"]) k x = false /\
     hit_in (resolveColumn (s_cols db TComment) ["userId"; "user_id"])
            (resolveColumn (s_cols db TUser) ["companyId"; "company_id"]) (s_rows db TUser) k x = false /\
     hit_in (resolveColumn (s_cols db TComment) ["postId"; "post_id"])
            (resolveColumn (s_cols db TPost) ["authorId"; "author_id"]) (s_rows db TPost) k x = false /\
     (forall ca u, In (TComment, ca, TUser) (s_fks db) -> In u (s_rows db TUser) ->
        hit (resolveColumn (s_cols db TUser) ["companyId"; "company_id"]) k u = true ->
        get u "id" <> VNull -> value_eqb (get x ca) (get u "id") = false)) /\
  (forall x, In x (s_rows (c_db c') TPost) ->
     hit (resolveColumn (s_cols db TPost) ["authorId"; "author_id"]) k x = false) /\
  (forall x, In x (s_rows (c_db c') TUser) ->
     hit (resolveColumn (s_cols db TUser) ["companyId"; "company_id"]) k x = false) /\
  (forall x, In x (s_rows (c_db c') TCompany) -> is_int (get x "id") k = false) /\
  (exists l, c_log c' = (c_log c ++ l)%list /\
     hd_error (deleted_tables l) = Some TMessage /\
     last (deleted_tables l) TMessage = TCompany /\ rank_sorted (deleted_tables l) = true).
Proof.
  intros <- Hk H Hs. unfold Admin.delete_company in H. int_id H Hk.
  apply mtry_200 in H; [|exact Hs]. cbv zeta in H.
  apply bind_ret in H as (u0 & c0 & Hm & H). apply q_begin_ret in Hm as (Hd0 & Hw0 & Hl0).
  apply bind_ret in H as (a1 & c1 & Hm & H). unfold getTableColumns in Hm.
  apply pool_read_ret in Hm as (E & Hd1 & Hw1 & Hl1). injection E as <-.
  apply bind_ret in H as (a2 & c2 & Hm & H). unfold getTableColumns in Hm.
  apply pool_read_ret in Hm as (E & Hd2 & Hw2 & Hl2). injection E as <-.
  apply bind_ret in H as (a3 & c3 & Hm & H). unfold getTableColumns in Hm.
  apply pool_read_ret in Hm as (E & Hd3 & Hw3 & Hl3). injection E as <-.
  rewrite ?Hd2, ?Hd1, ?Hd0 in H.
  rewrite Hw2, Hw1, Hw0 in Hw3. rewrite Hd2, Hd1, Hd0 in Hd3.
  (* DELETE FROM "Message" *)
  apply bind_ret in H as (a4 & c4 & Hm & H).
  eapply client_query_ret in Hm as (w4 & Hdel & Hd4 & Hw4 & Hl4); [|exact Hw3].
  apply delete_spec in Hdel as (R4 & _ & F4 & _ & _).
  (* the comment deletions *)
  apply bind_ret in H as (a5 & c5 & Hm & H).
  eapply opt_delete_ret in Hm as (w5 & Hw5 & Hd5 & F5 & R5 & Hl5 & _); [|exact Hw4].
  apply bind_ret in H as (a6 & c6 & Hm & H).
  eapply opt_delete_ret in Hm as (w6 & Hw6 & Hd6 & F6 & R6 & Hl6 & _); [|exact Hw5].
  apply bind_ret in H as (a7 & c7 & Hm & H).
  eapply opt_delete_in_ret in Hm as (w7 & Hw7 & Hd7 & F7 & R7 & Hl7); [|exact Hw6].
  apply bind_ret in H as (a8 & c8 & Hm & H).
  eapply opt_delete_in_ret in Hm as (w8 & Hw8 & Hd8 & F8 & R8 & Hl8); [|exact Hw7].
  (* posts, users *)
  apply bind_ret in H as (a9 & c9 & Hm & H).
  eapply opt_delete_ret in Hm as (w9 & Hw9 & Hd9 & F9 & R9 & Hl9 & _); [|exact Hw8].
  apply bind_ret in H as (a10 & c10 & Hm & H).
  eapply opt_delete_ret in Hm as (w10 & Hw10 & Hd10 & F10 & R10 & Hl10 & FK10); [|exact Hw9].
  (* the company row *)
  apply bind_ret in H as (a11 & c11 & Hm & H).
  eapply client_query_ret in Hm as (w11 & Hdel & Hd11 & Hw11 & Hl11); [|exact Hw10].
  apply delete_spec in Hdel as (R11 & _ & F11 & _ & _).
  destruct a11 as [|g0 gs]; [unfold mbind, q_rollback, mret in H; injection H as <- _; discriminate Hs|].
  apply bind_ret in H as (u & cf & Hm & H).
  eapply q_commit_ret in Hm as [Hfin Hlog]; [|exact Hw11].
  apply mret_ret in H as [_ ->].
  rewrite Hfin.
  set (D := c_db c) in *.
  assert (EU : s_rows w6 TUser = s_rows D TUser) by (rewrite (R6 TUser), (R5 TUser), (R4 TUser); reflexivity).
  assert (EP : s_rows w7 TPost = s_rows D TPost) by (rewrite (R7 TPost), (R6 TPost), (R5 TPost), (R4 TPost); reflexivity).
  assert (EU9 : s_rows w9 TUser = s_rows D TUser) by (rewrite (R9 TUser), (R8 TUser), (R7 TUser), EU; reflexivity).
  assert (FK : s_fks w10 = s_fks D) by congruence.
  rewrite EU in R7. rewrite EP in R8.
  split; [|split; [|split; [|split; [|split]]]].
  - intros x Hx. rewrite (R11 TMessage), (R10 TMessage), (R9 TMessage), (R8 TMessage), (R7 TMessage),
      (R6 TMessage), (R5 TMessage), (R4 TMessage) in Hx. simpl in Hx.
    apply filter_In in Hx as [_ Hx]. apply negb_true_iff, orb_false_iff in Hx. exact Hx.
  - intros x Hx. assert (Hx10 : In x (s_rows w10 TComment)) by (rewrite (R11 TComment) in Hx; exact Hx).
    rewrite (R11 TComment), (R10 TComment), (R9 TComment), (R8 TComment), (R7 TComment),
      (R6 TComment), (R5 TComment), (R4 TComment) in Hx. simpl in Hx.
    apply filter_In in Hx as [Hx H8]. apply filter_In in Hx as [Hx H7].
    apply filter_In in Hx as [Hx H6]. apply filter_In in Hx as [_ H5].
    apply negb_true_iff in H5, H6, H7, H8.
    split; [exact H5|split; [exact H6|split; [exact H7|split; [exact H8|]]]].
    intros ca uu Hf Hu Hh Hn. apply (FK10 TComment ca x uu); [congruence|exact Hx10|congruence|exact Hh|exact Hn].
  - intros x Hx. rewrite (R11 TPost), (R10 TPost), (R9 TPost) in Hx. simpl in Hx.
    apply filter_In in Hx as [_ Hx]. apply negb_true_iff in Hx. exact Hx.
  - intros x Hx. rewrite (R11 TUser), (R10 TUser) in Hx. simpl in Hx.
    apply filter_In in Hx as [_ Hx]. apply negb_true_iff in Hx. exact Hx.
  - intros x Hx. rewrite (R11 TCompany) in Hx. simpl in Hx.
    apply filter_In in Hx as [_ Hx]. apply negb_true_iff in Hx. exact Hx.
  - eexists. split.
    + rewrite Hlog, Hl11, Hl10, Hl9, Hl8, Hl7, Hl6, Hl5, Hl4, Hl3, Hl2, Hl1, Hl0.
      rewrite <- !app_assoc. reflexivity.
    + destruct (resolveColumn (s_cols D TComment) ["companyId"; "company_id"]),
        (resolveColumn (s_cols D TComment) ["authorId"; "author_id"]),
        (resolveColumn (s_cols D TComment) ["userId"; "user_id"]),
        (resolveColumn (s_cols D TUser) ["companyId"; "company_id"]),
        (resolveColumn (s_cols D TComment) ["postId"; "post_id"]),
        (resolveColumn (s_cols D TPost) ["authorId"; "author_id"]);
        (split; [reflexivity|split; reflexivity]).
Qed.

Lemma fk_target_user db a t :
  fk_target db TComment a = Some t -> String.eqb (lower t) "user" = true ->
  In (TComment, a, TUser) (s_fks db).
Proof.
  unfold fk_target. destruct (find _ (s_fks db)) as [[[t0 c0] target]|] eqn:Ef; [|discriminate].
  intros E Hl. injection E as <-. apply find_some in Ef as [Hin Hp].
  apply andb_true_iff in Hp as [Ht Hc]. apply tbl_eqb_eq in Ht. apply String.eqb_eq in Hc. subst.
  destruct target; vm_compute in Hl; try discriminate Hl. exact Hin.
Qed.

(** C2. After [DELETE /api/admin/companies/:id] succeeds for a company id
    [k] (status 200), no Message remains with [k] as sender or receiver; no
    Comment remains whose author, resolved as the comment handler does it, is
    company [k] or a user of company [k]; no Post remains whose author column
    holds [k]; no User of company [k] remains; no Company row with id [k]
    remains. The [DELETE] statements of the transaction start with Message, end
    with Company, and follow the order messages, comments, posts, users,
    company. *)
Theorem delete_company_cleanup db k c c' r :
  c_db c = db -> k <> 0 -> Admin.delete_company (Some k) c = (Ret r, c') -> status r = 200 ->
  (forall x, In x (s_rows (c_db c') TMessage) ->
     is_int (get x "senderCompanyId") k = false /\ is_int (get x "receiverCompanyId") k = false) /\
  (forall x, In x (s_rows (c_db c') TComment) ->
     match comment_author db x with
     | Some (Forum.ByCompany, v) => is_int v k = false
     | Some (Forum.ByUser, v) =>
         forall u, In u (s_rows db TUser) -> user_of_company db k u = true ->
           (value_eqb v (get u "id") && negb (value_eqb v VNull))%bool = false
     | None => True
     end) /\
  (forall x, In x (s_rows (c_db c') TPost) -> post_of_company db k x = false) /\
  (forall x, In x (s_rows (c_db c') TUser) -> user_of_company db k x = false) /\
  (forall x, In x (s_rows (c_db c') TCompany) -> is_int (get x "id") k = false) /\
  (exists l, c_log c' = (c_log c ++ l)%list /\
     hd_error (deleted_tables l) = Some TMessage /\
     last (deleted_tables l) TMessage = TCompany /\ rank_sorted (deleted_tables l) = true).
Proof.
  intros Hd Hk H Hs.
  destruct (delete_company_chase db k c c' r Hd Hk H Hs) as (HM & HC & HP & HU & HK & HL).
  split; [exact HM|]. split; [|split; [exact HP|split; [exact HU|split; [exact HK|exact HL]]]].
  intros x Hx. destruct (HC x Hx) as (H1 & H2 & H3 & _ & H5). clear HM HC HP HU HK HL H.
  unfold comment_author, user_of_company.
  destruct (resolveColumn (s_cols db TComment) ["companyId"; "company_id"]) as [cc|] eqn:Ecc;
    [exact H1|].
  destruct (resolveColumn (s_cols db TComment) ["userId"; "user_id"]) as [cu|] eqn:Ecu.
  - simpl. intros u Hu Hh. unfold hit_in in H3.
    destruct (resolveColumn (s_cols db TUser) ["companyId"; "company_id"]) as [uc|]; [|discriminate Hh].
    destruct (value_eqb (get x cu) (get u "id") && negb (value_eqb (get x cu) VNull))%bool eqn:E;
      [|reflexivity].
    rewrite <- H3. symmetry. apply existsb_exists. exists u. split; [exact Hu|].
    simpl in Hh. rewrite Hh, <- andb_assoc, E. reflexivity.
  - destruct (resolveColumn (s_cols db TComment) ["authorId"; "author_id"]) as [ca|] eqn:Eca;
      [|exact I].
    unfold Forum.author_column, getForeignKeyTarget, pool_read, mbind, mret. simpl.
    destruct (fk_target db TComment ca) as [t|] eqn:Ef; [|exact H2].
    destruct (String.eqb (lower t) "user") eqn:El; [|exact H2].
    simpl. intros u Hu Hh.
    destruct (value_eqb (get u "id") VNull) eqn:En.
    + destruct (get u "id"); try discriminate En.
      destruct (get x ca); reflexivity.
    + rewrite (H5 ca u (fk_target_user db ca t Ef El) Hu Hh); [reflexivity|].
      intros E; rewrite E in En; discriminate En.
Qed.

Lemma delete_company_cleanup_witness :
  status (ok (JsObj [("id", JsInt 2)])) = 200 /\
  (forall x, In x (s_rows (c_db (snd (Admin.delete_company (Some 2) (conn_of fx_delete_db)))) TUser) ->
     user_of_company fx_delete_db 2 x = false).
Proof.
  split; [reflexivity|].
  apply (delete_company_cleanup fx_delete_db 2 (conn_of fx_delete_db)
           (snd (Admin.delete_company (Some 2) (conn_of fx_delete_db)))
           (ok (JsObj [("id", JsInt 2)])) eq_refl ltac:(lia)); [vm_compute; reflexivity | reflexivity].
Defined.

Lemma get_cons a v r c : get ((a, v) :: r) c = if String.eqb a c then v else get r c.
Proof. unfold get. simpl. destruct (String.eqb a c); reflexivity. Qed.

Lemma get_set_field r c v c' :
  get (Admin.set_field r c v) c' = if String.eqb c c' then v else get r c'.
Proof.
  induction r as [|[c0 v0] r IH]; simpl.
  - rewrite get_cons. destruct (String.eqb c c'); reflexivity.
  - destruct (String.eqb c0 c) eqn:E0.
    + apply String.eqb_eq in E0. subst c0. rewrite !get_cons.
      destruct (String.eqb c c'); reflexivity.
    + rewrite !get_cons, IH.
      destruct (String.eqb c0 c') eqn:E1; [|reflexivity].
      apply String.eqb_eq in E1. subst c'. rewrite String.eqb_sym, E0. reflexivity.
Qed.

Lemma find_app {A} (p : A -> bool) l1 l2 :
  find p (l1 ++ l2)%list = match find p l1 with Some x => Some x | None => find p l2 end.
Proof. induction l1 as [|a l1 IH]; simpl; [reflexivity|]. destruct (p a); [reflexivity|exact IH]. Qed.

Lemma find_none {A} (p : A -> bool) l : (forall x, In x l -> p x = false) -> find p l = None.
Proof.
  induction l as [|a l IH]; simpl; intros H; [reflexivity|].
  rewrite (H a (or_introl eq_refl)). apply IH. intros x Hx. exact (H x (or_intror Hx)).
Qed.

Lemma get_fold kvs r c :
  get (fold_left (fun r kv => Admin.set_field r (fst kv) (snd kv)) kvs r) c =
  match find (fun kv => String.eqb (fst kv) c) (rev kvs) with Some (_, v) => v | None => get r c end.
Proof.
  revert r. induction kvs as [|[a v] l IH]; intros r; simpl; [reflexivity|].
  rewrite IH, find_app, get_set_field. simpl.
  destruct (find _ (rev l)) as [[? ?]|]; [reflexivity|].
  destruct (String.eqb a c); reflexivity.
Qed.

Lemma get_app_find (l1 l2 : row) c :
  get (l1 ++ l2)%list c = match find (fun kv => String.eqb (fst kv) c) l1 with
                     | Some (_, v) => v | None => get l2 c end.
Proof. unfold get. rewrite find_app. destruct (find _ l1) as [[? ?]|]; reflexivity. Qed.

(** Finding key [f] among the entries produced per key, keys without duplicates. *)
Section PerKey.
Variable g : string -> list (string * value).
Hypothesis g_key : forall key kv, In kv (g key) -> fst kv = key.

Lemma find_flat_map_other f keys :
  ~ In f keys -> forall (l : list (string * value)), (forall kv, In kv l -> In kv (flat_map g keys)) ->
  find (fun kv => String.eqb (fst kv) f) l = None.
Proof.
  intros Hn l Hl. apply find_none. intros kv Hkv.
  apply Hl, in_flat_map in Hkv as (key & Hk & Hkv). apply g_key in Hkv.
  apply String.eqb_neq. congruence.
Qed.

Lemma find_flat_map f keys :
  NoDup keys -> In f keys ->
  find (fun kv => String.eqb (fst kv) f) (flat_map g keys) = find (fun kv => String.eqb (fst kv) f) (g f).
Proof.
  induction keys as [|a l IH]; intros Hd Hin; [destruct Hin|].
  inversion Hd as [|? ? Ha Hl]; subst. simpl. rewrite find_app.
  destruct (String.eqb_spec a f) as [->|Ne].
  - destruct (find _ (g f)); [reflexivity|].
    apply (find_flat_map_other f l Ha). exact (fun kv H => H).
  - destruct Hin as [|Hin]; [contradiction|].
    rewrite (find_none _ (g a)); [exact (IH Hl Hin)|].
    intros kv Hkv. apply g_key in Hkv. apply String.eqb_neq. congruence.
Qed.

Lemma find_rev_flat_map f keys :
  NoDup keys -> In f keys ->
  find (fun kv => String.eqb (fst kv) f) (rev (flat_map g keys)) =
  find (fun kv => String.eqb (fst kv) f) (rev (g f)).
Proof.
  induction keys as [|a l IH]; intros Hd Hin; [destruct Hin|].
  inversion Hd as [|? ? Ha Hl]; subst. simpl. rewrite rev_app_distr, find_app.
  destruct (String.eqb_spec a f) as [->|Ne].
  - rewrite (find_flat_map_other f l Ha (rev (flat_map g l))); [reflexivity|].
    intros kv H. apply in_rev. exact H.
  - destruct Hin as [|Hin]; [contradiction|].
    rewrite (IH Hl Hin). destruct (find _ (rev (g f))); [reflexivity|].
    apply find_none. intros kv Hkv. apply in_rev, g_key in Hkv. apply String.eqb_neq. congruence.
Qed.

End PerKey.

Lemma handled_nodup : NoDup ("name" :: Admin.optional_fields).
Proof.
  repeat constructor; simpl; intros H; repeat destruct H as [H|H]; try discriminate H; exact H.
Qed.

Lemma optional_nodup : NoDup Admin.optional_fields.
Proof. pose proof handled_nodup as H. inversion H; assumption. Qed.

Lemma flat_map_nil {A B} (g : A -> list B) l : (forall x, In x l -> g x = []) -> flat_map g l = [].
Proof.
  induction l as [|a l IH]; simpl; intros H; [reflexivity|].
  rewrite (H a (or_introl eq_refl)). apply IH. intros x Hx. exact (H x (or_intror Hx)).
Qed.

Lemma bind_getTableColumns_conn_of {A} t (k : list string -> M A) db :
  mbind (getTableColumns t) k (conn_of db) = k (s_cols db t) (conn_of db).
Proof. reflexivity. Qed.

Lemma mtry_200_plain {m : M response} c r c' :
  mtry m (fun e => mret (fail_with 500 e)) c = (Ret r, c') -> status r = 200 -> m c = (Ret r, c').
Proof.
  unfold mtry. destruct (m c) as [[a|e] c1]; intros H Hs; [exact H|].
  injection H as <- _. discriminate.
Qed.

Lemma pool_query_ret {A} (f : store -> option (store * A)) c a c1 :
  pool_query f c = (Ret a, c1) -> exists st', f (c_db c) = Some (st', a) /\ c_db c1 = st'.
Proof.
  unfold pool_query, next_fault.
  destruct (c_faults c) as [|[|] rest]; simpl; [| discriminate |];
    destruct (f (c_db c)) as [[st' a']|]; intros E; inversion E; subst; eauto.
Qed.

Lemma update_rows t sets ds p st st' ch :
  Admin.update t sets ds p st = Some (st', ch) ->
  s_rows st' t = map (fun r => if p r then
                         fold_left (fun r kv => Admin.set_field r (fst kv) (snd kv))
                                   (sets ++ map (fun c => (c, VInt (s_now st))) ds)%list r
                       else r) (s_rows st t).
Proof.
  unfold Admin.update. destruct (_ && _)%bool; [|discriminate].
  intros E. injection E as <- _. simpl. rewrite tbl_eqb_refl. reflexivity.
Qed.

Lemma handled_not_updated_at f cols :
  In f ("name" :: Admin.optional_fields) -> ~ In f (Admin.updated_at_column cols).
Proof.
  unfold Admin.updated_at_column. intros Hf Hin.
  destruct (Admin.has cols "updatedAt"), (Admin.has cols "updated_at");
    simpl in Hin; repeat destruct Hin as [Hin|Hin]; subst; try exact Hin;
    simpl in Hf; repeat destruct Hf as [Hf|Hf]; try discriminate Hf; exact Hf.
Qed.

Lemma field_has_own b f s : field b f = JStr s -> has_own b f = true.
Proof.
  unfold field, has_own. destruct (find _ (rev b)) as [[k v]|] eqn:E; [|discriminate].
  intros _. apply find_some in E as [Hin Hk]. apply existsb_exists.
  exists (k, v). split; [apply in_rev; exact Hin|exact Hk].
Qed.

Lemma update_company_no_fields db n b :
  num_truthy n = true ->
  (forall f, In f ("name" :: Admin.optional_fields) -> has_own b f = true ->
             has_col db TCompany f = false) ->
  Admin.update_company n b (conn_of db) =
  (Ret (fail_with 400 "No fields to update."), conn_of db).
Proof.
  intros Hn Hf. unfold Admin.update_company. rewrite Hn. cbn [negb].
  unfold mtry. rewrite bind_getTableColumns_conn_of. cbv beta zeta.
  rewrite flat_map_nil; [reflexivity|].
  intros key Hkey. destruct (has_own b key) eqn:Ho; [|rewrite andb_false_r; reflexivity].
  change (Admin.has (s_cols db TCompany) key) with (has_col db TCompany key).
  rewrite (Hf key Hkey Ho). reflexivity.
Qed.

Lemma update_company_empty_null n b c c' r f :
  Admin.update_company n b c = (Ret r, c') -> status r = 200 ->
  In f ("name" :: Admin.optional_fields) -> has_col (c_db c) TCompany f = true ->
  field b f = JStr "" ->
  forall k, pg_int (num_value n) = PgInt k ->
  forall x, In x (s_rows (c_db c') TCompany) -> is_int (get x "id") k = true -> get x f = VNull.
Proof.
  intros H Hs Hf Hc Hv k Hk x Hx Hid. unfold Admin.update_company in H.
  destruct (negb (num_truthy n)); [injection H as <- _; discriminate Hs|].
  apply mtry_200_plain in H; [|exact Hs].
  apply bind_ret in H as (cols & c1 & Hm & H). unfold getTableColumns in Hm.
  apply pool_read_ret in Hm as (E & Hd1 & _ & _). injection E as <-.
  cbv zeta in H. remember (flat_map _ _) as sets eqn:Hsets in H.
  destruct sets as [|s0 ss]; [injection H as <- _; discriminate Hs|].
  apply bind_ret in H as (res & c2 & Hm & H).
  apply pool_query_ret in Hm as (st' & Hu & <-).
  unfold with_int in Hu. rewrite Hk in Hu.
  destruct res as [|row0 rows]; [injection H as <- _; discriminate Hs|].
  apply mret_ret in H as [_ ->].
  apply update_rows in Hu. rewrite Hu in Hx. apply in_map_iff in Hx as (x0 & Ex & Hx0).
  destruct (is_int (get x0 "id") k) eqn:Ep; [|subst x; rewrite Ep in Hid; discriminate Hid].
  subst x. rewrite get_fold, rev_app_distr, find_app.
  rewrite (find_none _ (rev (map _ _))).
  2:{ intros kv Hkv. apply in_rev, in_map_iff in Hkv as (u & <- & Hu'). simpl.
      apply String.eqb_neq. intros ->. exact (handled_not_updated_at f _ Hf Hu'). }
  rewrite Hsets, find_rev_flat_map; [| |exact handled_nodup|exact Hf].
  - change (Admin.has (s_cols (c_db c) TCompany) f) with (has_col (c_db c) TCompany f).
    rewrite Hc, (field_has_own b f "" Hv). simpl. rewrite String.eqb_refl, Hv. reflexivity.
  - intros key kv Hin. destruct (_ && _)%bool; simpl in Hin; [destruct Hin as [<-|[]]; reflexivity|destruct Hin].
Qed.

Create HintDb keeps.

Lemma keeps_pool_read {A} P (f : store -> option A) : keeps P (pool_read f).
Proof.
  intros c w Hw Hp. unfold pool_read, next_fault.
  destruct (c_faults c) as [|[|] rest]; simpl; [| exact I |];
    destruct (f _); simpl; eauto.
Qed.

Lemma keeps_getTableColumns P t : keeps P (getTableColumns t).
Proof. apply keeps_pool_read. Qed.

Lemma keeps_client_read {A} P s (f : store -> option A) : keeps P (client_read s f).
Proof.
  intros c w Hw Hp. unfold client_read, next_fault. simpl.
  destruct (c_faults c) as [|[|] rest]; simpl; [| exact I |];
    destruct (f _); simpl; eauto.
Qed.

Lemma keeps_client_query {A} (P : store -> Prop) s (f : store -> option (store * A)) :
  (forall w w' a, f w = Some (w', a) -> P w -> P w') -> keeps P (client_query s f).
Proof.
  intros Hf c w Hw Hp. unfold client_query, next_fault. simpl.
  destruct (c_faults c) as [|[|] rest]; simpl; [| exact I |]; rewrite Hw;
    destruct (f w) as [[w' a]|] eqn:E; simpl; eauto.
Qed.

Lemma ends_bind {A} P Q (m : M A) (k : A -> M response) :
  keeps P m -> (forall a, ends_with P Q (k a)) -> ends_with P Q (mbind m k).
Proof.
  intros Hm Hk c w Hw Hp. unfold mbind. specialize (Hm c w Hw Hp).
  destruct (m c) as [[a|e] c1]; [|exact I].
  destruct Hm as (w1 & Hw1 & Hp1). exact (Hk a c1 w1 Hw1 Hp1).
Qed.

Lemma ends_rollback P Q r : status r <> 200 -> ends_with P Q (q_rollback;;; mret r).
Proof. intros Hs c w _ _. simpl. intros E. contradiction. Qed.

Lemma ends_commit P Q r : Q r -> ends_with P Q (q_commit;;; mret r).
Proof.
  intros Hq c w Hw Hp. unfold mbind, q_commit, mret, next_fault.
  destruct (c_faults c) as [|[|] rest]; simpl; [| exact I |]; rewrite Hw; simpl; auto.
Qed.

Lemma keeps_insert_user x s r ds : keeps (company_in x) (client_query s (insert TUser r ds)).
Proof.
  apply keeps_client_query. intros w w' a. unfold insert.
  destruct (_ && _)%bool; [|discriminate]. intros E. injection E as <- _. exact id.
Qed.

Lemma keeps_add_enum_value x s n v : keeps (company_in x) (client_query s (Admin.add_enum_value n v)).
Proof.
  apply keeps_client_query. intros w w' a E. injection E as <- _. exact id.
Qed.

#[local] Hint Resolve keeps_getTableColumns keeps_client_read keeps_insert_user
  keeps_add_enum_value keeps_pool_read : keeps.

Ltac ends_solve :=
  repeat first
    [ progress cbv zeta
    | apply ends_rollback; discriminate
    | apply ends_commit; reflexivity
    | apply ends_bind; [ solve [auto with keeps] | intros ? ]
    | match goal with |- ends_with _ _ (match ?x with _ => _ end) => destruct x end
    | match goal with |- ends_with _ _ (if ?x then _ else _) => destruct x end ].

Lemma insert_row t r ds st st' x :
  insert t r ds st = Some (st', x) ->
  x = (("id", VInt (s_serial st t)) :: r ++ map (fun c => (c, VInt (s_now st))) ds)%list /\
  In x (s_rows st' t).
Proof.
  unfold insert. destruct (_ && _)%bool; [|discriminate]. intros E. injection E as <- <-.
  split; [reflexivity|]. simpl. rewrite tbl_eqb_refl. apply in_or_app. right. left. reflexivity.
Qed.

Lemma create_company_returns hash b c c' r :
  Admin.create_company hash b c = (Ret r, c') -> status r = 200 ->
  exists name0 x,
    field b "name" = JStr name0 /\
    x = (("id", VInt (s_serial (c_db c) TCompany))
         :: ("name", VStr (trim name0))
         :: flat_map (fun key =>
              if Admin.has (s_cols (c_db c) TCompany) key then
                match field b key with
                | JUndef => []
                | v => [(key, Admin.normalize v)]
                end
              else []) Admin.optional_fields
         ++ map (fun col => (col, VInt (s_now (c_db c))))
                (Admin.updated_at_column (s_cols (c_db c) TCompany)))%list /\
    payload r = json_of_row x /\ In x (s_rows (c_db c') TCompany).
Proof.
  intros H Hs. unfold Admin.create_company in H.
  destruct (field b "name") as [| | | |name0]; try (injection H as <- _; discriminate Hs).
  destruct (String.eqb name0 ""); [injection H as <- _; discriminate Hs|].
  apply mtry_200 in H; [|exact Hs].
  apply bind_ret in H as (u0 & c0 & Hm & H). apply q_begin_ret in Hm as (Hd0 & Hw0 & _).
  apply bind_ret in H as (cols & c1 & Hm & H). unfold getTableColumns in Hm.
  apply pool_read_ret in Hm as (E & Hd1 & Hw1 & _). injection E as <-.
  rewrite Hd0 in H.
  apply bind_ret in H as (x & c2 & Hm & H).
  eapply client_query_ret in Hm as (w2 & Hins & Hd2 & Hw2 & _); [|rewrite Hw1; exact Hw0].
  apply insert_row in Hins as [Ex Hin].
  exists name0, x. split; [reflexivity|]. split; [exact Ex|].
  cbv beta in H.
  match type of H with
  | ?m c2 = _ => assert (Hend : ends_with (company_in x) (fun r => r = ok (json_of_row x)) m)
  end.
  { ends_solve. }
  specialize (Hend c2 w2 Hw2 Hin). rewrite H in Hend.
  destruct (Hend Hs) as [-> Hp]. split; [reflexivity|exact Hp].
Qed.

Lemma create_company_empty_null hash b c c' r f :
  Admin.create_company hash b c = (Ret r, c') -> status r = 200 ->
  In f Admin.optional_fields -> has_col (c_db c) TCompany f = true -> field b f = JStr "" ->
  exists x, payload r = json_of_row x /\ In x (s_rows (c_db c') TCompany) /\ get x f = VNull.
Proof.
  intros H Hs Hf Hc Hv.
  destruct (create_company_returns hash b c c' r H Hs) as (name0 & x & _ & -> & Hp & Hin).
  eexists. split; [exact Hp|]. split; [exact Hin|].
  assert (Hid : String.eqb "id" f = false /\ String.eqb "name" f = false).
  { simpl in Hf. repeat destruct Hf as [<-|Hf]; [..|destruct Hf]; split; reflexivity. }
  destruct Hid as [Hid Hname]. rewrite !get_cons, Hid, Hname, get_app_find.
  rewrite find_flat_map; [| |exact optional_nodup|exact Hf].
  - change (Admin.has (s_cols (c_db c) TCompany) f) with (has_col (c_db c) TCompany f).
    rewrite Hc, Hv. simpl. rewrite String.eqb_refl. reflexivity.
  - intros key kv Hin'. destruct (Admin.has _ key); [|destruct Hin'].
    destruct (field b key); simpl in Hin'; try (destruct Hin' as [<-|[]]; reflexivity); destruct Hin'.
Qed.

(** C10. Without database faults, for a company id [n = Number(id)] that is
    truthy (a non-zero number, integer or not), an update whose body has none
    of the handled keys (name, industry, location, website, email, phone,
    status, description) as an own key naming a Company column answers 400
    'No fields to update.' and leaves the store as it was; an id that is
    missing, NaN or 0 is answered with 400 'Invalid company id.' and nothing
    else is done. A handled field that names a Company column and is supplied
    as the empty string is NULL, after a successful update, in every Company
    row whose id is the integer the database reads the id as; an optional
    field that names a Company column and is supplied as the empty string is
    NULL in the created row of a successful create, the row that is returned
    and stored. A name supplied as the empty string is rejected with 400
    'name is required.'. *)
Theorem company_fields_update_create :
  (forall db n b, num_truthy n = true ->
     (forall f, In f ("name" :: Admin.optional_fields) -> has_own b f = true ->
                has_col db TCompany f = false) ->
     Admin.update_company n b (conn_of db) =
     (Ret (fail_with 400 "No fields to update."), conn_of db)) /\
  (forall n b c, num_truthy n = false ->
     Admin.update_company n b c = (Ret (fail_with 400 "Invalid company id."), c)) /\
  (forall n b c c' r f,
     Admin.update_company n b c = (Ret r, c') -> status r = 200 ->
     In f ("name" :: Admin.optional_fields) -> has_col (c_db c) TCompany f = true ->
     field b f = JStr "" ->
     forall k, pg_int (num_value n) = PgInt k ->
     forall x, In x (s_rows (c_db c') TCompany) -> is_int (get x "id") k = true -> get x f = VNull) /\
  (forall hash b c c' r f,
     Admin.create_company hash b c = (Ret r, c') -> status r = 200 ->
     In f Admin.optional_fields -> has_col (c_db c) TCompany f = true -> field b f = JStr "" ->
     exists x, payload r = json_of_row x /\ In x (s_rows (c_db c') TCompany) /\ get x f = VNull) /\
  (forall hash b c, field b "name" = JStr "" ->
     Admin.create_company hash b c = (Ret (fail_with 400 "name is required."), c)).
Proof.
  split; [exact update_company_no_fields|].
  split; [intros n b c Hn; unfold Admin.update_company; rewrite Hn; reflexivity|].
  split; [exact update_company_empty_null|].
  split; [exact create_company_empty_null|].
  intros hash b c Hn. unfold Admin.create_company. rewrite Hn. reflexivity.
Qed.

Lemma company_fields_update_create_witness :
  Admin.update_company (Number (JStr "2.5")) [("id", JNum 7)] (conn_of fx_company_db) =
  (Ret (fail_with 400 "No fields to update."), conn_of fx_company_db) /\
  Admin.update_company (Number (JStr "abc")) [("industry", JStr "")] (conn_of fx_company_db) =
  (Ret (fail_with 400 "Invalid company id."), conn_of fx_company_db) /\
  Admin.update_company (Number (JStr "0")) [("industry", JStr "")] (conn_of fx_company_db) =
  (Ret (fail_with 400 "Invalid company id."), conn_of fx_company_db) /\
  (exists r c', Admin.update_company (Number (JStr "1")) [("industry", JStr "")] (conn_of fx_company_db) = (Ret r, c') /\
     status r = 200 /\
     forall x, In x (s_rows (c_db c') TCompany) -> is_int (get x "id") 1 = true -> get x "industry" = VNull) /\
  (exists r c', Admin.create_company (fun s => s) [("name", JStr "Initech"); ("industry", JStr "")]
                  (conn_of fx_company_db) = (Ret r, c') /\
     status r = 200 /\
     exists x, payload r = json_of_row x /\ In x (s_rows (c_db c') TCompany) /\ get x "industry" = VNull) /\
  Admin.create_company (fun s => s) [("name", JStr "")] (conn_of fx_company_db) =
  (Ret (fail_with 400 "name is required."), conn_of fx_company_db).
Proof.
  destruct company_fields_update_create as (Hnf & Hinv & Hupd & Hcre & Hname).
  split; [|split; [|split; [|split; [|split]]]].
  - apply Hnf; [vm_compute; reflexivity|].
    intros f Hf Ho. simpl in Hf. repeat destruct Hf as [<-|Hf]; [..|destruct Hf]; vm_compute in Ho; discriminate Ho.
  - apply Hinv. vm_compute. reflexivity.
  - apply Hinv. vm_compute. reflexivity.
  - destruct (Admin.update_company (Number (JStr "1")) [("industry", JStr "")] (conn_of fx_company_db))
      as [[r|e] c'] eqn:E; [|vm_compute in E; discriminate E].
    exists r, c'. split; [reflexivity|].
    assert (Hs : status r = 200) by (vm_compute in E; injection E as <- _; reflexivity).
    split; [exact Hs|].
    apply (Hupd _ _ _ _ _ _ E Hs); [simpl; auto|vm_compute; reflexivity|reflexivity|vm_compute; reflexivity].
  - destruct (Admin.create_company (fun s => s) [("name", JStr "Initech"); ("industry", JStr "")]
                (conn_of fx_company_db)) as [[r|e] c'] eqn:E; [|vm_compute in E; discriminate E].
    exists r, c'. split; [reflexivity|].
    assert (Hs : status r = 200) by (vm_compute in E; injection E as <- _; reflexivity).
    split; [exact Hs|].
    apply (Hcre _ _ _ _ _ _ E Hs); [simpl; auto|vm_compute; reflexivity|reflexivity].
  - apply Hname. reflexivity.
Defined.

(** An update for company id 0 answers 'Invalid company id.', even though
    its body names no Company column. *)
Lemma update_company_invalid_id :
  Admin.update_company (Some 0) [] (conn_of (fx_forum_db [] [])) =
  (Ret (fail_with 400 "Invalid company id."), conn_of (fx_forum_db [] [])).
Proof. reflexivity. Qed.

Section Sorting.
Variable le : row -> row -> bool.
Hypothesis le_total : forall a b, le a b = false -> le b a = true.

Lemma in_insert_by x l y : In y (Listing.insert_by le x l) <-> y = x \/ In y l.
Proof.
  induction l as [|a l IH]; simpl; [intuition congruence|].
  destruct (le x a); simpl; [intuition congruence|]. rewrite IH. intuition congruence.
Qed.

Lemma in_sort_by l y : In y (Listing.sort_by le l) <-> In y l.
Proof.
  induction l as [|a l IH]; simpl; [tauto|]. rewrite in_insert_by, IH. intuition.
Qed.

Lemma filter_insert_by (p : row -> bool) x l :
  length (filter p (Listing.insert_by le x l)) = length (filter p (x :: l)).
Proof.
  induction l as [|a l IH]; simpl; [reflexivity|].
  destruct (le x a); [reflexivity|]. simpl.
  destruct (p a) eqn:Ea; simpl; rewrite IH; simpl; destruct (p x); simpl; rewrite ?Ea; simpl; lia.
Qed.

Lemma filter_sort_by (p : row -> bool) l :
  length (filter p (Listing.sort_by le l)) = length (filter p l).
Proof.
  induction l as [|a l IH]; simpl; [reflexivity|].
  rewrite filter_insert_by. simpl. destruct (p a); simpl; lia.
Qed.

Lemma length_sort_by l : length (Listing.sort_by le l) = length l.
Proof.
  pose proof (filter_sort_by (fun _ => true) l) as H. rewrite !filter_true in H. exact H.
Qed.

Lemma insert_by_sorted x l :
  Sorted (fun a b => le a b = true) l -> Sorted (fun a b => le a b = true) (Listing.insert_by le x l).
Proof.
  induction l as [|a l IH]; simpl; intros H; [repeat constructor|].
  destruct (le x a) eqn:E; [constructor; [exact H|constructor; exact E]|].
  apply Sorted_inv in H as [Hl Ha]. constructor; [exact (IH Hl)|].
  destruct l as [|b l]; simpl; [constructor; exact (le_total _ _ E)|].
  destruct (le x b); constructor; [exact (le_total _ _ E)|]. inversion Ha; assumption.
Qed.

Lemma sort_by_sorted l : Sorted (fun a b => le a b = true) (Listing.sort_by le l).
Proof. induction l as [|a l IH]; simpl; [constructor|]. apply insert_by_sorted, IH. Qed.

End Sorting.

Lemma created_le_total a b : Listing.created_le a b = false -> Listing.created_le b a = true.
Proof.
  unfold Listing.created_le, Listing.nulls_last_le.
  destruct (Listing.created_key a), (Listing.created_key b); try discriminate; try reflexivity.
  intros E. apply Z.leb_gt in E. apply Z.leb_le. lia.
Qed.

Lemma created_ge_total a b : Listing.created_ge a b = false -> Listing.created_ge b a = true.
Proof. apply created_le_total. Qed.

Lemma name_le_total a b : Listing.name_le a b = false -> Listing.name_le b a = true.
Proof.
  unfold Listing.name_le, Listing.nulls_last_le.
  destruct (Listing.name_key a), (Listing.name_key b); try discriminate; try reflexivity.
  intros E. destruct (String.leb_total s s0) as [H|H]; [congruence|exact H].
Qed.


Lemma pool_query_conn_of {A} (f : store -> option (store * A)) db :
  pool_query f (conn_of db) =
  match f db with Some (st', a) => (Ret a, conn_of st') | None => (Throw "SQL error", conn_of db) end.
Proof. unfold pool_query. simpl. destruct (f db) as [[? ?]|]; reflexivity. Qed.

Lemma pool_read_conn_of {A} (f : store -> option A) db a :
  f db = Some a -> pool_read f (conn_of db) = (Ret a, conn_of db).
Proof. intros E. unfold pool_read. simpl. rewrite E. reflexivity. Qed.

Lemma mtry_200_const {m : M response} msg c r c' :
  mtry m (fun _ => mret (fail_with 500 msg)) c = (Ret r, c') -> status r = 200 -> m c = (Ret r, c').
Proof.
  unfold mtry. destruct (m c) as [[a|e] c1]; intros H Hs; [exact H|].
  injection H as <- _. discriminate.
Qed.

Lemma insert_spec t r ds st st' x :
  insert t r ds st = Some (st', x) ->
  x = (("id", VInt (s_serial st t)) :: r ++ map (fun c => (c, VInt (s_now st))) ds)%list /\
  s_rows st' t = (s_rows st t ++ [x])%list /\
  (forall t', tbl_eqb t t' = false -> s_rows st' t' = s_rows st t') /\
  s_cols st' = s_cols st /\ fk_ok st t x = true.
Proof.
  unfold insert. destruct (has_cols _ _ _) eqn:Hc; simpl; [|discriminate].
  destruct (fk_ok _ _ _) eqn:Hf; simpl; [|discriminate].
  intros E. injection E as <- <-. simpl. rewrite tbl_eqb_refl.
  repeat split; [|exact Hf]. intros t' Ht. rewrite Ht. reflexivity.
Qed.

Lemma sql_eq_int v a : Listing.sql_eq v (VInt a) = true <-> v = VInt a.
Proof.
  destruct v; simpl; split; intros H; try discriminate H.
  - apply Z.eqb_eq in H. subst. reflexivity.
  - injection H as ->. apply Z.eqb_refl.
Qed.

Lemma filter_none {A} (p : A -> bool) l : (forall x, In x l -> p x = false) -> filter p l = [].
Proof.
  induction l as [|a l IH]; simpl; intros H; [reflexivity|].
  rewrite (H a (or_introl eq_refl)). apply IH. intros x Hx. exact (H x (or_intror Hx)).
Qed.

Lemma filter_all {A} (p : A -> bool) l : (forall x, In x l -> p x = true) -> filter p l = l.
Proof.
  induction l as [|a l IH]; simpl; intros H; [reflexivity|].
  rewrite (H a (or_introl eq_refl)), IH; [reflexivity|]. intros x Hx. exact (H x (or_intror Hx)).
Qed.

Lemma unique_id_count a (Cs : list row) :
  NoDup (map (fun r => get r "id") Cs) -> In (VInt a) (map (fun r => get r "id") Cs) ->
  length (filter (fun cs => Listing.sql_eq (get cs "id") (VInt a)) Cs) = 1%nat.
Proof.
  induction Cs as [|c Cs IH]; simpl; intros Hd Hin; [destruct Hin|].
  inversion Hd as [|? ? Hn Hd']; subst.
  destruct (Listing.sql_eq (get c "id") (VInt a)) eqn:E.
  - apply sql_eq_int in E. rewrite E in Hn. simpl. rewrite filter_none; [reflexivity|].
    intros x Hx. destruct (Listing.sql_eq (get x "id") (VInt a)) eqn:Ex; [|reflexivity].
    apply sql_eq_int in Ex. exfalso. apply Hn. apply in_map_iff. exists x. auto.
  - destruct Hin as [Hin|Hin]; [rewrite Hin in E; simpl in E; rewrite Z.eqb_refl in E; discriminate E|].
    exact (IH Hd' Hin).
Qed.

Lemma pair_count (p q : row -> bool) (t : bool) (mk : row -> row -> row) Xs Ys :
  length (flat_map (fun x => flat_map (fun y => if (p x && q y && t)%bool then [mk x y] else []) Ys) Xs) =
  if t then (length (filter p Xs) * length (filter q Ys))%nat else 0%nat.
Proof.
  induction Xs as [|x Xs IH]; simpl; [destruct t; reflexivity|].
  rewrite length_app, IH.
  assert (Hin : length (flat_map (fun y => if (p x && q y && t)%bool then [mk x y] else []) Ys) =
                if (p x && t)%bool then length (filter q Ys) else 0%nat).
  { clear IH. induction Ys as [|y Ys IHy]; simpl; [destruct (p x && t)%bool; reflexivity|].
    rewrite length_app, IHy. destruct (p x), (q y), t; simpl; try reflexivity; lia. }
  rewrite Hin. destruct (p x), t; simpl; lia.
Qed.

Lemma int_param_truthy v s' :
  truthy v = true -> Listing.int_param (param_of v) = Some s' -> exists a, s' = VInt a.
Proof.
  unfold Listing.int_param. intros Ht.
  destruct (pg_int (param_of v)) eqn:P; intros E; try discriminate E; injection E as <-; [|eauto].
  exfalso. destruct v as [| |b|[k|x]|t]; cbn [param_of num_value pg_int] in P;
    try discriminate Ht; try discriminate P; destruct (parse_int _); discriminate P.
Qed.

Lemma fk_ok_target st t c t2 x a :
  fk_ok st t x = true -> In (t, c, t2) (s_fks st) -> get x c = VInt a -> In (VInt a) (row_ids st t2).
Proof.
  unfold fk_ok. intros Hf Hin Hx. rewrite forallb_forall in Hf. specialize (Hf _ Hin).
  simpl in Hf. rewrite tbl_eqb_refl, Hx in Hf. simpl in Hf.
  apply existsb_exists in Hf as (v & Hv & E). apply (proj1 (value_eqb_eq _ _)) in E. subst v. exact Hv.
Qed.

(** C5. Without database faults, when [Message] has its two foreign keys to
    [Company], company ids are distinct and non-zero and message ids lie
    below the SERIAL counter, a message sent with a 200 answer is listed
    exactly once (by id) for its sender and for its receiver, and each
    listing is sorted ascending by [createdAt], NULL last. *)
Theorem message_listed_once db b c1 r1 :
  has_cols db TMessage ["id"; "content"; "createdAt"; "senderCompanyId"; "receiverCompanyId"] = true ->
  has_cols db TCompany ["id"; "name"] = true ->
  In (TMessage, "senderCompanyId", TCompany) (s_fks db) ->
  In (TMessage, "receiverCompanyId", TCompany) (s_fks db) ->
  NoDup (row_ids db TCompany) -> ~ In (VInt 0) (row_ids db TCompany) ->
  serial_fresh db TMessage = true ->
  Listing.send_message b (conn_of db) = (Ret r1, c1) -> status r1 = 200 ->
  exists m, payload r1 = json_of_row m /\
    forall k, (is_int (get m "senderCompanyId") k || is_int (get m "receiverCompanyId") k)%bool = true ->
      exists rows, Listing.list_messages (Some k) c1 = (Ret (ok (JsArr (map json_of_row rows))), c1) /\
        length (filter (fun x => value_eqb (get x "id") (get m "id")) rows) = 1%nat /\
        Sorted (fun x y => Listing.created_le x y = true) rows.
Proof.
  intros Hm Hc Fs Fr Hnd Hnz Hfresh H Hs.
  unfold Listing.send_message in H. cbv zeta in H.
  destruct (negb (truthy (field b "senderCompanyId")) || negb (truthy (field b "receiverCompanyId")) ||
            negb (truthy (field b "content")))%bool eqn:Ht; [injection H as <- _; discriminate Hs|].
  apply orb_false_iff in Ht as [Ht Htc]. apply orb_false_iff in Ht as [Hts Htr].
  apply negb_false_iff in Hts, Htr.
  apply mtry_200_const in H; [|exact Hs].
  unfold mbind in H. rewrite pool_query_conn_of in H.
  destruct (Listing.insert_message _ _ _ db) as [[st' full]|] eqn:Hins; [|discriminate H].
  apply mret_ret in H as [-> ->].
  unfold Listing.insert_message in Hins.
  destruct (Listing.int_param (param_of (field b "senderCompanyId"))) as [s'|] eqn:Es; [|discriminate].
  destruct (Listing.int_param (param_of (field b "receiverCompanyId"))) as [r'|] eqn:Er; [|discriminate].
  destruct (int_param_truthy _ _ Hts Es) as [a ->].
  destruct (int_param_truthy _ _ Htr Er) as [a' ->].
  apply insert_spec in Hins as (-> & Hmsg & Hother & Hcols & Hfk).
  pose proof (fk_ok_target _ _ _ _ _ a Hfk Fs eq_refl) as Ha.
  pose proof (fk_ok_target _ _ _ _ _ a' Hfk Fr eq_refl) as Ha'.
  eexists. split; [reflexivity|].
  intros k Hk. cbv [get project find fst snd map] in Hk. simpl in Hk.
  assert (Hkin : In (VInt k) (row_ids db TCompany)).
  { unfold is_int in Hk. apply orb_true_iff in Hk as [E|E]; apply Z.eqb_eq in E; subst; assumption. }
  assert (Hk0 : k <> 0) by (intros ->; exact (Hnz Hkin)).
  assert (Hcomp : s_rows st' TCompany = s_rows db TCompany) by (apply Hother; reflexivity).
  assert (Hhas : forall t cs, has_cols st' t cs = has_cols db t cs)
    by (intros; unfold has_cols, has_col; rewrite Hcols; reflexivity).
  eexists. split; [|split].
  - unfold Listing.list_messages. int_id_goal Hk0.
    unfold mtry, mbind. erewrite pool_read_conn_of; [reflexivity|].
    cbv beta iota delta [with_int num_value pg_int].
    unfold Listing.messages_of. rewrite !Hhas, Hm, Hc. reflexivity.
  - rewrite filter_sort_by.
    rewrite Hmsg, Hcomp, flat_map_app, filter_app, length_app.
    rewrite (filter_none _ (flat_map _ (s_rows db TMessage))).
    2:{ intros x Hx. apply in_flat_map in Hx as (m & Hm' & Hx).
        apply in_flat_map in Hx as (cs & _ & Hx). apply in_flat_map in Hx as (cr & _ & Hx).
        destruct (_ && _)%bool; [|destruct Hx]. destruct Hx as [<-|[]].
        unfold serial_fresh in Hfresh. rewrite forallb_forall in Hfresh. specialize (Hfresh m Hm').
        change (get (Listing.message_row m cs cr) "id") with (get m "id").
        change (get (project _ _) "id") with (VInt (s_serial db TMessage)).
        destruct (get m "id"); try discriminate Hfresh. simpl.
        apply Z.ltb_lt in Hfresh. apply Z.eqb_neq. lia. }
    simpl flat_map at 1. rewrite app_nil_r, filter_all.
    + change (get _ "senderCompanyId") with (VInt a). change (get _ "receiverCompanyId") with (VInt a').
      rewrite pair_count. unfold is_int in Hk. rewrite Hk.
      rewrite !unique_id_count; [reflexivity|exact Hnd|exact Ha'|exact Hnd|exact Ha].
    + intros x Hx. apply in_flat_map in Hx as (cs & _ & Hx). apply in_flat_map in Hx as (cr & _ & Hx).
      destruct (_ && _)%bool; [|destruct Hx]. destruct Hx as [<-|[]].
      simpl. apply Z.eqb_refl.
  - apply sort_by_sorted, created_le_total.
Qed.




Lemma message_listed_once_witness :
  exists m, payload fx_msg_sent = json_of_row m /\
    forall k, (is_int (get m "senderCompanyId") k || is_int (get m "receiverCompanyId") k)%bool = true ->
      exists rows,
        Listing.list_messages (Some k) (snd (Listing.send_message fx_msg_body (conn_of fx_msg_db))) =
        (Ret (ok (JsArr (map json_of_row rows))), snd (Listing.send_message fx_msg_body (conn_of fx_msg_db))) /\
        length (filter (fun x => value_eqb (get x "id") (get m "id")) rows) = 1%nat /\
        Sorted (fun x y => Listing.created_le x y = true) rows.
Proof.
  apply (message_listed_once fx_msg_db fx_msg_body
           (snd (Listing.send_message fx_msg_body (conn_of fx_msg_db))) fx_msg_sent).
  - reflexivity.
  - reflexivity.
  - left. reflexivity.
  - right. left. reflexivity.
  - vm_compute. constructor; [intros [H|[]]; discriminate H|]. constructor; [intros []|constructor].
  - vm_compute. intros [H|[H|[]]]; discriminate H.
  - reflexivity.
  - vm_compute. reflexivity.
  - reflexivity.
Defined.

Lemma created_le_trans a b c :
  Listing.created_le a b = true -> Listing.created_le b c = true -> Listing.created_le a c = true.
Proof.
  unfold Listing.created_le, Listing.nulls_last_le.
  destruct (Listing.created_key a), (Listing.created_key b), (Listing.created_key c);
    try discriminate; try reflexivity.
  rewrite !Z.leb_le. lia.
Qed.

Lemma firstn_sorted {A} (R : A -> A -> Prop) n l : Sorted R l -> Sorted R (firstn n l).
Proof.
  revert l. induction n as [|n IH]; intros l H; simpl; [constructor|].
  destruct l as [|a l]; [constructor|]. apply Sorted_inv in H as [Hl Ha].
  constructor; [exact (IH l Hl)|].
  destruct n, l; simpl; constructor. inversion Ha; assumption.
Qed.

Lemma firstn_skipn_le {A} (R : A -> A -> Prop) (Htr : forall x y z, R x y -> R y z -> R x z) n l :
  Sorted R l -> forall x y, In x (firstn n l) -> In y (skipn n l) -> R x y.
Proof.
  intros H. apply Sorted_StronglySorted in H; [|exact Htr]. revert l H.
  induction n as [|n IH]; intros l H x y Hx Hy; [destruct Hx|].
  destruct l as [|a l]; [destruct Hx|]. simpl in Hx, Hy.
  apply StronglySorted_inv in H as [Hl Ha].
  destruct Hx as [<-|Hx]; [|exact (IH l Hl x y Hx Hy)].
  rewrite Forall_forall in Ha. apply Ha.
  rewrite <- (firstn_skipn n l). apply in_or_app. right. exact Hy.
Qed.

Lemma has_cols_app st t l1 l2 :
  has_cols st t (l1 ++ l2)%list = (has_cols st t l1 && has_cols st t l2)%bool.
Proof. unfold has_cols. apply forallb_app. Qed.

Lemma has_cols_filter st t l :
  has_cols st t (filter (Admin.has (s_cols st t)) l) = true.
Proof.
  unfold has_cols. apply forallb_forall. intros x Hx. apply filter_In in Hx as [_ Hx]. exact Hx.
Qed.

Lemma company_row_optional cols c n f :
  In f Admin.optional_fields ->
  get (Listing.company_row cols c n) f = if Admin.has cols f then get c f else VNull.
Proof. simpl. intros Hf. repeat destruct Hf as [<-|Hf]; [reflexivity..|destruct Hf]. Qed.

(** C8. Without database faults, when [Company] has [id] and [name] and
    [User] has [id] and [companyId], the company listing answers 200 for
    any set of optional [Company] columns, lists every company once, and
    holds NULL in each optional field whose column is absent. *)
Theorem company_listing_nulls db :
  has_cols db TCompany ["id"; "name"] = true -> has_cols db TUser ["id"; "companyId"] = true ->
  exists rows,
    Listing.list_companies (conn_of db) = (Ret (ok (JsArr (map json_of_row rows))), conn_of db) /\
    length rows = length (s_rows db TCompany) /\
    forall x f, In x rows -> In f Admin.optional_fields -> has_col db TCompany f = false ->
      get x f = VNull.
Proof.
  intros Hc Hu. eexists. split; [|split].
  - unfold Listing.list_companies, mtry. rewrite bind_getTableColumns_conn_of. cbv beta.
    unfold mbind at 1. erewrite pool_read_conn_of; [reflexivity|].
    unfold Listing.companies_of. rewrite has_cols_app, Hc, has_cols_filter, Hu. reflexivity.
  - rewrite length_sort_by, length_map. reflexivity.
  - intros x f Hx Hf Hn. apply in_sort_by, in_map_iff in Hx as (c & <- & _).
    rewrite company_row_optional; [|exact Hf].
    change (Admin.has (s_cols db TCompany) f) with (has_col db TCompany f). rewrite Hn. reflexivity.
Qed.

(** C7. Without database faults, when [Post], [Company] and [Comment] have
    the columns the query names, the post listing answers 200 with at most
    100 rows, each a post joined with the company whose id equals its
    [authorId] and carrying its comment count, sorted by [createdAt]
    descending (NULL first); a joined post left out is no newer than any
    listed one, and then 100 rows are listed. *)
Theorem posts_listing db :
  has_cols db TPost ["id"; "title"; "createdAt"; "authorId"] = true ->
  has_cols db TCompany ["id"; "name"] = true -> has_cols db TComment ["id"; "postId"] = true ->
  let hasContent := Admin.has (s_cols db TPost) "content" in
  let hasCategory := Admin.has (s_cols db TPost) "category" in
  let joined p c := Listing.post_row hasContent hasCategory p c (Listing.comment_count db p) in
  exists rows,
    Listing.list_posts (conn_of db) = (Ret (ok (JsArr (map json_of_row rows))), conn_of db) /\
    (length rows <= 100)%nat /\
    Sorted (fun x y => Listing.created_ge x y = true) rows /\
    (forall x, In x rows -> exists p c, In p (s_rows db TPost) /\ In c (s_rows db TCompany) /\
       Listing.sql_eq (get c "id") (get p "authorId") = true /\ x = joined p c) /\
    (forall p c, In p (s_rows db TPost) -> In c (s_rows db TCompany) ->
       Listing.sql_eq (get c "id") (get p "authorId") = true ->
       In (joined p c) rows \/
       (length rows = 100%nat /\ forall y, In y rows -> Listing.created_ge y (joined p c) = true)).
Proof.
  intros Hp Hc Hm hasContent hasCategory joined.
  set (all := flat_map (fun p => flat_map (fun c =>
                if Listing.sql_eq (get c "id") (get p "authorId") then [joined p c] else [])
              (s_rows db TCompany)) (s_rows db TPost)).
  set (s := Listing.sort_by Listing.created_ge all).
  assert (Hs : Sorted (fun x y => Listing.created_ge x y = true) s)
    by (apply sort_by_sorted, created_ge_total).
  assert (Hall : forall x, In x s <-> exists p c, In p (s_rows db TPost) /\ In c (s_rows db TCompany) /\
            Listing.sql_eq (get c "id") (get p "authorId") = true /\ x = joined p c).
  { intros x. unfold s. rewrite in_sort_by. unfold all. rewrite in_flat_map. split.
    - intros (p & Hp' & Hx). apply in_flat_map in Hx as (c & Hc' & Hx).
      destruct (Listing.sql_eq _ _) eqn:E; [|destruct Hx]. destruct Hx as [<-|[]].
      exists p, c. auto.
    - intros (p & c & Hp' & Hc' & E & ->). exists p. split; [exact Hp'|].
      apply in_flat_map. exists c. split; [exact Hc'|]. rewrite E. left. reflexivity. }
  exists (firstn 100 s). split; [|split; [|split; [|split]]].
  - unfold Listing.list_posts, mtry. rewrite bind_getTableColumns_conn_of. cbv beta.
    unfold mbind at 1. erewrite pool_read_conn_of; [reflexivity|].
    unfold Listing.posts_of. cbv zeta.
    rewrite !has_cols_app, Hp, Hc, Hm.
    fold hasContent hasCategory.
    assert (E1 : has_cols db TPost (if hasContent then ["content"] else []) = true).
    { unfold hasContent. destruct (Admin.has _ "content") eqn:E; [|reflexivity].
      unfold has_cols. simpl. change (has_col db TPost "content") with (Admin.has (s_cols db TPost) "content").
      rewrite E. reflexivity. }
    assert (E2 : has_cols db TPost (if hasCategory then ["category"] else []) = true).
    { unfold hasCategory. destruct (Admin.has _ "category") eqn:E; [|reflexivity].
      unfold has_cols. simpl. change (has_col db TPost "category") with (Admin.has (s_cols db TPost) "category").
      rewrite E. reflexivity. }
    rewrite E1, E2. reflexivity.
  - apply firstn_le_length.
  - apply firstn_sorted, Hs.
  - intros x Hx. apply Hall. rewrite <- (firstn_skipn 100 s). apply in_or_app. left. exact Hx.
  - intros p c Hp' Hc' E.
    assert (Hin : In (joined p c) s) by (apply Hall; exists p, c; auto).
    rewrite <- (firstn_skipn 100 s) in Hin. apply in_app_or in Hin as [Hin|Hin]; [left; exact Hin|].
    right. split.
    + apply firstn_length_le.
      destruct (Nat.le_gt_cases (length s) 100) as [Hl|Hl]; [|lia].
      rewrite skipn_all2 in Hin; [destruct Hin|exact Hl].
    + intros y Hy. apply (firstn_skipn_le _ (fun x y z H1 H2 => created_le_trans z y x H2 H1) 100 s Hs y _ Hy Hin).
Qed.

Lemma company_listing_nulls_witness :
  has_cols (fx_forum_db [] []) TCompany ["id"; "name"] = true /\
  has_cols (fx_forum_db [] []) TUser ["id"; "companyId"] = true /\
  exists rows,
    Listing.list_companies (conn_of (fx_forum_db [] [])) =
      (Ret (ok (JsArr (map json_of_row rows))), conn_of (fx_forum_db [] [])) /\
    length rows = length (s_rows (fx_forum_db [] []) TCompany) /\
    forall x f, In x rows -> In f Admin.optional_fields ->
      has_col (fx_forum_db [] []) TCompany f = false -> get x f = VNull.
Proof.
  split; [reflexivity|]. split; [reflexivity|].
  apply (company_listing_nulls (fx_forum_db [] [])); reflexivity.
Defined.


Lemma posts_listing_witness :
  has_cols fx_posts_db TPost ["id"; "title"; "createdAt"; "authorId"] = true /\
  has_cols fx_posts_db TCompany ["id"; "name"] = true /\
  has_cols fx_posts_db TComment ["id"; "postId"] = true /\
  let hasContent := Admin.has (s_cols fx_posts_db TPost) "content" in
  let hasCategory := Admin.has (s_cols fx_posts_db TPost) "category" in
  let joined p c := Listing.post_row hasContent hasCategory p c (Listing.comment_count fx_posts_db p) in
  exists rows,
    Listing.list_posts (conn_of fx_posts_db) = (Ret (ok (JsArr (map json_of_row rows))), conn_of fx_posts_db) /\
    (length rows <= 100)%nat /\
    Sorted (fun x y => Listing.created_ge x y = true) rows /\
    (forall x, In x rows -> exists p c, In p (s_rows fx_posts_db TPost) /\ In c (s_rows fx_posts_db TCompany) /\
       Listing.sql_eq (get c "id") (get p "authorId") = true /\ x = joined p c) /\
    (forall p c, In p (s_rows fx_posts_db TPost) -> In c (s_rows fx_posts_db TCompany) ->
       Listing.sql_eq (get c "id") (get p "authorId") = true ->
       In (joined p c) rows \/
       (length rows = 100%nat /\ forall y, In y rows -> Listing.created_ge y (joined p c) = true)).
Proof.
  split; [reflexivity|]. split; [reflexivity|]. split; [reflexivity|].
  apply (posts_listing fx_posts_db); reflexivity.
Defined.

(** ** Identifier quoting *)

Lemma pg_ident_body_quoted l rest :
  match rest with d :: _ => Ascii.eqb d dquote = false | [] => True end ->
  pg_ident_body (double_quotes l ++ dquote :: rest) = Some (l, rest).
Proof.
  intros Hr. induction l as [|c l IH]; simpl.
  - rewrite ?Ascii.eqb_refl. destruct rest as [|d rest]; [reflexivity|]. rewrite Hr. reflexivity.
  - destruct (Ascii.eqb c dquote) eqn:E; simpl.
    + rewrite ?Ascii.eqb_refl. simpl. rewrite IH. apply Ascii.eqb_eq in E. subst c. reflexivity.
    + rewrite E, IH. reflexivity.
Qed.

(** X. The text [quoteIdentifier] produces is read back by PostgreSQL as one
    quoted identifier equal to the input, leaving the rest of the statement
    untouched, whenever that rest does not start with a double quote. *)
Theorem quoteIdentifier_reads_back s rest :
  match rest with d :: _ => Ascii.eqb d dquote = false | [] => True end ->
  pg_quoted_ident (list_ascii_of_string (quoteIdentifier s) ++ rest) =
    Some (list_ascii_of_string s, rest).
Proof.
  intros Hr. unfold quoteIdentifier. rewrite list_ascii_of_string_of_list_ascii.
  simpl. rewrite ?Ascii.eqb_refl, <- app_assoc. simpl. apply pg_ident_body_quoted, Hr.
Qed.

Lemma quoteIdentifier_reads_back_witness :
  (match list_ascii_of_string " AS x" with d :: _ => Ascii.eqb d dquote = false | [] => True end) /\
  pg_quoted_ident (list_ascii_of_string (quoteIdentifier ("a" ++ String dquote "b")) ++
                   list_ascii_of_string " AS x") =
    Some (list_ascii_of_string ("a" ++ String dquote "b")%string, list_ascii_of_string " AS x").
Proof. split; [reflexivity|]. apply quoteIdentifier_reads_back. reflexivity. Defined.

(** ** resolveColumn *)

Lemma lower_empty s : lower s = "" -> s = "".
Proof. destruct s; [reflexivity|discriminate]. Qed.

Section FirstSome.
Variable g : string -> option string.

Lemma fold_first_some (cands : list string) x :
  fold_left (fun acc cand => match acc with Some _ => acc | None => g cand end) cands (Some x) = Some x.
Proof. induction cands; simpl; auto. Qed.

Lemma fold_first_found (cands : list string) c :
  fold_left (fun acc cand => match acc with Some _ => acc | None => g cand end) cands None = Some c ->
  exists pre cand post, cands = (pre ++ cand :: post)%list /\ g cand = Some c /\
    forall p, In p pre -> g p = None.
Proof.
  induction cands as [|a cands IH]; simpl; [discriminate|].
  destruct (g a) as [x|] eqn:E.
  - rewrite fold_first_some. intros [= <-]. exists [], a, cands. split; [reflexivity|]. split; [exact E|].
    intros p [].
  - intros H. destruct (IH H) as (pre & cand & post & -> & Hc & Hp).
    exists (a :: pre), cand, post. split; [reflexivity|]. split; [exact Hc|].
    intros p [<-|Hin]; [exact E|exact (Hp p Hin)].
Qed.

Lemma fold_first_none (cands : list string) :
  fold_left (fun acc cand => match acc with Some _ => acc | None => g cand end) cands None = None <->
  forall cand, In cand cands -> g cand = None.
Proof.
  induction cands as [|a cands IH]; simpl.
  - split; [intros _ _ []|reflexivity].
  - destruct (g a) as [x|] eqn:E.
    + rewrite fold_first_some. split; [discriminate|]. intros H. rewrite (H a (or_introl eq_refl)) in E.
      discriminate.
    + rewrite IH. split.
      * intros H cand [<-|Hin]; [exact E|exact (H cand Hin)].
      * intros H cand Hin. exact (H cand (or_intror Hin)).
Qed.
End FirstSome.

Lemma lower_map_find cols k kc c :
  find (fun kv => String.eqb (fst kv) k) (rev (map (fun c => (lower c, c)) cols)) = Some (kc, c) ->
  In c cols /\ lower c = k.
Proof.
  intros H. apply find_some in H as [Hin E]. apply String.eqb_eq in E. simpl in E.
  apply in_rev, in_map_iff in Hin as (c0 & [= <- <-] & Hc0). split; [exact Hc0|exact E].
Qed.

Lemma lower_map_none cols k c :
  find (fun kv => String.eqb (fst kv) k) (rev (map (fun c => (lower c, c)) cols)) = None ->
  In c cols -> lower c <> k.
Proof.
  intros H Hc E. pose proof (List.find_none _ _ H (lower c, c)) as H'.
  rewrite <- in_rev, in_map_iff in H'. specialize (H' (ex_intro _ c (conj eq_refl Hc))).
  simpl in H'. rewrite E, String.eqb_refl in H'. discriminate.
Qed.

Section Lookup.
Variable cols : list string.

Let lookup (cand : string) : option string :=
  match match find (fun kv => String.eqb (fst kv) (lower cand)) (rev (map (fun c => (lower c, c)) cols)) with
        | Some (_, c) => Some c | None => None end with
  | Some c => if String.eqb c "" then None else Some c
  | None => None
  end.

Lemma resolveColumn_fold cands :
  resolveColumn cols cands =
  fold_left (fun acc cand => match acc with Some _ => acc | None => lookup cand end) cands None.
Proof. reflexivity. Qed.

Lemma lookup_some cand c : lookup cand = Some c -> In c cols /\ c <> "" /\ lower c = lower cand.
Proof.
  unfold lookup. destruct (find _ _) as [[kc c0]|] eqn:E; [|discriminate].
  apply lower_map_find in E as [Hin Hl].
  destruct (String.eqb c0 "") eqn:Ee; [discriminate|]. intros [= <-].
  split; [exact Hin|]. split; [|exact Hl]. intros ->. discriminate.
Qed.

Lemma lookup_none cand :
  lookup cand = None <-> forall c, In c cols -> lower c = lower cand -> c = "".
Proof.
  unfold lookup. destruct (find _ _) as [[kc c0]|] eqn:E.
  - apply lower_map_find in E as [Hin Hl].
    destruct (String.eqb c0 "") eqn:Ee.
    + apply String.eqb_eq in Ee. subst c0. split; [|reflexivity].
      intros _ c _ Hc. apply lower_empty. rewrite Hc, <- Hl. reflexivity.
    + split; [discriminate|]. intros H. rewrite (H c0 Hin Hl) in Ee. discriminate.
  - split; [|reflexivity]. intros _ c Hc Hl. exfalso. exact (lower_map_none _ _ _ E Hc Hl).
Qed.

End Lookup.

(** X. When [resolveColumn] returns a column, it is a non-empty column of
    the table equal to one of the candidates up to case, and every earlier
    candidate matches no non-empty column. *)
Theorem resolveColumn_first_match cols cands c :
  resolveColumn cols cands = Some c ->
  In c cols /\ c <> "" /\
  exists pre cand post, cands = (pre ++ cand :: post)%list /\ lower c = lower cand /\
    forall p c', In p pre -> In c' cols -> lower c' = lower p -> c' = "".
Proof.
  rewrite resolveColumn_fold. intros H. apply fold_first_found in H as (pre & cand & post & -> & Hc & Hp).
  apply lookup_some in Hc as (Hin & Hne & Hl).
  split; [exact Hin|]. split; [exact Hne|]. exists pre, cand, post. split; [reflexivity|].
  split; [exact Hl|]. intros p c' Hpin. apply lookup_none, Hp, Hpin.
Qed.

Lemma resolveColumn_first_match_witness :
  resolveColumn ["id"; "Post_Id"] ["postId"; "post_id"] = Some "Post_Id" /\
  In "Post_Id" ["id"; "Post_Id"] /\ "Post_Id" <> "" /\
  exists pre cand post, ["postId"; "post_id"] = (pre ++ cand :: post)%list /\
    lower "Post_Id" = lower cand /\
    forall p c', In p pre -> In c' ["id"; "Post_Id"] -> lower c' = lower p -> c' = "".
Proof.
  split; [reflexivity|]. apply resolveColumn_first_match. reflexivity.
Defined.

(** X. [resolveColumn] returns null exactly when no non-empty column of the
    table equals any of the candidates up to case. *)
Theorem resolveColumn_null_iff cols cands :
  resolveColumn cols cands = None <->
  forall cand c, In cand cands -> In c cols -> lower c = lower cand -> c = "".
Proof.
  rewrite resolveColumn_fold, fold_first_none. split.
  - intros H cand c Hin. apply lookup_none, H, Hin.
  - intros H cand Hin. apply lookup_none. intros c. apply H, Hin.
Qed.

(** ** DELETE /api/forum/posts/:id *)

Lemma existsb_all_false {A} (f : A -> bool) l : (forall x, In x l -> f x = false) -> existsb f l = false.
Proof.
  induction l as [|a l IH]; simpl; intros H; [reflexivity|].
  rewrite (H a (or_introl eq_refl)). apply IH. intros x Hx. exact (H x (or_intror Hx)).
Qed.

Lemma dangling_unreferenced st t gone :
  (forall t0 c t2, In (t0, c, t2) (s_fks st) -> t2 <> t) -> dangling st t gone = false.
Proof.
  intros H. unfold dangling. apply existsb_all_false. intros [[t0 c] t2] Hin.
  destruct t2, t; try reflexivity; exfalso; exact (H _ _ _ Hin eq_refl).
Qed.

Lemma value_eqb_int v k : value_eqb v (VInt k) = is_int v k.
Proof. destruct v; reflexivity. Qed.

(** Deleting the posts with id [k] once the comments pointing at them are
    gone leaves no dangling reference. *)
Lemma dangling_posts st k ps :
  (forall t c t2, In (t, c, t2) (s_fks st) -> t2 = TPost -> t = TComment /\ c = "postId") ->
  (forall r, In r (s_rows st TComment) -> is_int (get r "postId") k = false) ->
  dangling st TPost (filter (fun r => is_int (get r "id") k) ps) = false.
Proof.
  intros Hfk Hc. unfold dangling. apply existsb_all_false. intros [[t c] t2] Hin.
  destruct t2; try reflexivity. destruct (Hfk _ _ _ Hin eq_refl) as [-> ->]. simpl.
  apply existsb_all_false. intros r Hr. apply existsb_all_false. intros d Hd.
  apply filter_In in Hd as [_ Hd].
  destruct (get d "id") as [|n| |] eqn:E; try discriminate; [].
  simpl in Hd. apply Z.eqb_eq in Hd. subst n. rewrite value_eqb_int. exact (Hc r Hr).
Qed.

Lemma negb_filter_false {A} (f : A -> bool) l r : In r (filter (fun x => negb (f x)) l) -> f r = false.
Proof. intros H. apply filter_In in H as [_ H]. destruct (f r); [discriminate|reflexivity]. Qed.

Section DeletePost.
Variables (db : store) (k : Z).
Hypothesis Hcom : has_col db TComment "postId" = true.
Hypothesis Hpost : has_col db TPost "id" = true.
Hypothesis Hfk_post : forall t c t2, In (t, c, t2) (s_fks db) -> t2 = TPost -> t = TComment /\ c = "postId".
Hypothesis Hfk_com : forall t c t2, In (t, c, t2) (s_fks db) -> t2 <> TComment.

Let db1 := set_rows db TComment (filter (fun r => negb (is_int (get r "postId") k)) (s_rows db TComment)).
Let db2 := set_rows db1 TPost (filter (fun r => negb (is_int (get r "id") k)) (s_rows db1 TPost)).

Lemma delete_comments_of_post :
  delete TComment ["postId"] (fun r => is_int (get r "postId") k) db =
  Some (db1, filter (fun r => is_int (get r "postId") k) (s_rows db TComment)).
Proof.
  unfold delete. unfold has_cols. simpl. rewrite Hcom. simpl.
  rewrite dangling_unreferenced; [reflexivity|exact Hfk_com].
Qed.

Lemma delete_post_row :
  delete TPost ["id"] (fun r => is_int (get r "id") k) db1 =
  Some (db2, filter (fun r => is_int (get r "id") k) (s_rows db TPost)).
Proof.
  unfold delete. unfold has_cols. simpl. change (has_col db1 TPost "id") with (has_col db TPost "id").
  rewrite Hpost. simpl. rewrite dangling_posts; [reflexivity|exact Hfk_post|].
  intros r Hr. exact (negb_filter_false _ _ _ Hr).
Qed.

Lemma delete_post_run :
  k <> 0 ->
  Routes.delete_post (Some k) (conn_of db) =
  (Ret (if existsb (fun p => is_int (get p "id") k) (s_rows db TPost)
        then ok (JsObj [("id", JsInt k)]) else fail_with 404 "Post not found."), conn_of db2).
Proof.
  intros Hk. unfold Routes.delete_post. int_id_goal Hk.
  cbv beta iota delta [with_int num_value pg_int].
  unfold mtry, mbind, pool_query. cbn [next_fault conn_of c_faults c_db c_work c_log].
  rewrite delete_comments_of_post. cbn [next_fault c_faults c_db c_work c_log].
  rewrite delete_post_row. cbn [c_faults c_db c_work c_log].
  destruct (filter _ (s_rows db TPost)) as [|p ps] eqn:E.
  - rewrite existsb_all_false; [reflexivity|].
    intros x Hx. destruct (is_int (get x "id") k) eqn:Ex; [|reflexivity].
    assert (In x []) as []. rewrite <- E. apply filter_In. split; assumption.
  - assert (Hp : In p (filter (fun r => is_int (get r "id") k) (s_rows db TPost))) by (rewrite E; left; reflexivity).
    apply filter_In in Hp as [Hp Hk'].
    replace (existsb _ _) with true; [reflexivity|]. symmetry. apply existsb_exists. exists p. split; assumption.
Qed.

End DeletePost.

(** X. Deleting post [k] (no database faults; [Comment] has [postId], the
    only foreign key into [Post] is [Comment.postId] and none points into
    [Comment]) removes every comment whose [postId] is [k] and every post
    whose id is [k], touches no other table, and answers [{id: k}] when a
    post had that id and 404 otherwise: the comments are deleted even when
    the post does not exist. *)
Theorem delete_post_effect db k :
  k <> 0 -> has_col db TComment "postId" = true -> has_col db TPost "id" = true ->
  (forall t c t2, In (t, c, t2) (s_fks db) -> t2 = TPost -> t = TComment /\ c = "postId") ->
  (forall t c t2, In (t, c, t2) (s_fks db) -> t2 <> TComment) ->
  exists c',
    Routes.delete_post (Some k) (conn_of db) =
      (Ret (if existsb (fun p => is_int (get p "id") k) (s_rows db TPost)
            then ok (JsObj [("id", JsInt k)]) else fail_with 404 "Post not found."), c') /\
    s_rows (c_db c') TComment = filter (fun r => negb (is_int (get r "postId") k)) (s_rows db TComment) /\
    s_rows (c_db c') TPost = filter (fun r => negb (is_int (get r "id") k)) (s_rows db TPost) /\
    forall t, t <> TComment -> t <> TPost -> s_rows (c_db c') t = s_rows db t.
Proof.
  intros Hk Hc Hp Hf1 Hf2. eexists. split; [exact (delete_post_run db k Hc Hp Hf1 Hf2 Hk)|].
  cbn [c_db conn_of s_rows set_rows tbl_eqb]. split; [reflexivity|]. split; [reflexivity|].
  intros t H1 H2. destruct t; try reflexivity; congruence.
Qed.

Lemma delete_post_effect_witness :
  let db := fx_forum_db ["id"; "postId"] [(TComment, "postId", TPost)] in
  1 <> 0 /\ has_col db TComment "postId" = true /\ has_col db TPost "id" = true /\
  exists c',
    Routes.delete_post (Some 1) (conn_of db) =
      (Ret (if existsb (fun p => is_int (get p "id") 1) (s_rows db TPost)
            then ok (JsObj [("id", JsInt 1)]) else fail_with 404 "Post not found."), c') /\
    s_rows (c_db c') TComment = filter (fun r => negb (is_int (get r "postId") 1)) (s_rows db TComment) /\
    s_rows (c_db c') TPost = filter (fun r => negb (is_int (get r "id") 1)) (s_rows db TPost) /\
    forall t, t <> TComment -> t <> TPost -> s_rows (c_db c') t = s_rows db t.
Proof.
  intros db. split; [lia|]. split; [reflexivity|]. split; [reflexivity|].
  apply delete_post_effect; [lia|reflexivity|reflexivity| |].
  - intros t c t2 [[= <- <- <-]|[]] _. split; reflexivity.
  - intros t c t2 [[= <- <- <-]|[]]. discriminate.
Defined.

(** X. The two DELETE statements are separate autocommit statements: when
    the connection fails on the second one, the answer is 500 and the post
    is still there while its comments are already deleted. *)
Theorem delete_post_not_atomic db k :
  k <> 0 -> has_col db TComment "postId" = true ->
  (forall t c t2, In (t, c, t2) (s_fks db) -> t2 <> TComment) ->
  exists c',
    Routes.delete_post (Some k) (mkConn db None [false; true] []) =
      (Ret (fail_with 500 "connection error"), c') /\
    s_rows (c_db c') TComment = filter (fun r => negb (is_int (get r "postId") k)) (s_rows db TComment) /\
    s_rows (c_db c') TPost = s_rows db TPost.
Proof.
  intros Hk Hc Hf. unfold Routes.delete_post. int_id_goal Hk. cbv beta iota delta [with_int num_value pg_int].
  unfold mtry, mbind, pool_query. cbn [next_fault c_faults c_db c_work c_log].
  rewrite (delete_comments_of_post db k Hc Hf). cbn [next_fault c_faults c_db c_work c_log].
  eexists. split; [reflexivity|]. split; reflexivity.
Qed.

Lemma delete_post_not_atomic_witness :
  let db := fx_forum_db ["id"; "postId"] [(TComment, "postId", TPost)] in
  1 <> 0 /\ has_col db TComment "postId" = true /\
  exists c',
    Routes.delete_post (Some 1) (mkConn db None [false; true] []) =
      (Ret (fail_with 500 "connection error"), c') /\
    s_rows (c_db c') TComment = filter (fun r => negb (is_int (get r "postId") 1)) (s_rows db TComment) /\
    s_rows (c_db c') TPost = s_rows db TPost.
Proof.
  intros db. split; [lia|]. split; [reflexivity|].
  apply delete_post_not_atomic; [lia|reflexivity|].
  intros t c t2 [[= <- <- <-]|[]]. discriminate.
Defined.

(** ** ensureAdminCompany *)

Lemma ensureAdmin_run st :
  ensureAdminCompany (conn_of st) =
  if negb (Admin.has (s_cols st TCompany) "name") then (Ret tt, conn_of st) else
  match select TCompany ["name"] ["id"] is_admin_name st with
  | None => (Throw "SQL error", conn_of st)
  | Some (_ :: _) => (Ret tt, conn_of st)
  | Some [] =>
    match insert TCompany
            (("name", VStr "Admin") ::
             (if Admin.has (s_cols st TCompany) "updatedAt" then [("updatedAt", VInt (s_now st))]
              else if Admin.has (s_cols st TCompany) "updated_at" then [("updated_at", VInt (s_now st))]
              else [])) [] st with
    | Some (st', _) => (Ret tt, conn_of st')
    | None => (Throw "SQL error", conn_of st)
    end
  end.
Proof.
  unfold ensureAdminCompany, getTableColumns, mbind, pool_read, pool_query, mret.
  cbv beta iota zeta delta [next_fault conn_of c_faults c_db c_work c_log].
  destruct (negb _); [reflexivity|].
  destruct (select _ _ _ _ _) as [[|x l]|]; [|reflexivity|reflexivity].
  destruct (insert _ _ _ _) as [[st' a]|]; reflexivity.
Qed.

Lemma get_insert_name st (upd : list (string * value)) :
  get (("id", VInt (s_serial st TCompany)) :: ("name", VStr "Admin") :: upd) "name" = VStr "Admin".
Proof. reflexivity. Qed.

Lemma ensureAdmin_cases db c' :
  ensureAdminCompany (conn_of db) = (Ret tt, c') ->
  (c' = conn_of db /\
   (Admin.has (s_cols db TCompany) "name" = false \/
    Admin.has (s_cols db TCompany) "name" = true /\ has_cols db TCompany ["name"; "id"] = true /\
    exists r, In r (s_rows db TCompany) /\ is_admin_name r = true)) \/
  (exists full st', Admin.has (s_cols db TCompany) "name" = true /\
     has_cols db TCompany ["name"; "id"] = true /\ c' = conn_of st' /\
     s_rows st' TCompany = (s_rows db TCompany ++ [full])%list /\ get full "name" = VStr "Admin" /\
     s_cols st' = s_cols db /\ forall t, t <> TCompany -> s_rows st' t = s_rows db t).
Proof.
  rewrite ensureAdmin_run.
  destruct (Admin.has (s_cols db TCompany) "name") eqn:Hn; simpl negb; cbv iota.
  2: { intros [= <-]. left. split; [reflexivity|left; reflexivity]. }
  unfold select. destruct (has_cols db TCompany (["name"] ++ ["id"])) eqn:Hc; [|discriminate].
  destruct (map _ (filter is_admin_name _)) as [|x l] eqn:Ef.
  - unfold insert. destruct (_ && _)%bool; [|discriminate]. intros [= <-]. right.
    eexists _, _. split; [reflexivity|]. split; [exact Hc|]. split; [reflexivity|].
    split; [reflexivity|]. split; [apply get_insert_name|]. split; [reflexivity|].
    intros t Ht. cbn [s_rows set_rows]. destruct t; try reflexivity; congruence.
  - intros [= <-]. left. split; [reflexivity|]. right. split; [reflexivity|]. split; [exact Hc|].
    assert (Hx : In x (map (project ["id"]) (filter is_admin_name (s_rows db TCompany)))) by (rewrite Ef; left; reflexivity).
    apply in_map_iff in Hx as (r & _ & Hr). apply filter_In in Hr. exists r. exact Hr.
Qed.

Lemma is_admin_name_admin r : get r "name" = VStr "Admin" -> is_admin_name r = true.
Proof. intros H. unfold is_admin_name. rewrite H. reflexivity. Qed.

(** X. After [ensureAdminCompany] has run without error on a [Company]
    table with a [name] column, the table holds a company named Admin up to
    case; the run added at most that one row and changed no other table. *)
Theorem ensureAdminCompany_effect db c' :
  ensureAdminCompany (conn_of db) = (Ret tt, c') ->
  has_col db TCompany "name" = true ->
  (exists r, In r (s_rows (c_db c') TCompany) /\ is_admin_name r = true) /\
  (s_rows (c_db c') TCompany = s_rows db TCompany \/
   exists r, s_rows (c_db c') TCompany = (s_rows db TCompany ++ [r])%list /\ get r "name" = VStr "Admin") /\
  forall t, t <> TCompany -> s_rows (c_db c') t = s_rows db t.
Proof.
  intros H Hn. apply ensureAdmin_cases in H as [[-> [Hf|(_ & _ & Hex)]]|(full & st' & _ & _ & -> & Hr & Hg & _ & Ht)].
  - change (has_col db TCompany "name") with (Admin.has (s_cols db TCompany) "name") in Hn. congruence.
  - split; [exact Hex|]. split; [left; reflexivity|]. intros t _. reflexivity.
  - cbn [c_db conn_of]. split.
    + exists full. rewrite Hr. split; [apply in_or_app; right; left; reflexivity|].
      apply is_admin_name_admin, Hg.
    + split; [right; exists full; split; assumption|exact Ht].
Qed.

Lemma select_admin_found st r :
  has_cols st TCompany ["name"; "id"] = true -> In r (s_rows st TCompany) -> is_admin_name r = true ->
  exists x l, select TCompany ["name"] ["id"] is_admin_name st = Some (x :: l).
Proof.
  intros Hc Hr Ha. unfold select. simpl app. rewrite Hc.
  destruct (filter is_admin_name (s_rows st TCompany)) as [|y l] eqn:E.
  - assert (In r []) as []. rewrite <- E. apply filter_In. split; assumption.
  - exists (project ["id"] y), (map (project ["id"]) l). reflexivity.
Qed.

(** X. [ensureAdminCompany] is idempotent: once it has run without error,
    running it again changes nothing. *)
Theorem ensureAdminCompany_idempotent db c' :
  ensureAdminCompany (conn_of db) = (Ret tt, c') -> ensureAdminCompany c' = (Ret tt, c').
Proof.
  intros H. apply ensureAdmin_cases in H
    as [[-> [Hf|(Hn & Hc & r & Hr & Ha)]]|(full & st' & Hn & Hc & -> & Hr & Hg & Hcols & _)].
  - rewrite ensureAdmin_run, Hf. reflexivity.
  - rewrite ensureAdmin_run, Hn. simpl negb. cbv iota.
    destruct (select_admin_found db r Hc Hr Ha) as (x & l & ->). reflexivity.
  - rewrite ensureAdmin_run, Hcols, Hn. simpl negb. cbv iota.
    assert (Hc' : has_cols st' TCompany ["name"; "id"] = true).
    { unfold has_cols, has_col. rewrite Hcols. exact Hc. }
    destruct (select_admin_found st' full Hc') as (x & l & ->).
    + rewrite Hr. apply in_or_app. right. left. reflexivity.
    + apply is_admin_name_admin, Hg.
    + reflexivity.
Qed.

Lemma ensureAdminCompany_effect_witness :
  let r := ensureAdminCompany (conn_of (fx_forum_db [] [])) in
  r = (Ret tt, snd r) /\ has_col (fx_forum_db [] []) TCompany "name" = true /\
  (exists x, In x (s_rows (c_db (snd r)) TCompany) /\ is_admin_name x = true) /\
  (s_rows (c_db (snd r)) TCompany = s_rows (fx_forum_db [] []) TCompany \/
   exists x, s_rows (c_db (snd r)) TCompany = (s_rows (fx_forum_db [] []) TCompany ++ [x])%list /\
     get x "name" = VStr "Admin") /\
  forall t, t <> TCompany -> s_rows (c_db (snd r)) t = s_rows (fx_forum_db [] []) t.
Proof.
  intros r. assert (E : r = (Ret tt, snd r)) by reflexivity.
  split; [exact E|]. split; [reflexivity|]. exact (ensureAdminCompany_effect _ _ E eq_refl).
Defined.

Lemma ensureAdminCompany_idempotent_witness :
  let r := ensureAdminCompany (conn_of (fx_forum_db [] [])) in
  r = (Ret tt, snd r) /\ ensureAdminCompany (snd r) = (Ret tt, snd r).
Proof.
  intros r. assert (E : r = (Ret tt, snd r)) by reflexivity.
  split; [exact E|]. exact (ensureAdminCompany_idempotent _ _ E).
Defined.

(** ** GET /api/forum/posts/:id/comments *)

Lemma resolveColumn_in cols cands c : resolveColumn cols cands = Some c -> In c cols.
Proof.
  rewrite resolveColumn_fold. intros H. apply fold_first_found in H as (pre & cand & post & _ & Hc & _).
  apply lookup_some in Hc as [Hin _]. exact Hin.
Qed.

Lemma has_col_of_resolve st t cands c :
  resolveColumn (s_cols st t) cands = Some c -> has_col st t c = true.
Proof.
  intros H. apply resolveColumn_in in H. unfold has_col. apply existsb_exists.
  exists c. split; [exact H|apply String.eqb_refl].
Qed.

Lemma author_column_conn_of a b c db :
  exists x, Forum.author_column a b c (conn_of db) = (Ret x, conn_of db) /\
    match x with
    | Some (col, _) => a = Some col \/ b = Some col \/ c = Some col
    | None => a = None /\ b = None /\ c = None
    end.
Proof.
  destruct a as [a|]; [eexists; split; [reflexivity|left; reflexivity]|].
  destruct b as [b|]; [eexists; split; [reflexivity|right; left; reflexivity]|].
  destruct c as [c|]; [|eexists; split; [reflexivity|repeat split]].
  unfold Forum.author_column, getForeignKeyTarget, mbind, pool_read.
  cbv beta iota zeta delta [next_fault conn_of c_faults c_db c_work c_log].
  destruct (fk_target db TComment c) as [t|]; [destruct (String.eqb (lower t) "user")|];
    (eexists; split; [reflexivity|right; right; reflexivity]).
Qed.

Lemma sql_eq_eq a b : Listing.sql_eq a b = true -> a = b.
Proof.
  destruct a, b; simpl; try discriminate; intros E.
  - apply Z.eqb_eq in E. subst. reflexivity.
  - apply String.eqb_eq in E. subst. reflexivity.
  - apply Bool.eqb_prop in E. subst. reflexivity.
Qed.

Lemma filter_sql_eq_id rows v :
  NoDup (map (fun r => get r "id") rows) ->
  (length (filter (fun r => Listing.sql_eq (get r "id") v) rows) <= 1)%nat.
Proof.
  induction rows as [|r rs IH]; simpl; intros Hn; [lia|].
  apply NoDup_cons_iff in Hn as [Hr Hn].
  destruct (Listing.sql_eq (get r "id") v) eqn:E; simpl; [|exact (IH Hn)].
  destruct (filter _ rs) as [|r' l] eqn:Ef; simpl; [lia|].
  assert (Hin : In r' (filter (fun r => Listing.sql_eq (get r "id") v) rs)) by (rewrite Ef; left; reflexivity).
  apply filter_In in Hin as [Hin E'].
  apply sql_eq_eq in E, E'. exfalso. apply Hr. rewrite E, <- E'. exact (in_map (fun r => get r "id") _ _ Hin).
Qed.

Lemma left_join_single rows v :
  NoDup (map (fun r => get r "id") rows) -> length (left_join rows v) = 1%nat.
Proof.
  intros Hn. pose proof (filter_sql_eq_id rows v Hn) as H. unfold left_join.
  destruct (filter _ rows) as [|r [|r' l]]; simpl in *; [reflexivity|reflexivity|lia].
Qed.

Lemma flat_map_single {A B} (f : A -> list B) l :
  length l = 1%nat -> (forall x, In x l -> length (f x) = 1%nat) -> length (flat_map f l) = 1%nat.
Proof.
  destruct l as [|x [|y l]]; simpl; try discriminate. intros _ H.
  rewrite app_nil_r. apply H. left. reflexivity.
Qed.

Lemma get_comment_row_id cc cm co : get (comment_row cc cm co) "id" = get cm "id".
Proof. reflexivity. Qed.

Lemma map_id_flat_map cc (j : row -> list (option row)) l :
  (forall cm, In cm l -> length (j cm) = 1%nat) ->
  map (fun r => get r "id") (flat_map (fun cm => map (comment_row cc cm) (j cm)) l) =
  map (fun cm => get cm "id") l.
Proof.
  induction l as [|cm l IH]; simpl; intros H; [reflexivity|].
  pose proof (H cm (or_introl eq_refl)) as H1.
  destruct (j cm) as [|o [|o' t]]; simpl in H1; try discriminate.
  simpl. rewrite get_comment_row_id. f_equal. apply IH. intros x Hx. exact (H x (or_intror Hx)).
Qed.

Lemma insert_by_perm le x l : Permutation (Listing.insert_by le x l) (x :: l).
Proof.
  induction l as [|y l IH]; simpl; [reflexivity|].
  destruct (le x y); [reflexivity|].
  rewrite IH. apply perm_swap.
Qed.

Lemma sort_by_perm le l : Permutation (Listing.sort_by le l) l.
Proof.
  induction l as [|x l IH]; simpl; [reflexivity|].
  unfold Listing.sort_by in *. simpl. rewrite insert_by_perm. apply perm_skip, IH.
Qed.

Lemma id_le_total a b : id_le a b = false -> id_le b a = true.
Proof.
  unfold id_le, Listing.nulls_last_le.
  destruct (id_key a), (id_key b); try discriminate; try reflexivity.
  intros E. apply Z.leb_gt in E. apply Z.leb_le. lia.
Qed.

Lemma has_cols_intro st t cs : (forall c, In c cs -> has_col st t c = true) -> has_cols st t cs = true.
Proof. intros H. apply forallb_forall, H. Qed.

Lemma has_cols_elim st t cs c : has_cols st t cs = true -> In c cs -> has_col st t c = true.
Proof. intros H. apply forallb_forall, H. Qed.

(** X. Without database faults, on a schema where [Comment] has [id],
    [content] and a post column, and [Company] and [User] have unique ids,
    the comments of post [k] come out as exactly one row per comment whose
    post column is [k] (a LEFT JOIN never drops or repeats a comment), in
    ascending order of the creation column when there is one, of the id
    otherwise. *)
Theorem list_comments_one_per_comment db k pc :
  k <> 0 ->
  resolveColumn (s_cols db TComment) ["postId"; "post_id"] = Some pc ->
  has_cols db TComment ["id"; "content"] = true ->
  has_cols db TCompany ["id"; "name"] = true -> has_cols db TUser ["id"; "companyId"] = true ->
  NoDup (row_ids db TCompany) -> NoDup (row_ids db TUser) ->
  let createdAtColumn := resolveColumn (s_cols db TComment) ["createdAt"; "created_at"] in
  exists rows,
    Routes.list_comments (Some k) (conn_of db) = (Ret (ok (JsArr (map json_of_row rows))), conn_of db) /\
    Permutation (map (fun r => get r "id") rows)
                (map (fun cm => get cm "id") (filter (fun cm => is_int (get cm pc) k) (s_rows db TComment))) /\
    Sorted (fun a b => (match createdAtColumn with Some _ => Listing.created_le | None => id_le end) a b = true)
           rows.
Proof.
  intros Hk Hpc Hc Hco Hu Hnc Hnu cc.
  destruct (author_column_conn_of (resolveColumn (s_cols db TComment) ["companyId"; "company_id"])
              (resolveColumn (s_cols db TComment) ["userId"; "user_id"])
              (resolveColumn (s_cols db TComment) ["authorId"; "author_id"]) db) as (x & Ex & Hx).
  assert (Hq : exists rows, comments_of k pc cc x db = Some rows /\
    Permutation (map (fun r => get r "id") rows)
                (map (fun cm => get cm "id") (filter (fun cm => is_int (get cm pc) k) (s_rows db TComment))) /\
    Sorted (fun a b => (match cc with Some _ => Listing.created_le | None => id_le end) a b = true) rows).
  { unfold comments_of.
    replace (has_cols db TComment _) with true.
    2: { symmetry. apply has_cols_intro. intros col Hin.
         apply in_app_or in Hin as [Hin|Hin]; [|apply in_app_or in Hin as [Hin|Hin]].
         - destruct Hin as [<-|[<-|[<-|[]]]].
           + exact (has_cols_elim _ _ _ _ Hc (or_introl eq_refl)).
           + exact (has_cols_elim _ _ _ _ Hc (or_intror (or_introl eq_refl))).
           + exact (has_col_of_resolve _ _ _ _ Hpc).
         - unfold cc in Hin. destruct (resolveColumn _ ["createdAt"; "created_at"]) eqn:E; [|destruct Hin].
           destruct Hin as [<-|[]]. exact (has_col_of_resolve _ _ _ _ E).
         - destruct x as [[a kind]|]; [|destruct Hin]. destruct Hin as [<-|[]].
           destruct Hx as [Hx|[Hx|Hx]]; exact (has_col_of_resolve _ _ _ _ Hx). }
    replace (match x with None => true | Some (_, Forum.ByCompany) => _ | Some (_, Forum.ByUser) => _ end)
      with true by (destruct x as [[a []]|]; rewrite ?Hco, ?Hu; reflexivity).
    eexists. split; [reflexivity|]. split.
    - rewrite (Permutation_map _ (sort_by_perm _ _)). rewrite map_id_flat_map; [reflexivity|].
      intros cm _. destruct x as [[a []]|]; [apply left_join_single, Hnc| |reflexivity].
      apply flat_map_single; [apply left_join_single, Hnu|].
      intros [u|] _; [apply left_join_single, Hnc|reflexivity].
    - destruct cc; apply sort_by_sorted; [apply created_le_total|apply id_le_total]. }
  destruct Hq as (rows & Hrows & Hp & Hs). exists rows. split; [|split; assumption].
  unfold Routes.list_comments. int_id_goal Hk. cbv beta iota delta [with_int num_value pg_int]. unfold mtry.
  rewrite bind_getTableColumns_conn_of. cbv beta zeta. rewrite Hpc. cbv iota beta.
  unfold mbind at 1. rewrite Ex. unfold mbind. unfold cc in Hrows. erewrite pool_read_conn_of; [reflexivity|exact Hrows].
Qed.

Lemma list_comments_one_per_comment_witness :
  let db := fx_forum_db ["id"; "content"; "postId"] [] in
  1 <> 0 /\ resolveColumn (s_cols db TComment) ["postId"; "post_id"] = Some "postId" /\
  has_cols db TComment ["id"; "content"] = true /\
  has_cols db TCompany ["id"; "name"] = true /\ has_cols db TUser ["id"; "companyId"] = true /\
  NoDup (row_ids db TCompany) /\ NoDup (row_ids db TUser) /\
  let createdAtColumn := resolveColumn (s_cols db TComment) ["createdAt"; "created_at"] in
  exists rows,
    Routes.list_comments (Some 1) (conn_of db) = (Ret (ok (JsArr (map json_of_row rows))), conn_of db) /\
    Permutation (map (fun r => get r "id") rows)
                (map (fun cm => get cm "id") (filter (fun cm => is_int (get cm "postId") 1) (s_rows db TComment))) /\
    Sorted (fun a b => (match createdAtColumn with Some _ => Listing.created_le | None => id_le end) a b = true)
           rows.
Proof.
  intros db.
  assert (H1 : NoDup (row_ids db TCompany)).
  { vm_compute. constructor; [intros [H|[]]; discriminate H|]. constructor; [intros []|constructor]. }
  assert (H2 : NoDup (row_ids db TUser)).
  { vm_compute. constructor; [intros []|constructor]. }
  split; [lia|]. split; [reflexivity|]. split; [reflexivity|]. split; [reflexivity|].
  split; [reflexivity|]. split; [exact H1|]. split; [exact H2|].
  apply list_comments_one_per_comment; [lia|reflexivity|reflexivity|reflexivity|reflexivity|exact H1|exact H2].
Defined.

Lemma resolveColumn_none cols cands :
  (forall cand c, In cand cands -> In c cols -> lower c = lower cand -> c = "") ->
  resolveColumn cols cands = None.
Proof.
  intros H. rewrite resolveColumn_fold. apply fold_first_none. intros cand Hin.
  apply lookup_none. intros c. apply H, Hin.
Qed.

(** X. When no non-empty column of [Comment] is [postId] or [post_id] up to
    case, listing the comments of any post answers 500 with "Comment schema
    is missing post reference." and reads nothing but the column list. *)
Theorem list_comments_missing_post_column db k :
  k <> 0 ->
  (forall cand c, In cand ["postId"; "post_id"] -> In c (s_cols db TComment) -> lower c = lower cand -> c = "") ->
  Routes.list_comments (Some k) (conn_of db) =
    (Ret (fail_with 500 "Comment schema is missing post reference."), conn_of db).
Proof.
  intros Hk H. unfold Routes.list_comments. int_id_goal Hk. cbv beta iota delta [with_int num_value pg_int]. unfold mtry.
  rewrite bind_getTableColumns_conn_of. cbv beta zeta. rewrite (resolveColumn_none _ _ H). reflexivity.
Qed.

Lemma list_comments_missing_post_column_witness :
  let db := fx_forum_db ["id"; "content"; "PostRef"] [] in
  2 <> 0 /\
  (forall cand c, In cand ["postId"; "post_id"] -> In c (s_cols db TComment) -> lower c = lower cand -> c = "") /\
  Routes.list_comments (Some 2) (conn_of db) =
    (Ret (fail_with 500 "Comment schema is missing post reference."), conn_of db).
Proof.
  intros db.
  assert (H : forall cand c, In cand ["postId"; "post_id"] -> In c (s_cols db TComment) ->
                lower c = lower cand -> c = "").
  { intros cand c Hcand Hc E. exfalso.
    destruct Hcand as [<-|[<-|[]]]; destruct Hc as [<-|[<-|[<-|[]]]]; vm_compute in E; discriminate E. }
  split; [lia|]. split; [exact H|]. apply list_comments_missing_post_column; [lia|exact H].
Defined.

Lemma filter_find_none {A} (p : A -> bool) l : find p l = None -> filter p l = [].
Proof.
  induction l as [|a l IH]; simpl; [reflexivity|].
  destruct (p a); [discriminate|exact IH].
Qed.

Lemma filter_find_some {A} (p : A -> bool) l x :
  find p l = Some x -> exists rest, filter p l = x :: rest.
Proof.
  induction l as [|a l IH]; simpl; [discriminate|].
  destruct (p a); [intros [= ->]; eexists; reflexivity|exact IH].
Qed.

Lemma left_join_find rows v :
  NoDup (map (fun r => get r "id") rows) ->
  left_join rows v = [find (fun r => Listing.sql_eq (get r "id") v) rows].
Proof.
  intros Hn. pose proof (filter_sql_eq_id rows v Hn) as Hl. unfold left_join.
  destruct (find _ rows) eqn:F.
  - apply filter_find_some in F as [rest E]. rewrite E in *.
    destruct rest; simpl in *; [reflexivity|lia].
  - rewrite (filter_find_none _ _ F). reflexivity.
Qed.

Lemma profile_company_step {B} db m (k : json -> M B) :
  has_cols db TCompany ["id"; "name"] = true -> m <> 0 ->
  mbind (if value_truthy (VInt m) then
           (companyColumns <- getTableColumns TCompany;;
            companyResult <- pool_read (profile_company_of companyColumns (VInt m));;
            mret (match companyResult with c :: _ => json_of_row c | [] => JsNull end))
         else mret JsNull) k (conn_of db) =
  k (match find (fun c => is_int (get c "id") m) (s_rows db TCompany) with
     | Some c => json_of_row (profile_company_row (s_cols db TCompany) c)
     | None => JsNull end) (conn_of db).
Proof.
  intros Hc Hm. simpl value_truthy. rewrite (proj2 (Z.eqb_neq m 0) Hm). simpl negb. cbv iota.
  unfold mbind at 1. rewrite bind_getTableColumns_conn_of. cbv beta.
  unfold mbind at 1. erewrite pool_read_conn_of.
  2:{ unfold profile_company_of. rewrite has_cols_app, Hc, has_cols_filter. reflexivity. }
  destruct (find _ _) eqn:F.
  - apply filter_find_some in F as [rest E]. rewrite E. reflexivity.
  - rewrite (filter_find_none _ _ F). reflexivity.
Qed.

(** X. Without database faults, on a schema where [User] has [id], [email]
    and [companyId] (an integer or [NULL]) and [Company] has [id] and
    [name], GET /api/profile for a user id [k <> 0] and a [companyId] query
    parameter that is an integer or not a number answers 404 exactly when
    no user has id [k]; otherwise it returns that user and the company whose
    id is the [companyId] query parameter when that is a non-zero integer,
    else the user's own [companyId]; the company is [null] when that id is
    [NULL] or names no company.  Nothing checks that the user belongs to
    the company of the query parameter. *)
Theorem get_profile_result db k p :
  k <> 0 -> (forall x, p <> Some (JOther x)) ->
  has_cols db TUser ["id"; "email"; "companyId"] = true ->
  has_cols db TCompany ["id"; "name"] = true ->
  int_valued db TUser "companyId" = true ->
  Routes.get_profile (Some k) p (conn_of db) =
  (Ret (match find (fun u => is_int (get u "id") k) (s_rows db TUser) with
        | None => fail_with 404 "User not found."
        | Some u =>
          ok (JsObj [("user", json_of_row (profile_user_row (s_cols db TUser) u));
                     ("company",
                      match (if num_truthy p then num_value p else get u "companyId") with
                      | VInt m =>
                        if Z.eqb m 0 then JsNull else
                        match find (fun c => is_int (get c "id") m) (s_rows db TCompany) with
                        | Some c => json_of_row (profile_company_row (s_cols db TCompany) c)
                        | None => JsNull
                        end
                      | _ => JsNull
                      end)])
        end), conn_of db).
Proof.
  intros Hk Hp Hu Hc Hiv. unfold Routes.get_profile. int_id_goal Hk.
  unfold mtry. rewrite bind_getTableColumns_conn_of. cbv beta.
  unfold mbind at 1. erewrite pool_read_conn_of.
  2:{ unfold with_int. cbn [num_value pg_int]. unfold profile_user_of. rewrite has_cols_app, Hu, has_cols_filter. reflexivity. }
  destruct (find _ (s_rows db TUser)) as [u|] eqn:F; [|rewrite (filter_find_none _ _ F); reflexivity].
  pose proof (find_some _ _ F) as [Hin _].
  apply filter_find_some in F as [rest E]. rewrite E. cbn [map]. cbv beta iota.
  change (get (profile_user_row (s_cols db TUser) u) "companyId") with (get u "companyId").
  destruct (num_truthy p) eqn:Np.
  - destruct p as [[n|x]|]; [|exfalso; exact (Hp x eq_refl)|discriminate].
    cbn [num_truthy jn_truthy] in Np. apply negb_true_iff, Z.eqb_neq in Np.
    change (num_value (Some (JInt n))) with (VInt n). rewrite (profile_company_step db n _ Hc Np), (proj2 (Z.eqb_neq n 0) Np).
    reflexivity.
  - unfold int_valued in Hiv. rewrite forallb_forall in Hiv. specialize (Hiv u Hin).
    destruct (get u "companyId") as [|m| |] eqn:G; try discriminate.
    + reflexivity.
    + destruct (Z.eqb m 0) eqn:Em.
      * apply Z.eqb_eq in Em. subst m. reflexivity.
      * apply Z.eqb_neq in Em. rewrite (profile_company_step db m _ Hc Em). reflexivity.
Qed.

Lemma get_profile_result_witness :
  let db := fx_forum_db [] [] in
  5 <> 0 /\ (forall x, Some (JInt 1) <> Some (JOther x)) /\
  has_cols db TUser ["id"; "email"; "companyId"] = true /\
  has_cols db TCompany ["id"; "name"] = true /\
  int_valued db TUser "companyId" = true /\
  Routes.get_profile (Some 5) (Some 1) (conn_of db) =
  (Ret (match find (fun u => is_int (get u "id") 5) (s_rows db TUser) with
        | None => fail_with 404 "User not found."
        | Some u =>
          ok (JsObj [("user", json_of_row (profile_user_row (s_cols db TUser) u));
                     ("company",
                      match (if num_truthy (Some 1) then num_value (Some 1) else get u "companyId") with
                      | VInt m =>
                        if Z.eqb m 0 then JsNull else
                        match find (fun c => is_int (get c "id") m) (s_rows db TCompany) with
                        | Some c => json_of_row (profile_company_row (s_cols db TCompany) c)
                        | None => JsNull
                        end
                      | _ => JsNull
                      end)])
        end), conn_of db).
Proof.
  cbv zeta. split; [lia|]. split; [intros x; discriminate|].
  split; [reflexivity|]. split; [reflexivity|]. split; [reflexivity|].
  apply (get_profile_result (fx_forum_db [] []) 5 (Some 1));
    [lia|intros x; discriminate|reflexivity|reflexivity|reflexivity].
Defined.

Lemma flat_map_left_join_find ucols comps l :
  NoDup (map (fun r => get r "id") comps) ->
  flat_map (fun u => map (admin_user_row ucols u) (left_join comps (get u "companyId"))) l =
  map (fun u => admin_user_row ucols u
                  (find (fun c => Listing.sql_eq (get c "id") (get u "companyId")) comps)) l.
Proof.
  intros Hn. induction l as [|u l IH]; simpl; [reflexivity|].
  rewrite (left_join_find comps _ Hn). simpl. f_equal. exact IH.
Qed.

(** X. Without database faults, on a schema where [User] has [id],
    [email], [role] and [companyId], [Company] has [id] and [name], and
    ids are unique, GET /api/admin/users returns one row per user, ordered
    by id, largest first; each row is the user's fields with the name of
    the company whose id is the user's [companyId], or [NULL] when there is
    none. *)
Theorem admin_users_listing db :
  has_cols db TUser ["id"; "email"; "role"; "companyId"] = true ->
  has_cols db TCompany ["id"; "name"] = true ->
  NoDup (row_ids db TUser) -> NoDup (row_ids db TCompany) ->
  exists rows,
    Routes.admin_users (conn_of db) = (Ret (ok (JsArr (map json_of_row rows))), conn_of db) /\
    Permutation (map (fun r => get r "id") rows) (row_ids db TUser) /\
    Sorted (fun x y => id_ge x y = true) rows /\
    forall x, In x rows -> exists u, In u (s_rows db TUser) /\
      x = admin_user_row (s_cols db TUser) u
            (find (fun c => Listing.sql_eq (get c "id") (get u "companyId")) (s_rows db TCompany)).
Proof.
  intros Hu Hc _ Hn.
  set (f u := admin_user_row (s_cols db TUser) u
                (find (fun c => Listing.sql_eq (get c "id") (get u "companyId")) (s_rows db TCompany))).
  exists (Listing.sort_by id_ge (map f (s_rows db TUser))). split; [|split; [|split]].
  - unfold Routes.admin_users, mtry. rewrite bind_getTableColumns_conn_of. cbv beta.
    unfold mbind at 1. erewrite pool_read_conn_of; [reflexivity|].
    unfold admin_users_of. rewrite has_cols_app, Hu, has_cols_filter, Hc. simpl.
    rewrite (flat_map_left_join_find _ _ _ Hn). reflexivity.
  - unfold row_ids. rewrite (Permutation_map _ (sort_by_perm id_ge _)), map_map. reflexivity.
  - apply sort_by_sorted. intros a b H. exact (id_le_total b a H).
  - intros x Hx. apply in_sort_by, in_map_iff in Hx as (u & <- & Hin). exists u. auto.
Qed.

Lemma admin_users_listing_witness :
  let db := fx_forum_db [] [] in
  has_cols db TUser ["id"; "email"; "role"; "companyId"] = true /\
  has_cols db TCompany ["id"; "name"] = true /\
  NoDup (row_ids db TUser) /\ NoDup (row_ids db TCompany) /\
  exists rows,
    Routes.admin_users (conn_of db) = (Ret (ok (JsArr (map json_of_row rows))), conn_of db) /\
    Permutation (map (fun r => get r "id") rows) (row_ids db TUser) /\
    Sorted (fun x y => id_ge x y = true) rows /\
    forall x, In x rows -> exists u, In u (s_rows db TUser) /\
      x = admin_user_row (s_cols db TUser) u
            (find (fun c => Listing.sql_eq (get c "id") (get u "companyId")) (s_rows db TCompany)).
Proof.
  cbv zeta.
  assert (H1 : NoDup (row_ids (fx_forum_db [] []) TUser)).
  { vm_compute. constructor; [intros []|constructor]. }
  assert (H2 : NoDup (row_ids (fx_forum_db [] []) TCompany)).
  { vm_compute. constructor; [intros [H|[]]; discriminate|constructor; [intros []|constructor]]. }
  split; [reflexivity|]. split; [reflexivity|]. split; [exact H1|]. split; [exact H2|].
  apply (admin_users_listing (fx_forum_db [] [])); [reflexivity|reflexivity|exact H1|exact H2].
Defined.

Lemma recent_comments_spec (withId : bool) (n : nat) (db : store) :
  has_cols db TComment ((if withId then ["id"] else []) ++
                        ["content"; "createdAt"; "authorId"; "postId"])%list = true ->
  has_cols db TCompany ["id"; "name"] = true -> has_cols db TPost ["id"; "title"] = true ->
  exists rows,
    recent_comments_of withId n db = Some rows /\
    (length rows <= n)%nat /\
    Sorted (fun x y => Listing.created_ge x y = true) rows /\
    (forall x, In x rows -> exists cm co p,
       In cm (s_rows db TComment) /\ In co (s_rows db TCompany) /\ In p (s_rows db TPost) /\
       Listing.sql_eq (get co "id") (get cm "authorId") = true /\
       Listing.sql_eq (get p "id") (get cm "postId") = true /\ x = admin_comment_row withId cm co p) /\
    (forall cm co p,
       In cm (s_rows db TComment) -> In co (s_rows db TCompany) -> In p (s_rows db TPost) ->
       Listing.sql_eq (get co "id") (get cm "authorId") = true ->
       Listing.sql_eq (get p "id") (get cm "postId") = true ->
       In (admin_comment_row withId cm co p) rows \/
       (length rows = n /\ forall y, In y rows -> Listing.created_ge y (admin_comment_row withId cm co p) = true)).
Proof.
  intros Hm Hc Hp.
  set (all := flat_map (fun cm => flat_map (fun co => flat_map (fun p =>
                if (Listing.sql_eq (get co "id") (get cm "authorId") &&
                    Listing.sql_eq (get p "id") (get cm "postId"))%bool
                then [admin_comment_row withId cm co p] else [])
              (s_rows db TPost)) (s_rows db TCompany)) (s_rows db TComment)).
  set (s := Listing.sort_by Listing.created_ge all).
  assert (Hs : Sorted (fun x y => Listing.created_ge x y = true) s)
    by (apply sort_by_sorted, created_ge_total).
  assert (Hall : forall x, In x s <-> exists cm co p,
       In cm (s_rows db TComment) /\ In co (s_rows db TCompany) /\ In p (s_rows db TPost) /\
       Listing.sql_eq (get co "id") (get cm "authorId") = true /\
       Listing.sql_eq (get p "id") (get cm "postId") = true /\ x = admin_comment_row withId cm co p).
  { intros x. unfold s. rewrite in_sort_by. unfold all. rewrite in_flat_map. split.
    - intros (cm & Hcm & Hx). apply in_flat_map in Hx as (co & Hco & Hx).
      apply in_flat_map in Hx as (p & Hp' & Hx).
      destruct (Listing.sql_eq _ (get cm "authorId")) eqn:E1; [|destruct Hx].
      destruct (Listing.sql_eq _ (get cm "postId")) eqn:E2; [|destruct Hx].
      destruct Hx as [<-|[]]. exists cm, co, p. auto 7.
    - intros (cm & co & p & Hcm & Hco & Hp' & E1 & E2 & ->). exists cm. split; [exact Hcm|].
      apply in_flat_map. exists co. split; [exact Hco|].
      apply in_flat_map. exists p. split; [exact Hp'|]. rewrite E1, E2. left. reflexivity. }
  exists (firstn n s). split; [|split; [|split; [|split]]].
  - unfold recent_comments_of. rewrite Hm, Hc, Hp. reflexivity.
  - apply firstn_le_length.
  - apply firstn_sorted, Hs.
  - intros x Hx. apply Hall. rewrite <- (firstn_skipn n s). apply in_or_app. left. exact Hx.
  - intros cm co p Hcm Hco Hp' E1 E2.
    assert (Hin : In (admin_comment_row withId cm co p) s) by (apply Hall; exists cm, co, p; auto 7).
    rewrite <- (firstn_skipn n s) in Hin. apply in_app_or in Hin as [Hin|Hin]; [left; exact Hin|].
    right. split.
    + apply firstn_length_le.
      destruct (Nat.le_gt_cases (length s) n) as [Hl|Hl]; [|lia].
      rewrite skipn_all2 in Hin; [destruct Hin|exact Hl].
    + intros y Hy. apply (firstn_skipn_le _ (fun x y z H1 H2 => created_le_trans z y x H2 H1) n s Hs y _ Hy Hin).
Qed.

(** X. Without database faults, on a schema where [Comment] has [id],
    [content], [createdAt], [authorId] and [postId], [Company] has [id]
    and [name] and [Post] has [id] and [title], GET /api/admin/messages
    returns at most 20 messages, newest first; each is a comment with the
    name of its author company and the title of its post, and a comment
    linked to both is left out only when 20 messages at least as new are
    returned. *)
Theorem admin_messages_listing db :
  has_cols db TComment ["id"; "content"; "createdAt"; "authorId"; "postId"] = true ->
  has_cols db TCompany ["id"; "name"] = true -> has_cols db TPost ["id"; "title"] = true ->
  exists rows,
    Routes.admin_messages (conn_of db) = (Ret (ok (JsArr (map admin_message_json rows))), conn_of db) /\
    (length rows <= 20)%nat /\
    Sorted (fun x y => Listing.created_ge x y = true) rows /\
    (forall x, In x rows -> exists cm co p,
       In cm (s_rows db TComment) /\ In co (s_rows db TCompany) /\ In p (s_rows db TPost) /\
       Listing.sql_eq (get co "id") (get cm "authorId") = true /\
       Listing.sql_eq (get p "id") (get cm "postId") = true /\
       admin_message_json x =
         JsObj [("id", json_of_value (get cm "id")); ("from", json_of_value (get co "name"));
                ("subject", json_of_value (get p "title"));
                ("createdAt", json_of_value (get cm "createdAt"));
                ("preview", json_of_value (get cm "content"))]) /\
    (forall cm co p,
       In cm (s_rows db TComment) -> In co (s_rows db TCompany) -> In p (s_rows db TPost) ->
       Listing.sql_eq (get co "id") (get cm "authorId") = true ->
       Listing.sql_eq (get p "id") (get cm "postId") = true ->
       In (admin_comment_row true cm co p) rows \/
       (length rows = 20%nat /\
        forall y, In y rows -> Listing.created_ge y (admin_comment_row true cm co p) = true)).
Proof.
  intros Hm Hc Hp.
  destruct (recent_comments_spec true 20 db Hm Hc Hp) as (rows & E & Hl & Hs & Hsnd & Hcmp).
  exists rows. split; [|split; [exact Hl|split; [exact Hs|split; [|exact Hcmp]]]].
  - unfold Routes.admin_messages, mtry. unfold mbind at 1. erewrite pool_read_conn_of by exact E.
    reflexivity.
  - intros x Hx. destruct (Hsnd x Hx) as (cm & co & p & H1 & H2 & H3 & H4 & H5 & ->).
    exists cm, co, p. repeat split; auto.
Qed.

Lemma summary_posts_bound db :
  has_cols db TPost ["id"; "title"; "createdAt"; "authorId"] = true ->
  has_cols db TCompany ["id"; "name"] = true ->
  exists rows, summary_posts_of db = Some rows /\ (length rows <= 4)%nat.
Proof.
  intros Hp Hc. unfold summary_posts_of. rewrite Hp, Hc. eexists. split; [reflexivity|].
  apply firstn_le_length.
Qed.

(** X. Without database faults, on a schema where [Post] has [id],
    [title], [createdAt] and [authorId], [Company] has [id] and [name] and
    [Comment] has [content], [createdAt], [authorId] and [postId],
    GET /api/admin/summary answers 200 with [stats] holding the numbers of
    [User], [Company], [Post] and [Comment] rows, at most 5 [activity]
    entries and at most 4 [recentPosts]. *)
Theorem admin_summary_result fmt db :
  has_cols db TPost ["id"; "title"; "createdAt"; "authorId"] = true ->
  has_cols db TCompany ["id"; "name"] = true ->
  has_cols db TComment ["content"; "createdAt"; "authorId"; "postId"] = true ->
  exists activity recentPosts,
    Routes.admin_summary fmt (conn_of db) =
      (Ret (ok (JsObj [("stats", JsObj [("users", JsInt (Z.of_nat (length (s_rows db TUser))));
                                        ("companies", JsInt (Z.of_nat (length (s_rows db TCompany))));
                                        ("posts", JsInt (Z.of_nat (length (s_rows db TPost))));
                                        ("comments", JsInt (Z.of_nat (length (s_rows db TComment))))]);
                       ("activity", JsArr activity); ("recentPosts", JsArr recentPosts)])),
       conn_of db) /\
    (length activity <= 5)%nat /\ (length recentPosts <= 4)%nat.
Proof.
  intros Hp Hc Hm.
  assert (Hp' : has_cols db TPost ["id"; "title"] = true).
  { apply has_cols_intro. intros c Hin. apply (has_cols_elim _ _ _ _ Hp). simpl in *. tauto. }
  destruct (summary_posts_bound db Hp Hc) as (ps & Eps & Hps).
  destruct (recent_comments_spec false 5 db Hm Hc Hp') as (rows & E & Hl & _).
  eexists. eexists. split; [|split; [rewrite length_map; exact Hl|rewrite length_map; exact Hps]].
  unfold Routes.admin_summary, mtry. unfold mbind at 1. erewrite pool_read_conn_of by reflexivity.
  unfold mbind at 1. erewrite pool_read_conn_of by exact Eps.
  unfold mbind at 1. erewrite pool_read_conn_of by exact E.
  reflexivity.
Qed.

Lemma authorId_missing withId n db :
  has_col db TComment "authorId" = false -> recent_comments_of withId n db = None.
Proof.
  intros H. unfold recent_comments_of.
  destruct (has_cols db TComment _) eqn:E; [|reflexivity].
  apply (has_cols_elim _ _ _ "authorId") in E; [congruence|].
  apply in_or_app. right. simpl. tauto.
Qed.

(** X. GET /api/admin/messages and GET /api/admin/summary join [Comment]
    on [authorId]: on a schema whose [Comment] has no [authorId] column
    (a comment linked to a user or a company column), both answer 500
    "Server error." and change nothing. *)
Theorem admin_comment_views_need_authorId fmt db :
  has_col db TComment "authorId" = false ->
  Routes.admin_messages (conn_of db) = (Ret (fail_with 500 "Server error."), conn_of db) /\
  Routes.admin_summary fmt (conn_of db) = (Ret (fail_with 500 "Server error."), conn_of db).
Proof.
  intros H. split.
  - unfold Routes.admin_messages, mtry, mbind, pool_read. simpl.
    rewrite (authorId_missing true 20 db H). reflexivity.
  - unfold Routes.admin_summary, mtry. unfold mbind at 1. erewrite pool_read_conn_of by reflexivity.
    unfold mbind at 1. destruct (summary_posts_of db) eqn:Eps.
    + erewrite pool_read_conn_of by exact Eps.
      unfold mbind, pool_read. simpl. rewrite (authorId_missing false 5 db H). reflexivity.
    + unfold pool_read at 1. simpl. rewrite Eps. reflexivity.
Qed.

Lemma admin_messages_listing_witness :
  let db := fx_forum_db ["id"; "content"; "createdAt"; "authorId"; "postId"] [] in
  has_cols db TComment ["id"; "content"; "createdAt"; "authorId"; "postId"] = true /\
  has_cols db TCompany ["id"; "name"] = true /\ has_cols db TPost ["id"; "title"] = true /\
  exists rows,
    Routes.admin_messages (conn_of db) = (Ret (ok (JsArr (map admin_message_json rows))), conn_of db) /\
    (length rows <= 20)%nat /\
    Sorted (fun x y => Listing.created_ge x y = true) rows /\
    (forall x, In x rows -> exists cm co p,
       In cm (s_rows db TComment) /\ In co (s_rows db TCompany) /\ In p (s_rows db TPost) /\
       Listing.sql_eq (get co "id") (get cm "authorId") = true /\
       Listing.sql_eq (get p "id") (get cm "postId") = true /\
       admin_message_json x =
         JsObj [("id", json_of_value (get cm "id")); ("from", json_of_value (get co "name"));
                ("subject", json_of_value (get p "title"));
                ("createdAt", json_of_value (get cm "createdAt"));
                ("preview", json_of_value (get cm "content"))]) /\
    (forall cm co p,
       In cm (s_rows db TComment) -> In co (s_rows db TCompany) -> In p (s_rows db TPost) ->
       Listing.sql_eq (get co "id") (get cm "authorId") = true ->
       Listing.sql_eq (get p "id") (get cm "postId") = true ->
       In (admin_comment_row true cm co p) rows \/
       (length rows = 20%nat /\
        forall y, In y rows -> Listing.created_ge y (admin_comment_row true cm co p) = true)).
Proof.
  cbv zeta. split; [reflexivity|]. split; [reflexivity|]. split; [reflexivity|].
  apply (admin_messages_listing (fx_forum_db ["id"; "content"; "createdAt"; "authorId"; "postId"] []));
    reflexivity.
Defined.

Lemma admin_summary_result_witness :
  let db := fx_forum_db ["id"; "content"; "createdAt"; "authorId"; "postId"] [] in
  has_cols db TPost ["id"; "title"; "createdAt"; "authorId"] = true /\
  has_cols db TCompany ["id"; "name"] = true /\
  has_cols db TComment ["content"; "createdAt"; "authorId"; "postId"] = true /\
  exists activity recentPosts,
    Routes.admin_summary (fun _ => "t") (conn_of db) =
      (Ret (ok (JsObj [("stats", JsObj [("users", JsInt (Z.of_nat (length (s_rows db TUser))));
                                        ("companies", JsInt (Z.of_nat (length (s_rows db TCompany))));
                                        ("posts", JsInt (Z.of_nat (length (s_rows db TPost))));
                                        ("comments", JsInt (Z.of_nat (length (s_rows db TComment))))]);
                       ("activity", JsArr activity); ("recentPosts", JsArr recentPosts)])),
       conn_of db) /\
    (length activity <= 5)%nat /\ (length recentPosts <= 4)%nat.
Proof.
  cbv zeta. split; [reflexivity|]. split; [reflexivity|]. split; [reflexivity|].
  apply (admin_summary_result (fun _ => "t")
           (fx_forum_db ["id"; "content"; "createdAt"; "authorId"; "postId"] [])); reflexivity.
Defined.

Lemma admin_comment_views_need_authorId_witness :
  let db := fx_forum_db ["id"; "content"; "createdAt"; "companyId"; "postId"] [] in
  has_col db TComment "authorId" = false /\
  Routes.admin_messages (conn_of db) = (Ret (fail_with 500 "Server error."), conn_of db) /\
  Routes.admin_summary (fun _ => "t") (conn_of db) = (Ret (fail_with 500 "Server error."), conn_of db).
Proof.
  cbv zeta. split; [reflexivity|].
  apply (admin_comment_views_need_authorId (fun _ => "t")
           (fx_forum_db ["id"; "content"; "createdAt"; "companyId"; "postId"] [])); reflexivity.
Defined.

Lemma string_leb_trans a b c :
  String.leb a b = true -> String.leb b c = true -> String.leb a c = true.
Proof.
  unfold String.leb. revert b c.
  induction a as [|x a IH]; intros [|y b] [|z c]; simpl; try discriminate; try reflexivity.
  unfold Ascii.compare.
  destruct (N.compare_spec (N_of_ascii x) (N_of_ascii y)) as [E1|E1|E1];
  destruct (N.compare_spec (N_of_ascii y) (N_of_ascii z)) as [E2|E2|E2];
  destruct (N.compare_spec (N_of_ascii x) (N_of_ascii z)) as [E3|E3|E3];
  try discriminate; try lia; try reflexivity.
  apply IH.
Qed.

Lemma string_leb_refl s : String.leb s s = true.
Proof. destruct (String.leb_total s s); assumption. Qed.

Lemma min_text_spec vs :
  (min_text vs = VNull /\ forall s, ~ In (VStr s) vs) \/
  (exists e, min_text vs = VStr e /\ In (VStr e) vs /\
             forall s, In (VStr s) vs -> String.leb e s = true).
Proof.
  induction vs as [|v vs [[E H]|(e & E & Hin & Hle)]]; simpl.
  - left. split; [reflexivity|]. intros s [].
  - rewrite E. destruct v as [| |s|];
      try (left; split; [reflexivity|]; intros s' [C|C]; [discriminate|exact (H s' C)]).
    right. exists s. split; [reflexivity|]. split; [left; reflexivity|].
    intros s' [C|C]; [injection C as <-; apply string_leb_refl|destruct (H s' C)].
  - rewrite E. destruct v as [| |s|];
      try (right; exists e; split; [reflexivity|]; split; [right; exact Hin|];
           intros s' [C|C]; [discriminate|exact (Hle s' C)]).
    right. destruct (String.leb s e) eqn:L.
    + exists s. split; [reflexivity|]. split; [left; reflexivity|].
      intros s' [C|C]; [injection C as <-; apply string_leb_refl|].
      exact (string_leb_trans _ _ _ L (Hle s' C)).
    + exists e. split; [reflexivity|]. split; [right; exact Hin|].
      intros s' [C|C]; [injection C as <-|exact (Hle s' C)].
      destruct (String.leb_total s e) as [L'|L']; [congruence|exact L'].
Qed.

(** X. Without database faults, on a schema where [Company] has [id] and
    [name] and [User] has [id], [companyId] and [email], GET
    /api/admin/companies returns one row per company, ordered by name;
    each row carries the company's id, its employee count and as [admin]
    the least e-mail, in byte order, of the users whose [companyId] is the
    company's id, or [NULL] when none of them has an e-mail. *)
Theorem admin_companies_listing db :
  has_cols db TCompany ["id"; "name"] = true ->
  has_cols db TUser ["id"; "companyId"; "email"] = true ->
  exists rows,
    Routes.admin_companies (conn_of db) = (Ret (ok (JsArr (map json_of_row rows))), conn_of db) /\
    length rows = length (s_rows db TCompany) /\
    Sorted (fun x y => Listing.name_le x y = true) rows /\
    forall x, In x rows -> exists c, In c (s_rows db TCompany) /\
      get x "id" = get c "id" /\ get x "employees" = VInt (Listing.employee_count db c) /\
      let users := filter (fun u => Listing.sql_eq (get u "companyId") (get c "id")) (s_rows db TUser) in
      ((get x "admin" = VNull /\ forall u s, In u users -> get u "email" <> VStr s) \/
       (exists u e, In u users /\ get u "email" = VStr e /\ get x "admin" = VStr e /\
          forall u' s, In u' users -> get u' "email" = VStr s -> String.leb e s = true)).
Proof.
  intros Hc Hu. eexists. split; [|split; [|split]].
  - unfold Routes.admin_companies, mtry. rewrite bind_getTableColumns_conn_of. cbv beta.
    unfold mbind at 1. erewrite pool_read_conn_of; [reflexivity|].
    unfold admin_companies_of. rewrite has_cols_app, Hc, has_cols_filter, Hu. reflexivity.
  - rewrite length_sort_by, length_map. reflexivity.
  - apply sort_by_sorted, name_le_total.
  - intros x Hx. apply in_sort_by, in_map_iff in Hx as (c & <- & Hin).
    exists c. split; [exact Hin|]. split; [reflexivity|]. split; [reflexivity|].
    change (get (admin_company_row _ c _ (admin_email db c)) "admin") with (admin_email db c).
    unfold admin_email. cbv zeta.
    destruct (min_text_spec (map (fun u => get u "email")
                (filter (fun u => Listing.sql_eq (get u "companyId") (get c "id")) (s_rows db TUser))))
      as [[E H]|(e & E & Hin' & Hle)]; rewrite E.
    + left. split; [reflexivity|]. intros u s Hu' Hs. apply (H s). rewrite <- Hs. exact (in_map (fun u => get u "email") _ _ Hu').
    + right. apply in_map_iff in Hin' as (u & Hs & Hu'). exists u, e. split; [exact Hu'|].
      split; [exact Hs|]. split; [reflexivity|].
      intros u' s Hu'' Hs'. apply Hle. rewrite <- Hs'. exact (in_map (fun u => get u "email") _ _ Hu'').
Qed.

Lemma admin_companies_listing_witness :
  let db := fx_forum_db [] [] in
  has_cols db TCompany ["id"; "name"] = true /\
  has_cols db TUser ["id"; "companyId"; "email"] = true /\
  exists rows,
    Routes.admin_companies (conn_of db) = (Ret (ok (JsArr (map json_of_row rows))), conn_of db) /\
    length rows = length (s_rows db TCompany) /\
    Sorted (fun x y => Listing.name_le x y = true) rows /\
    forall x, In x rows -> exists c, In c (s_rows db TCompany) /\
      get x "id" = get c "id" /\ get x "employees" = VInt (Listing.employee_count db c) /\
      let users := filter (fun u => Listing.sql_eq (get u "companyId") (get c "id")) (s_rows db TUser) in
      ((get x "admin" = VNull /\ forall u s, In u users -> get u "email" <> VStr s) \/
       (exists u e, In u users /\ get u "email" = VStr e /\ get x "admin" = VStr e /\
          forall u' s, In u' users -> get u' "email" = VStr s -> String.leb e s = true)).
Proof.
  cbv zeta. split; [reflexivity|]. split; [reflexivity|].
  apply (admin_companies_listing (fx_forum_db [] [])); reflexivity.
Defined.

(** X. Without database faults, on a schema where [Post] has [id],
    [title], [createdAt] and [authorId], [Company] has [id] and [name] and
    [Comment] has [id] and [postId], GET /api/admin/posts returns at most
    12 rows, newest first; each is a post joined with the company whose id
    is its [authorId], with its comment count, and with [views] 0 when
    [Post] has no [views] column. *)
Theorem admin_posts_listing db :
  has_cols db TPost ["id"; "title"; "createdAt"; "authorId"] = true ->
  has_cols db TCompany ["id"; "name"] = true -> has_cols db TComment ["id"; "postId"] = true ->
  exists rows,
    Routes.admin_posts (conn_of db) = (Ret (ok (JsArr (map json_of_row rows))), conn_of db) /\
    (length rows <= 12)%nat /\
    Sorted (fun x y => Listing.created_ge x y = true) rows /\
    forall x, In x rows -> exists p c,
      In p (s_rows db TPost) /\ In c (s_rows db TCompany) /\
      Listing.sql_eq (get c "id") (get p "authorId") = true /\
      get x "id" = get p "id" /\ get x "company" = get c "name" /\
      get x "comments" = VInt (Listing.comment_count db p) /\
      (has_col db TPost "views" = false -> get x "views" = VInt 0).
Proof.
  intros Hp Hc Hm.
  set (cols := s_cols db TPost).
  set (all := flat_map (fun p => flat_map (fun c =>
                if Listing.sql_eq (get c "id") (get p "authorId")
                then [admin_post_row (Admin.has cols "category") (Admin.has cols "status")
                        (Admin.has cols "views") p c (Listing.comment_count db p)] else [])
              (s_rows db TCompany)) (s_rows db TPost)).
  exists (firstn 12 (Listing.sort_by Listing.created_ge all)). split; [|split; [|split]].
  - unfold Routes.admin_posts, mtry. rewrite bind_getTableColumns_conn_of. cbv beta.
    unfold mbind at 1. erewrite pool_read_conn_of; [reflexivity|].
    unfold admin_posts_of. cbv zeta. rewrite has_cols_app, Hp, has_cols_filter, Hc, Hm. reflexivity.
  - apply firstn_le_length.
  - apply firstn_sorted, sort_by_sorted, created_ge_total.
  - intros x Hx.
    assert (Hs : In x (Listing.sort_by Listing.created_ge all)).
    { rewrite <- (firstn_skipn 12 (Listing.sort_by Listing.created_ge all)). apply in_or_app. left. exact Hx. }
    apply in_sort_by in Hs as Hx'. clear Hx Hs. rename Hx' into Hx. unfold all in Hx. apply in_flat_map in Hx as (p & Hp' & Hx).
    apply in_flat_map in Hx as (c & Hc' & Hx).
    destruct (Listing.sql_eq _ _) eqn:E; [|destruct Hx]. destruct Hx as [<-|[]].
    exists p, c. repeat split; try assumption.
    intros Hv. change (has_col db TPost "views") with (Admin.has cols "views") in Hv.
    rewrite Hv. reflexivity.
Qed.

Lemma admin_posts_listing_witness :
  has_cols fx_posts_db TPost ["id"; "title"; "createdAt"; "authorId"] = true /\
  has_cols fx_posts_db TCompany ["id"; "name"] = true /\
  has_cols fx_posts_db TComment ["id"; "postId"] = true /\
  exists rows,
    Routes.admin_posts (conn_of fx_posts_db) = (Ret (ok (JsArr (map json_of_row rows))), conn_of fx_posts_db) /\
    (length rows <= 12)%nat /\
    Sorted (fun x y => Listing.created_ge x y = true) rows /\
    forall x, In x rows -> exists p c,
      In p (s_rows fx_posts_db TPost) /\ In c (s_rows fx_posts_db TCompany) /\
      Listing.sql_eq (get c "id") (get p "authorId") = true /\
      get x "id" = get p "id" /\ get x "company" = get c "name" /\
      get x "comments" = VInt (Listing.comment_count fx_posts_db p) /\
      (has_col fx_posts_db TPost "views" = false -> get x "views" = VInt 0).
Proof.
  split; [reflexivity|]. split; [reflexivity|]. split; [reflexivity|].
  apply admin_posts_listing; reflexivity.
Defined.

Section Keeps.
(** A relation between the committed store before and after a step. *)
Variable R : store -> store -> Prop.
Hypothesis R_refl : forall st, R st st.
Hypothesis R_trans : forall a b c, R a b -> R b c -> R a c.

Lemma keeps_ret {A} (a : A) c : R (c_db c) (c_db (snd (mret a c))).
Proof. apply R_refl. Qed.

Lemma keeps_bind {A B} (m : M A) (k : A -> M B) :
  (forall c, R (c_db c) (c_db (snd (m c)))) ->
  (forall a c, R (c_db c) (c_db (snd (k a c)))) ->
  forall c, R (c_db c) (c_db (snd (mbind m k c))).
Proof.
  intros Hm Hk c. unfold mbind. specialize (Hm c).
  destruct (m c) as [[a|e] c'] eqn:E; simpl in *; [|exact Hm].
  eapply R_trans; [exact Hm|apply Hk].
Qed.

Lemma keeps_try {A} (m : M A) (h : string -> M A) :
  (forall c, R (c_db c) (c_db (snd (m c)))) ->
  (forall e c, R (c_db c) (c_db (snd (h e c)))) ->
  forall c, R (c_db c) (c_db (snd (mtry m h c))).
Proof.
  intros Hm Hh c. unfold mtry. specialize (Hm c).
  destruct (m c) as [[a|e] c'] eqn:E; simpl in *; [exact Hm|].
  eapply R_trans; [exact Hm|apply Hh].
Qed.

Lemma next_fault_db c : c_db (snd (next_fault c)) = c_db c.
Proof. unfold next_fault. destruct (c_faults c); reflexivity. Qed.

Lemma keeps_read {A} (f : store -> option A) c : R (c_db c) (c_db (snd (pool_read f c))).
Proof.
  unfold pool_read. pose proof (next_fault_db c) as E.
  destruct (next_fault c) as [b c1]. simpl in E. rewrite <- E.
  destruct b; [apply R_refl|]. destruct (f (c_db c1)); apply R_refl.
Qed.

Lemma keeps_query {A} (f : store -> option (store * A)) :
  (forall st st' a, f st = Some (st', a) -> R st st') ->
  forall c, R (c_db c) (c_db (snd (pool_query f c))).
Proof.
  intros Hf c. unfold pool_query. pose proof (next_fault_db c) as E.
  destruct (next_fault c) as [b c1]. simpl in E. rewrite <- E.
  destruct b; [apply R_refl|]. destruct (f (c_db c1)) as [[st' a]|] eqn:F; [|apply R_refl].
  exact (Hf _ _ _ F).
Qed.
End Keeps.

Lemma frame_refl t1 t2 st : frame t1 t2 st st.
Proof. split; reflexivity. Qed.

Lemma frame_trans t1 t2 a b c : frame t1 t2 a b -> frame t1 t2 b c -> frame t1 t2 a c.
Proof.
  intros [H1 H2] [H3 H4]. split.
  - intros t. rewrite H3. apply H1.
  - intros t N1 N2. rewrite H4, H2 by assumption. reflexivity.
Qed.

Lemma get_set_field_other r c v k : c <> k -> get (Admin.set_field r c v) k = get r k.
Proof.
  intros N. induction r as [|[c' v'] r IH]; simpl.
  - unfold get. simpl. destruct (String.eqb c k) eqn:E; [apply String.eqb_eq in E; congruence|reflexivity].
  - destruct (String.eqb c' c) eqn:E.
    + apply String.eqb_eq in E. subst c'. unfold get. simpl.
      destruct (String.eqb c k) eqn:E2; [apply String.eqb_eq in E2; congruence|reflexivity].
    + unfold get in *. simpl. destruct (String.eqb c' k); [reflexivity|exact IH].
Qed.

Lemma get_fold_set_field kvs r k :
  (forall kv, In kv kvs -> fst kv <> k) ->
  get (fold_left (fun r kv => Admin.set_field r (fst kv) (snd kv)) kvs r) k = get r k.
Proof.
  revert r. induction kvs as [|kv kvs IH]; intros r H; simpl; [reflexivity|].
  rewrite IH by (intros; apply H; right; assumption).
  apply get_set_field_other, H. left. reflexivity.
Qed.

Lemma update_frame t sets defaults p st st' rows :
  Admin.update t sets defaults p st = Some (st', rows) ->
  (forall k, In k (map fst sets ++ defaults) -> k <> "id") ->
  frame t t st st'.
Proof.
  unfold Admin.update. intros E Hk.
  destruct (_ && _)%bool; [|discriminate]. injection E as <- _.
  split.
  - intros t'. unfold row_ids, set_rows. simpl. destruct (tbl_eqb t t') eqn:T; [|reflexivity].
    apply tbl_eqb_eq in T. subst t'. rewrite map_map. apply map_ext. intros r.
    destruct (p r); [|reflexivity]. apply get_fold_set_field.
    intros kv Hkv. apply Hk. apply in_app_or in Hkv as [Hkv|Hkv].
    + apply in_or_app. left. apply in_map, Hkv.
    + apply in_map_iff in Hkv as (c & <- & Hc). apply in_or_app. right. exact Hc.
  - intros t' N _. unfold set_rows. simpl. destruct (tbl_eqb t t') eqn:T; [|reflexivity].
    apply tbl_eqb_eq in T. congruence.
Qed.

Lemma update_by_id_frame t sets defaults ret param st st' rows :
  update_by_id t sets defaults ret param st = Some (st', rows) ->
  (forall k, In k (map fst sets ++ defaults) -> k <> "id") ->
  frame t t st st'.
Proof.
  unfold update_by_id. intros E Hk. destruct (has_cols st t ret); [|discriminate].
  destruct (pg_int param); [exact (update_frame _ _ _ _ _ _ _ E Hk)| |discriminate].
  destruct (Admin.update _ _ _ _ _) as [[st1 rows1]|] eqn:U; [|discriminate].
  injection E as <- _. exact (update_frame _ _ _ _ _ _ _ U Hk).
Qed.

Lemma frame_widen t1 t2 t st st' : (t = t1 \/ t = t2) -> frame t t st st' -> frame t1 t2 st st'.
Proof.
  intros Ht [H1 H2]. split; [exact H1|]. intros t' N1 N2. apply H2; destruct Ht; congruence.
Qed.

Lemma set_fragments_keys cols pl keys kv :
  In kv (set_fragments cols pl keys) -> In (fst kv) keys.
Proof.
  unfold set_fragments. intros H. apply in_flat_map in H as (key & Hk & H).
  destruct (_ && _)%bool; [|destruct H]. destruct H as [<-|[]]. exact Hk.
Qed.

(** X. PUT /api/profile, whatever its body, its result and the database
    faults, never adds, removes or re-keys a row of any table and leaves
    every table but [User] and [Company] unchanged. *)
Theorem put_profile_frame u cid up cp c :
  frame TUser TCompany (c_db c) (c_db (snd (Routes.put_profile u cid up cp c))).
Proof.
  revert c. unfold Routes.put_profile.
  pose proof (frame_refl TUser TCompany) as Rr. pose proof (frame_trans TUser TCompany) as Rt.
  destruct (negb (truthy u)); [apply (keeps_ret _ Rr)|].
  apply (keeps_try _ Rt); [|intros; apply (keeps_ret _ Rr)].
  apply (keeps_bind _ Rt); [apply (keeps_read _ Rr)|]. intros cols.
  apply (keeps_bind _ Rt).
  - destruct (set_fragments cols up profile_user_fields) as [|kv rest] eqn:E; [apply (keeps_ret _ Rr)|].
    apply (keeps_bind _ Rt); [|intros; apply (keeps_ret _ Rr)].
    apply (keeps_query _ Rr). intros st st' a U.
    apply (frame_widen _ _ TUser); [left; reflexivity|].
    apply (update_by_id_frame _ _ _ _ _ _ _ _ U). rewrite app_nil_r. rewrite <- E.
    intros k Hk. apply in_map_iff in Hk as (kv' & <- & Hkv). apply set_fragments_keys in Hkv.
    simpl in Hkv. intuition congruence.
  - intros updUser.
    apply (keeps_bind _ Rt); [|intros; apply (keeps_ret _ Rr)].
    destruct (_ && _)%bool; [|apply (keeps_ret _ Rr)].
    apply (keeps_bind _ Rt); [apply (keeps_read _ Rr)|]. intros ccols.
    destruct (set_fragments ccols cp profile_company_update_fields) as [|kv rest] eqn:E;
      [apply (keeps_ret _ Rr)|].
    apply (keeps_bind _ Rt); [|intros; apply (keeps_ret _ Rr)].
    apply (keeps_query _ Rr). intros st st' a U.
    apply (frame_widen _ _ TCompany); [right; reflexivity|].
    apply (update_by_id_frame _ _ _ _ _ _ _ _ U). rewrite <- E.
    intros k Hk. apply in_app_or in Hk as [Hk|Hk].
    + apply in_map_iff in Hk as (kv' & <- & Hkv). apply set_fragments_keys in Hkv.
      simpl in Hkv. intuition congruence.
    + unfold Admin.updated_at_column in Hk.
      destruct (Admin.has ccols "updatedAt"); [|destruct (Admin.has ccols "updated_at")];
        simpl in Hk; intuition congruence.
Qed.

Lemma set_fragments_none cols keys : set_fragments cols None keys = [].
Proof.
  unfold set_fragments. induction keys as [|k keys IH]; simpl; [reflexivity|].
  rewrite andb_false_r. exact IH.
Qed.

(** X. PUT /api/profile never looks the user up: when the body has no
    [user] object, its answer and its effect are the same for every
    non-empty [userId], so the company named by [companyId] is updated
    for any caller. *)
Theorem put_profile_user_not_checked u1 u2 cid cp c :
  truthy u1 = true -> truthy u2 = true ->
  Routes.put_profile u1 cid None cp c = Routes.put_profile u2 cid None cp c.
Proof.
  intros H1 H2. unfold Routes.put_profile. rewrite H1, H2. cbn [negb].
  unfold mtry, mbind, getTableColumns.
  destruct (pool_read (fun st => Some (s_cols st TUser)) c) as [[cols|e] c1]; [|reflexivity].
  cbv beta iota. rewrite set_fragments_none. reflexivity.
Qed.

Lemma put_profile_user_not_checked_witness :
  truthy (JNum 5) = true /\ truthy (JNum 7) = true /\
  Routes.put_profile (JNum 5) (JNum 1) None (Some [("name", JStr "Acme Labs")]) (conn_of (fx_forum_db [] [])) =
  Routes.put_profile (JNum 7) (JNum 1) None (Some [("name", JStr "Acme Labs")]) (conn_of (fx_forum_db [] [])).
Proof.
  split; [reflexivity|]. split; [reflexivity|].
  apply put_profile_user_not_checked; reflexivity.
Defined.

(** X. PUT /api/admin/companies/:id, whatever its body, its result and
    the database faults, never adds, removes or re-keys a row and changes
    no table but [Company]. *)
Theorem update_company_frame k b c :
  frame TCompany TCompany (c_db c) (c_db (snd (Admin.update_company k b c))).
Proof.
  revert c. unfold Admin.update_company.
  pose proof (frame_refl TCompany TCompany) as Rr. pose proof (frame_trans TCompany TCompany) as Rt.
  destruct (negb (num_truthy k)); [apply (keeps_ret _ Rr)|].
  apply (keeps_try _ Rt); [|intros; apply (keeps_ret _ Rr)].
  apply (keeps_bind _ Rt); [apply (keeps_read _ Rr)|]. intros cols. cbv zeta.
  destruct (flat_map _ _) as [|kv rest] eqn:E; [apply (keeps_ret _ Rr)|].
  apply (keeps_bind _ Rt); [|intros a; destruct a; apply (keeps_ret _ Rr)].
  apply (keeps_query _ Rr). intros st st' a U.
  unfold with_int in U. destruct (pg_int _); try discriminate U.
  apply (update_frame _ _ _ _ _ _ _ U).
  rewrite <- E. intros k' Hk. apply in_app_or in Hk as [Hk|Hk].
  - apply in_map_iff in Hk as (kv' & <- & Hkv). apply in_flat_map in Hkv as (key & Hkey & Hkv).
    destruct (_ && _)%bool; [|destruct Hkv]. destruct Hkv as [<-|[]].
    simpl in Hkey |- *. intuition congruence.
  - unfold Admin.updated_at_column in Hk.
    destruct (Admin.has cols "updatedAt"); [|destruct (Admin.has cols "updated_at")];
      simpl in Hk; intuition congruence.
Qed.
